(** * The offloading frontend of programs/host/frontend.c

    A shallow embedding of the host side of the serialization channel:
    the framed reader and writer, the argument stack, the table of file
    handles, the dispatcher [mbedtls_serialize_perform] and the message
    loop [mbedtls_serialize_pull].

    Conventions.
    - C integers are [Z]; every conversion between widths is written out
      ([to_uint32], [to_int], [to_size_t]).
    - A byte is a [Z] in [0, 256); a buffer is a [list byte].
    - Code that can dereference a null pointer or leave an array is a
      computation in [outcome], which has a [Fault] result for it.
    - Loops on the input device are bounded by [fuel]; [OutOfFuel] is the
      result of a loop that has not returned within the bound.
    - Traces written to the debug sink ([DBG], [DUMP_CHAR]) are not part
      of the state; only the dereferences they make are kept. *)

From Stdlib Require Import ZArith List Bool Lia.
From stdpp Require Import base list.
Import ListNotations.
Local Open Scope Z_scope.

(** ** Constants of mbedtls/serialize.h and mbedtls/fsio.h

    The constants the frontend takes from the two headers are parameters
    of the embedding; they keep their C names. *)

Class serialize_h := {
  MBEDTLS_SERIALIZE_TYPE_PUSH : Z;
  MBEDTLS_SERIALIZE_TYPE_EXECUTE : Z;
  MBEDTLS_SERIALIZE_TYPE_RESULT : Z;
  MBEDTLS_SERIALIZE_MAX_STRING_LENGTH : Z;
  MBEDTLS_SERIALIZE_FUNCTION_EXIT : Z;
  MBEDTLS_SERIALIZE_FUNCTION_ECHO : Z;
  MBEDTLS_SERIALIZE_FUNCTION_USLEEP : Z;
  MBEDTLS_SERIALIZE_FUNCTION_SOCKET : Z;
  MBEDTLS_SERIALIZE_FUNCTION_ACCEPT : Z;
  MBEDTLS_SERIALIZE_FUNCTION_SET_BLOCK : Z;
  MBEDTLS_SERIALIZE_FUNCTION_RECV : Z;
  MBEDTLS_SERIALIZE_FUNCTION_SEND : Z;
  MBEDTLS_SERIALIZE_FUNCTION_SHUTDOWN : Z;
  MBEDTLS_SERIALIZE_FUNCTION_FOPEN : Z;
  MBEDTLS_SERIALIZE_FUNCTION_FREAD : Z;
  MBEDTLS_SERIALIZE_FUNCTION_FGETS : Z;
  MBEDTLS_SERIALIZE_FUNCTION_FWRITE : Z;
  MBEDTLS_SERIALIZE_FUNCTION_FCLOSE : Z;
  MBEDTLS_SERIALIZE_FUNCTION_FSEEK : Z;
  MBEDTLS_SERIALIZE_FUNCTION_FTELL : Z;
  MBEDTLS_SERIALIZE_FUNCTION_FERROR : Z;
  MBEDTLS_SERIALIZE_FUNCTION_DOPEN : Z;
  MBEDTLS_SERIALIZE_FUNCTION_DREAD : Z;
  MBEDTLS_SERIALIZE_FUNCTION_DCLOSE : Z;
  MBEDTLS_SERIALIZE_FUNCTION_STAT : Z;
  MBEDTLS_ERR_SERIALIZE_BAD_INPUT : Z;
  MBEDTLS_ERR_SERIALIZE_BAD_OUTPUT : Z;
  MBEDTLS_ERR_SERIALIZE_ALLOC_FAILED : Z;
  MBEDTLS_ERR_SERIALIZE_UNSUPPORTED_OUTPUT : Z;
  MBEDTLS_ERR_SERIALIZE_SEND : Z;
  MBEDTLS_ERR_SERIALIZE_RECEIVE : Z;
  MBEDTLS_SERIALIZE_SOCKET_DIRECTION_MASK : Z;
  MBEDTLS_SERIALIZE_SOCKET_BIND : Z;
  MBEDTLS_SERIALIZE_BLOCK_BLOCK : Z;
  MBEDTLS_SERIALIZE_BLOCK_NONBLOCK : Z;
  MBEDTLS_SERIALIZE_TIMEOUT_INFINITE : Z;
  MBEDTLS_SERIALIZE_FSEEK_SET : Z;
  MBEDTLS_SERIALIZE_FSEEK_CUR : Z;
  MBEDTLS_SERIALIZE_FSEEK_END : Z
}.

(** ** Machine integers *)

Definition byte := Z.

Definition to_uint8 (z : Z) : Z := z mod 2 ^ 8.
Definition to_uint16 (z : Z) : Z := z mod 2 ^ 16.
Definition to_uint32 (z : Z) : Z := z mod 2 ^ 32.
Definition to_size_t (z : Z) : Z := z mod 2 ^ 64.

(** Conversion to [int] and [int32_t] (two's complement). *)
Definition to_int (z : Z) : Z :=
  let u := to_uint32 z in if u <? 2 ^ 31 then u else u - 2 ^ 32.

(** [sizeof( mbedtls_serialize_item_t )]: a pointer and a [size_t]. *)
Definition sizeof_item : Z := 16.

(** ** Results of a computation *)

Inductive fault :=
| NullDeref        (* an input slot that was never filled is dereferenced *)
| OutOfBounds.     (* a buffer or the handle table is accessed outside it *)

Inductive outcome (A : Type) :=
| Ret (a : A)
| Fault (f : fault)
| OutOfFuel.
Arguments Ret {A} a.
Arguments Fault {A} f.
Arguments OutOfFuel {A}.

Definition bind {A B} (m : outcome A) (k : A -> outcome B) : outcome B :=
  match m with
  | Ret a => k a
  | Fault f => Fault f
  | OutOfFuel => OutOfFuel
  end.

Notation "'let*' p := m 'in' k" := (bind m (fun p => k))
  (at level 10, p pattern, m at level 100, k at level 200,
   format "'[v' 'let*'  p  :=  m  'in' '/' k ']'").

(** ** Items

    An item is its [size] bytes of data; [alloc_item] gives zeroed bytes
    ([calloc]). Shrinking [item->size] keeps the leading bytes. *)

Definition item := list byte.

Definition item_size (it : item) : Z := Z.of_nat (length it).

(** [memcpy( buffer + off, data, |data| )]. *)
Definition overwrite (off : nat) (data buffer : list byte) : list byte :=
  take off buffer ++ data ++ drop (off + length data) buffer.

(** [item->size = n] on an item whose buffer holds at least [n] bytes. *)
Definition set_size (n : Z) (it : item) : item := take (Z.to_nat n) it.

Definition item_uint16 (it : item) : outcome Z :=
  match it with
  | b0 :: b1 :: _ => Ret (Z.lor (Z.shiftl b0 8) b1)
  | _ => Fault OutOfBounds
  end.

Definition item_uint32 (it : item) : outcome Z :=
  match it with
  | b0 :: b1 :: b2 :: b3 :: _ =>
      Ret (Z.lor (Z.lor (Z.lor (Z.shiftl b0 24) (Z.shiftl b1 16))
                        (Z.shiftl b2 8)) b3)
  | _ => Fault OutOfBounds
  end.

Definition set_item_uint16 (it : item) (value : Z) : item :=
  overwrite 0 [Z.land (Z.shiftr value 8) 255; Z.land value 255] it.

Definition uint32_bytes (value : Z) : list byte :=
  [Z.land (Z.shiftr value 24) 255; Z.land (Z.shiftr value 16) 255;
   Z.land (Z.shiftr value 8) 255; Z.land value 255].

Definition set_item_uint32 (it : item) (value : Z) : item :=
  overwrite 0 (uint32_bytes value) it.

(** A [char *] into an item, read by the callee up to its first NUL. *)
Fixpoint c_string (buffer : list byte) : outcome (list byte) :=
  match buffer with
  | [] => Fault OutOfBounds
  | b :: rest =>
      if b =? 0 then Ret []
      else let* s := c_string rest in Ret (b :: s)
  end.

(** ** The serial device

    The read side is the list of what the coming [read] calls deliver: a
    run of bytes, of which a call takes at most its count, or an error.
    When nothing is left the device is at end of stream and [read]
    returns 0. The write side lists how many bytes the coming [write]
    calls accept; when nothing is left, [write] accepts all it is given. *)

Inductive chunk :=
| Bytes (bs : list byte)
| RError.

Inductive wevent :=
| Accept (n : nat)
| WError.

(** [read( fd, buffer, count )]: the result, the bytes stored, the device. *)
Definition read (dev : list chunk) (count : Z)
  : Z * list byte * list chunk :=
  match dev with
  | [] => (0, [], [])
  | RError :: dev' => (-1, [], dev')
  | Bytes bs :: dev' =>
      let got := take (Z.to_nat count) bs in
      let left := drop (Z.to_nat count) bs in
      (Z.of_nat (length got), got,
       match left with [] => dev' | _ :: _ => Bytes left :: dev' end)
  end.

Definition open_brace : byte := 123.

(** ** The host platform

    The collaborators of the dispatcher: the allocator, the networking
    module (mbedtls/net_sockets.h) and the filesystem module
    (mbedtls/fsio.h). A call takes the state of the platform and returns
    the next one. An [int] result is listed first; a buffer filled by the
    call is returned as the bytes stored at its start; a [FILE *] or
    [DIR *] is a [Z], 0 for [NULL]. *)

Class Host := {
  world : Type;
  (* [mbedtls_calloc( n, 1 ) != NULL] *)
  mbedtls_calloc : Z -> world -> bool * world;
  mbedtls_net_usleep : Z -> world -> world;
  (* host, port, proto; the result and [ctx->fd] *)
  mbedtls_net_bind : list byte -> list byte -> Z -> world -> Z * Z * world;
  mbedtls_net_connect : list byte -> list byte -> Z -> world -> Z * Z * world;
  (* [bind_ctx->fd], buf_size; the result, [bind_ctx->fd], [client_ctx->fd]
     and the client address, whose length is [*ip_len] *)
  mbedtls_net_accept : Z -> Z -> world -> Z * Z * Z * list byte * world;
  mbedtls_net_set_block : Z -> world -> Z * world;
  mbedtls_net_set_nonblock : Z -> world -> Z * world;
  (* fd, len *)
  mbedtls_net_recv : Z -> Z -> world -> Z * list byte * world;
  (* fd, len, timeout *)
  mbedtls_net_recv_timeout : Z -> Z -> Z -> world -> Z * list byte * world;
  (* fd, the [len] bytes of the buffer *)
  mbedtls_net_send : Z -> list byte -> world -> Z * world;
  mbedtls_net_free : Z -> world -> world;
  (* path, mode *)
  mbedtls_fopen : list byte -> list byte -> world -> Z * world;
  (* size, file *)
  mbedtls_fread : Z -> Z -> world -> Z * list byte * world;
  (* size, file; [None] for a [NULL] result *)
  mbedtls_fgets : Z -> Z -> world -> option (list byte) * world;
  (* the [size] bytes of the buffer, file *)
  mbedtls_fwrite : list byte -> Z -> world -> Z * world;
  mbedtls_fclose : Z -> world -> Z * world;
  (* file, offset, whence *)
  mbedtls_fseek : Z -> Z -> Z -> world -> Z * world;
  mbedtls_ftell : Z -> world -> Z * world;
  mbedtls_ferror : Z -> world -> Z * world;
  mbedtls_opendir : list byte -> world -> Z * world;
  (* dir, size *)
  mbedtls_readdir : Z -> Z -> world -> Z * list byte * world;
  mbedtls_closedir : Z -> world -> Z * world;
  (* path; the result and [sb.type] *)
  mbedtls_stat : list byte -> world -> Z * Z * world
}.

(** [<stdio.h>] *)
Definition SEEK_SET : Z := 0.
Definition SEEK_CUR : Z := 1.
Definition SEEK_END : Z := 2.

(** ** State of the frontend *)

Inductive mbedtls_serialize_status_t :=
| MBEDTLS_SERIALIZE_STATUS_DEAD
| MBEDTLS_SERIALIZE_STATUS_OK
| MBEDTLS_SERIALIZE_STATUS_OUT_OF_MEMORY
| MBEDTLS_SERIALIZE_STATUS_EXITED.

Definition status_value (st : mbedtls_serialize_status_t) : Z :=
  match st with
  | MBEDTLS_SERIALIZE_STATUS_DEAD => 0
  | MBEDTLS_SERIALIZE_STATUS_OK => 1
  | MBEDTLS_SERIALIZE_STATUS_OUT_OF_MEMORY => 2
  | MBEDTLS_SERIALIZE_STATUS_EXITED => 3
  end.

Definition status_eqb (a b : mbedtls_serialize_status_t) : bool :=
  status_value a =? status_value b.

Record mbedtls_serialize_file_context_t := {
  file : Z;
  inUse : Z
}.

Definition MBEDTLS_SERIALIZE_MAX_FILES : Z := 100.

(** The context [ctx] (its stack, top first, its status and the devices
    behind its two descriptors), the statics [exitcode] and [files], and
    the platform. [sent] is what has been written to [write_fd]. *)
Record state `{Host} := {
  stack : list item;
  status : mbedtls_serialize_status_t;
  exitcode : Z;
  files : list mbedtls_serialize_file_context_t;
  read_fd : list chunk;
  write_fd : list wevent;
  sent : list byte;
  platform : world
}.

Section Frontend.
Context `{serialize_h} `{Host}.

Definition set_stack (v : list item) (s : state) : state :=
  {| stack := v; status := status s; exitcode := exitcode s;
     files := files s; read_fd := read_fd s; write_fd := write_fd s;
     sent := sent s; platform := platform s |}.

Definition set_status (v : mbedtls_serialize_status_t) (s : state) : state :=
  {| stack := stack s; status := v; exitcode := exitcode s;
     files := files s; read_fd := read_fd s; write_fd := write_fd s;
     sent := sent s; platform := platform s |}.

Definition set_exitcode (v : Z) (s : state) : state :=
  {| stack := stack s; status := status s; exitcode := v;
     files := files s; read_fd := read_fd s; write_fd := write_fd s;
     sent := sent s; platform := platform s |}.

Definition set_files (v : list mbedtls_serialize_file_context_t)
    (s : state) : state :=
  {| stack := stack s; status := status s; exitcode := exitcode s;
     files := v; read_fd := read_fd s; write_fd := write_fd s;
     sent := sent s; platform := platform s |}.

Definition set_read_fd (v : list chunk) (s : state) : state :=
  {| stack := stack s; status := status s; exitcode := exitcode s;
     files := files s; read_fd := v; write_fd := write_fd s;
     sent := sent s; platform := platform s |}.

Definition set_write_fd (v : list wevent) (out : list byte)
    (s : state) : state :=
  {| stack := stack s; status := status s; exitcode := exitcode s;
     files := files s; read_fd := read_fd s; write_fd := v;
     sent := out; platform := platform s |}.

Definition set_platform (v : world) (s : state) : state :=
  {| stack := stack s; status := status s; exitcode := exitcode s;
     files := files s; read_fd := read_fd s; write_fd := write_fd s;
     sent := sent s; platform := v |}.

(** [alloc_item]: [None] is [NULL]. When [sizeof( item ) + length] wraps
    in [size_t], a successful [calloc] returns a block too small for the
    item, and storing [item->size] leaves it. *)
Definition alloc_item (length : Z) (w : world)
  : outcome (option item * world) :=
  let '(ok, w') := mbedtls_calloc (to_size_t (sizeof_item + length)) w in
  if ok then
    if 2 ^ 64 <=? sizeof_item + length then Fault OutOfBounds
    else Ret (Some (replicate (Z.to_nat length) 0), w')
  else Ret (None, w').

(** ** The channel *)

(** [mbedtls_serialize_write]: [buffer] is the [length] bytes to write.
    The loop runs once per [write] call; the device accepts everything
    once its list is used up, so the recursion is on that list. *)
Fixpoint mbedtls_serialize_write (dev : list wevent) (out : list byte)
    (buffer : list byte) : Z * list wevent * list byte :=
  match dev with
  | [] => (0, [], out ++ buffer)
  | WError :: dev' => (MBEDTLS_ERR_SERIALIZE_SEND, dev', out)
  | Accept n :: dev' =>
      let out' := out ++ take n buffer in
      match drop n buffer with
      | [] => (0, dev', out')
      | _ :: _ => mbedtls_serialize_write dev' out' (drop n buffer)
      end
  end.

(** The first loop of [mbedtls_serialize_read]: one byte at a time into
    [buffer[0]] until two consecutive ['{'] have been seen. A [read] that
    returns 0 stores nothing, and the test looks at the byte that was in
    [buffer[0]] before. The result is [false] when a [read] failed. *)
Fixpoint sync_loop (fuel : nat) (dev : list chunk) (buffer : list byte)
    (token_count : Z) : outcome (bool * list chunk * list byte) :=
  if token_count <? 2 then
    match fuel with
    | O => OutOfFuel
    | S fuel' =>
        match buffer with
        | [] => Fault OutOfBounds
        | b0 :: tl =>
            let '(n, got, dev') := read dev 1 in
            if n <? 0 then Ret (false, dev', buffer)
            else
              let c := match got with c :: _ => c | [] => b0 end in
              if c =? open_brace
              then sync_loop fuel' dev' (c :: tl) (token_count + 1)
              else sync_loop fuel' dev' (c :: tl) 0
        end
    end
  else Ret (true, dev, buffer).

(** The second loop, a do-while: [off] is how far [buffer] has been
    advanced. *)
Fixpoint read_loop (fuel : nat) (dev : list chunk) (buffer : list byte)
    (off : nat) (remaining : Z) : outcome (Z * list chunk * list byte) :=
  match fuel with
  | O => OutOfFuel
  | S fuel' =>
      let '(n, got, dev') := read dev remaining in
      if n <? 0 then Ret (MBEDTLS_ERR_SERIALIZE_RECEIVE, dev', buffer)
      else
        let buffer' := overwrite off got buffer in
        if 0 <? remaining - n
        then read_loop fuel' dev' buffer' (off + length got) (remaining - n)
        else Ret (0, dev', buffer')
  end.

Definition mbedtls_serialize_read (fuel : nat) (dev : list chunk)
    (buffer : list byte) (length : Z)
  : outcome (Z * list chunk * list byte) :=
  let* (synced, dev', buffer') := sync_loop fuel dev buffer 0 in
  if synced : bool then read_loop fuel dev' buffer' 0 length
  else Ret (MBEDTLS_ERR_SERIALIZE_RECEIVE, dev', buffer').

(** ** The argument stack *)

Fixpoint discard_items (l : list item) : list item :=
  match l with
  | [] => []
  | _ :: next => discard_items next
  end.

Definition mbedtls_serialize_discard_stack (s : state) : state :=
  set_stack (discard_items (stack s)) s.

(** ** The handle table *)

(** [files[i]] for a signed index. *)
Definition file_slot (fs : list mbedtls_serialize_file_context_t) (i : Z)
  : outcome mbedtls_serialize_file_context_t :=
  if (0 <=? i) && (i <? MBEDTLS_SERIALIZE_MAX_FILES) then
    match fs !! Z.to_nat i with
    | Some e => Ret e
    | None => Fault OutOfBounds
    end
  else Fault OutOfBounds.

Fixpoint alloc_file_loop (n : nat) (i : Z)
    (fs : list mbedtls_serialize_file_context_t)
  : outcome (Z * list mbedtls_serialize_file_context_t) :=
  match n with
  | O => Ret (-1, fs)
  | S n' =>
      let* e := file_slot fs i in
      if inUse e =? 0
      then Ret (i + 1, <[Z.to_nat i := {| file := file e; inUse := 1 |}]> fs)
      else alloc_file_loop n' (i + 1) fs
  end.

Definition alloc_file_context
    (fs : list mbedtls_serialize_file_context_t)
  : outcome (Z * list mbedtls_serialize_file_context_t) :=
  alloc_file_loop (Z.to_nat MBEDTLS_SERIALIZE_MAX_FILES) 0 fs.

Definition free_file_context
    (fs : list mbedtls_serialize_file_context_t) (file_id : Z)
  : outcome (Z * list mbedtls_serialize_file_context_t) :=
  let file_id := to_int (file_id - 1) in
  if file_id <? MBEDTLS_SERIALIZE_MAX_FILES then
    let* e := file_slot fs file_id in
    let fs' := <[Z.to_nat file_id := {| file := file e; inUse := 0 |}]> fs in
    if file e =? 0 then Ret (-1, fs')
    else Ret (0, <[Z.to_nat file_id := {| file := 0; inUse := 0 |}]> fs')
  else Ret (-1, fs).

(** The result is the stored pointer, 0 for [NULL]. *)
Definition get_file_from_id
    (fs : list mbedtls_serialize_file_context_t) (file_id : Z) : outcome Z :=
  let file_id := to_int (file_id - 1) in
  if file_id <? MBEDTLS_SERIALIZE_MAX_FILES then
    let* e := file_slot fs file_id in
    if inUse e =? 0 then Ret 0 else Ret (file e)
  else Ret 0.

(** [files[file_id - 1].file = p] *)
Definition store_file (fs : list mbedtls_serialize_file_context_t)
    (file_id p : Z) : outcome (list mbedtls_serialize_file_context_t) :=
  let* e := file_slot fs (file_id - 1) in
  Ret (<[Z.to_nat (file_id - 1) := {| file := p; inUse := inUse e |}]> fs).

(** ** The dispatcher *)

Definition outputs_t := list (option item).

(** What a case of the switch leaves: [ret], [outputs] and the state. *)
Definition case_result : Type := Z * outputs_t * state.

(** [inputs[i]], dereferenced. *)
Definition input (inputs : list item) (i : nat) : outcome item :=
  match inputs !! i with
  | Some it => Ret it
  | None => Fault NullDeref
  end.

(** [outputs[i]], dereferenced. *)
Definition output (outputs : outputs_t) (i : nat) : outcome item :=
  match outputs !! i with
  | Some (Some it) => Ret it
  | _ => Fault NullDeref
  end.

Definition CHECK_ARITY (inputs : list item) (min_arity : Z)
    (outputs : outputs_t) (s : state) (k : outcome case_result)
  : outcome case_result :=
  if Z.of_nat (length inputs) <? min_arity
  then Ret (MBEDTLS_ERR_SERIALIZE_BAD_INPUT, outputs, s)
  else k.

Definition CHECK_LENGTH (inputs : list item) (i : nat) (n : Z)
    (outputs : outputs_t) (s : state) (k : outcome case_result)
  : outcome case_result :=
  let* it := input inputs i in
  if item_size it <? n
  then Ret (MBEDTLS_ERR_SERIALIZE_BAD_INPUT, outputs, s)
  else k.

Definition ALLOC_OUTPUT (i : nat) (length : Z)
    (outputs : outputs_t) (s : state)
    (k : outputs_t -> state -> outcome case_result)
  : outcome case_result :=
  let* (p, w) := alloc_item (to_size_t length) (platform s) in
  let outputs' := <[i := p]> outputs in
  let s' := set_platform w s in
  match p with
  | None => Ret (MBEDTLS_ERR_SERIALIZE_ALLOC_FAILED, outputs', s')
  | Some _ => k outputs' s'
  end.

(** [buffer[size - 1]] of an item. *)
Definition last_byte (it : item) : outcome byte :=
  match last it with
  | Some b => Ret b
  | None => Fault OutOfBounds
  end.

Definition perform_EXIT (inputs : list item) (outputs : outputs_t)
    (s : state) : outcome case_result :=
  CHECK_ARITY inputs 1 outputs s (
  CHECK_LENGTH inputs 0 4 outputs s (
  let* i0 := input inputs 0 in
  let* code := item_uint32 i0 in
  Ret (0, outputs,
       set_status MBEDTLS_SERIALIZE_STATUS_EXITED
         (set_exitcode (to_int code) s)))).

Definition perform_ECHO (inputs : list item) (outputs : outputs_t)
    (s : state) : outcome case_result :=
  CHECK_ARITY inputs 1 outputs s (
  let* i0 := input inputs 0 in
  ALLOC_OUTPUT 0 (item_size i0) outputs s (fun outputs s =>
  let* o0 := output outputs 0 in
  Ret (0, <[0%nat := Some (overwrite 0 i0 o0)]> outputs, s))).

Definition perform_USLEEP (inputs : list item) (outputs : outputs_t)
    (s : state) : outcome case_result :=
  CHECK_ARITY inputs 1 outputs s (
  CHECK_LENGTH inputs 0 4 outputs s (
  let* i0 := input inputs 0 in
  let* usec := item_uint32 i0 in
  Ret (0, outputs, set_platform (mbedtls_net_usleep usec (platform s)) s))).

Definition perform_SOCKET (inputs : list item) (outputs : outputs_t)
    (s : state) : outcome case_result :=
  CHECK_ARITY inputs 3 outputs s (
  CHECK_LENGTH inputs 2 2 outputs s (
  let* i0 := input inputs 0 in
  let* i1 := input inputs 1 in
  let* i2 := input inputs 2 in
  let* host_end := last_byte i0 in
  let* terminated :=
    if host_end =? 0
    then let* port_end := last_byte i1 in Ret (port_end =? 0)
    else Ret false in
  if terminated : bool then
    let* proto := item_uint16 i2 in
    let is_bind :=
      Z.land proto MBEDTLS_SERIALIZE_SOCKET_DIRECTION_MASK
        =? MBEDTLS_SERIALIZE_SOCKET_BIND in
    ALLOC_OUTPUT 0 2 outputs s (fun outputs s =>
    let proto :=
      to_uint16
        (Z.land proto (Z.lnot MBEDTLS_SERIALIZE_SOCKET_DIRECTION_MASK)) in
    let* host := c_string i0 in
    let* port := c_string i1 in
    let '(ret, fd, w) :=
      if is_bind then mbedtls_net_bind host port proto (platform s)
      else mbedtls_net_connect host port proto (platform s) in
    let ret := to_int ret in
    let s := set_platform w s in
    if ret =? 0 then
      let* o0 := output outputs 0 in
      Ret (ret, <[0%nat := Some (set_item_uint16 o0 (to_uint16 fd))]> outputs,
           s)
    else Ret (ret, outputs, s))
  else Ret (MBEDTLS_ERR_SERIALIZE_BAD_INPUT, outputs, s))).

Definition perform_ACCEPT (inputs : list item) (outputs : outputs_t)
    (s : state) : outcome case_result :=
  CHECK_ARITY inputs 2 outputs s (
  CHECK_LENGTH inputs 0 2 outputs s (
  CHECK_LENGTH inputs 1 4 outputs s (
  let* i0 := input inputs 0 in
  let* i1 := input inputs 1 in
  let* bind_fd := item_uint16 i0 in
  let* buffer_size := item_uint32 i1 in
  ALLOC_OUTPUT 0 2 outputs s (fun outputs s =>
  ALLOC_OUTPUT 1 2 outputs s (fun outputs s =>
  ALLOC_OUTPUT 2 buffer_size outputs s (fun outputs s =>
  let* o0 := output outputs 0 in
  let* o1 := output outputs 1 in
  let* o2 := output outputs 2 in
  let '(ret, bind_fd', client_fd, ip, w) :=
    mbedtls_net_accept bind_fd (item_size o2) (platform s) in
  let ret := to_int ret in
  let s := set_platform w s in
  let o2 := overwrite 0 ip o2 in
  if ret =? 0 then
    Ret (ret,
         <[2%nat := Some (set_size (item_size ip) o2)]>
           (<[1%nat := Some (set_item_uint16 o1 (to_uint16 client_fd))]>
              (<[0%nat := Some (set_item_uint16 o0 (to_uint16 bind_fd'))]>
                 outputs)),
         s)
  else Ret (ret, <[2%nat := Some o2]> outputs, s))))))).

Definition perform_SET_BLOCK (inputs : list item) (outputs : outputs_t)
    (s : state) : outcome case_result :=
  CHECK_ARITY inputs 2 outputs s (
  CHECK_LENGTH inputs 0 2 outputs s (
  CHECK_LENGTH inputs 1 2 outputs s (
  let* i0 := input inputs 0 in
  let* i1 := input inputs 1 in
  let* fd := item_uint16 i0 in
  let* mode := item_uint16 i1 in
  if mode =? MBEDTLS_SERIALIZE_BLOCK_BLOCK then
    let '(ret, w) := mbedtls_net_set_block fd (platform s) in
    Ret (to_int ret, outputs, set_platform w s)
  else if mode =? MBEDTLS_SERIALIZE_BLOCK_NONBLOCK then
    let '(ret, w) := mbedtls_net_set_nonblock fd (platform s) in
    Ret (to_int ret, outputs, set_platform w s)
  else Ret (MBEDTLS_ERR_SERIALIZE_BAD_INPUT, outputs, s)))).

Definition perform_RECV (inputs : list item) (outputs : outputs_t)
    (s : state) : outcome case_result :=
  CHECK_ARITY inputs 3 outputs s (
  CHECK_LENGTH inputs 0 2 outputs s (
  CHECK_LENGTH inputs 1 4 outputs s (
  CHECK_LENGTH inputs 2 4 outputs s (
  let* i0 := input inputs 0 in
  let* i1 := input inputs 1 in
  let* i2 := input inputs 2 in
  let* fd := item_uint16 i0 in
  let* len := item_uint32 i1 in
  let* timeout := item_uint32 i2 in
  ALLOC_OUTPUT 0 len outputs s (fun outputs s =>
  let* o0 := output outputs 0 in
  let '(ret, data, w) :=
    if timeout =? MBEDTLS_SERIALIZE_TIMEOUT_INFINITE
    then mbedtls_net_recv fd len (platform s)
    else mbedtls_net_recv_timeout fd len timeout (platform s) in
  let ret := to_int ret in
  let s := set_platform w s in
  let o0 := overwrite 0 data o0 in
  if 0 <=? ret
  then Ret (0, <[0%nat := Some (set_size ret o0)]> outputs, s)
  else Ret (ret, <[0%nat := Some o0]> outputs, s)))))).

Definition perform_SEND (inputs : list item) (outputs : outputs_t)
    (s : state) : outcome case_result :=
  CHECK_ARITY inputs 2 outputs s (
  CHECK_LENGTH inputs 0 2 outputs s (
  let* i0 := input inputs 0 in
  let* i1 := input inputs 1 in
  let* fd := item_uint16 i0 in
  ALLOC_OUTPUT 0 4 outputs s (fun outputs s =>
  let* o0 := output outputs 0 in
  let '(ret, w) := mbedtls_net_send fd i1 (platform s) in
  let ret := to_int ret in
  let s := set_platform w s in
  if 0 <=? ret
  then Ret (0, <[0%nat := Some (set_item_uint32 o0 (to_uint32 ret))]> outputs,
            s)
  else Ret (ret, outputs, s)))).

Definition perform_SHUTDOWN (inputs : list item) (outputs : outputs_t)
    (s : state) : outcome case_result :=
  CHECK_ARITY inputs 1 outputs s (
  CHECK_LENGTH inputs 0 2 outputs s (
  let* i0 := input inputs 0 in
  let* fd := item_uint16 i0 in
  Ret (0, outputs, set_platform (mbedtls_net_free fd (platform s)) s))).

Definition perform_FOPEN (inputs : list item) (outputs : outputs_t)
    (s : state) : outcome case_result :=
  ALLOC_OUTPUT 0 4 outputs s (fun outputs s =>
  let ret := MBEDTLS_ERR_SERIALIZE_BAD_OUTPUT in
  let* i0 := input inputs 0 in
  let* i1 := input inputs 1 in
  let* mode := c_string i0 in
  let* path := c_string i1 in
  let* (file_id, fs) := alloc_file_context (files s) in
  let s := set_files fs s in
  if file_id =? -1 then Ret (ret, outputs, s)
  else
    let '(f, w) := mbedtls_fopen path mode (platform s) in
    let s := set_platform w s in
    if f =? 0 then
      let* (_, fs) := free_file_context (files s) file_id in
      Ret (ret, outputs, set_files fs s)
    else
      let* fs := store_file (files s) file_id f in
      let* o0 := output outputs 0 in
      Ret (0, <[0%nat := Some (set_item_uint32 o0 (to_uint32 file_id))]> outputs,
           set_files fs s)).

Definition perform_FREAD (inputs : list item) (outputs : outputs_t)
    (s : state) : outcome case_result :=
  let ret := MBEDTLS_ERR_SERIALIZE_BAD_OUTPUT in
  let* i0 := input inputs 0 in
  let* size := item_uint32 i0 in
  let size := to_int size in
  let* i1 := input inputs 1 in
  let* file_id := item_uint32 i1 in
  let file_id := to_int file_id in
  let* f := get_file_from_id (files s) file_id in
  if f =? 0 then Ret (ret, outputs, s)
  else
    ALLOC_OUTPUT 0 size outputs s (fun outputs s =>
    let* o0 := output outputs 0 in
    let '(ret, data, w) := mbedtls_fread size f (platform s) in
    let ret := to_int ret in
    let s := set_platform w s in
    let o0 := overwrite 0 data o0 in
    if 0 <=? ret
    then Ret (0, <[0%nat := Some (set_size ret o0)]> outputs, s)
    else Ret (ret, <[0%nat := Some o0]> outputs, s)).

Definition perform_FGETS (inputs : list item) (outputs : outputs_t)
    (s : state) : outcome case_result :=
  let ret := MBEDTLS_ERR_SERIALIZE_BAD_OUTPUT in
  let* i0 := input inputs 0 in
  let* size := item_uint32 i0 in
  let size := to_int size in
  let* i1 := input inputs 1 in
  let* file_id := item_uint32 i1 in
  let file_id := to_int file_id in
  let* f := get_file_from_id (files s) file_id in
  if f =? 0 then Ret (ret, outputs, s)
  else
    ALLOC_OUTPUT 0 size outputs s (fun outputs s =>
    let* o0 := output outputs 0 in
    let '(line, w) := mbedtls_fgets size f (platform s) in
    let s := set_platform w s in
    match line with
    | Some data =>
        let o0 := overwrite 0 data o0 in
        let* str := c_string o0 in
        Ret (0, <[0%nat := Some (set_size (item_size str + 1) o0)]> outputs, s)
    | None => Ret (ret, outputs, s)
    end).

Definition perform_FWRITE (inputs : list item) (outputs : outputs_t)
    (s : state) : outcome case_result :=
  ALLOC_OUTPUT 0 4 outputs s (fun outputs s =>
  let ret := MBEDTLS_ERR_SERIALIZE_BAD_OUTPUT in
  let* i1 := input inputs 1 in
  let* file_id := item_uint32 i1 in
  let file_id := to_int file_id in
  let* f := get_file_from_id (files s) file_id in
  if f =? 0 then Ret (ret, outputs, s)
  else
    let* i0 := input inputs 0 in
    let '(ret, w) := mbedtls_fwrite i0 f (platform s) in
    let ret := to_int ret in
    let s := set_platform w s in
    if 0 <=? ret then
      let* o0 := output outputs 0 in
      Ret (0, <[0%nat := Some (set_item_uint32 o0 (to_uint32 ret))]> outputs, s)
    else Ret (ret, outputs, s)).

Definition perform_FCLOSE (inputs : list item) (outputs : outputs_t)
    (s : state) : outcome case_result :=
  let ret := MBEDTLS_ERR_SERIALIZE_BAD_OUTPUT in
  let* i0 := input inputs 0 in
  let* file_id := item_uint32 i0 in
  let file_id := to_int file_id in
  let* f := get_file_from_id (files s) file_id in
  if f =? 0 then Ret (ret, outputs, s)
  else
    let '(_, w) := mbedtls_fclose f (platform s) in
    let s := set_platform w s in
    let* (ret, fs) := free_file_context (files s) file_id in
    Ret (ret, outputs, set_files fs s).

Definition perform_FSEEK (inputs : list item) (outputs : outputs_t)
    (s : state) : outcome case_result :=
  let ret := MBEDTLS_ERR_SERIALIZE_BAD_OUTPUT in
  let* i0 := input inputs 0 in
  let* offset := item_uint32 i0 in
  let offset := to_int offset in
  let* i1 := input inputs 1 in
  let* whence := item_uint32 i1 in
  let whence := to_int whence in
  let* i2 := input inputs 2 in
  let* file_id := item_uint32 i2 in
  let file_id := to_int file_id in
  let* f := get_file_from_id (files s) file_id in
  if f =? 0 then Ret (ret, outputs, s)
  else
    let '(ret, whence) :=
      if whence =? MBEDTLS_SERIALIZE_FSEEK_SET then (0, SEEK_SET)
      else if whence =? MBEDTLS_SERIALIZE_FSEEK_CUR then (0, SEEK_CUR)
      else if whence =? MBEDTLS_SERIALIZE_FSEEK_END then (0, SEEK_END)
      else (MBEDTLS_ERR_SERIALIZE_BAD_OUTPUT, whence) in
    if ret =? 0 then
      let '(ret, w) := mbedtls_fseek f offset whence (platform s) in
      Ret (to_int ret, outputs, set_platform w s)
    else Ret (ret, outputs, s).

Definition perform_FTELL (inputs : list item) (outputs : outputs_t)
    (s : state) : outcome case_result :=
  ALLOC_OUTPUT 0 4 outputs s (fun outputs s =>
  let ret := MBEDTLS_ERR_SERIALIZE_BAD_OUTPUT in
  let* i0 := input inputs 0 in
  let* file_id := item_uint32 i0 in
  let file_id := to_int file_id in
  let* f := get_file_from_id (files s) file_id in
  if f =? 0 then Ret (ret, outputs, s)
  else
    let '(ret, w) := mbedtls_ftell f (platform s) in
    let ret := to_int ret in
    let s := set_platform w s in
    if 0 <=? ret then
      let* o0 := output outputs 0 in
      Ret (0, <[0%nat := Some (set_item_uint32 o0 (to_uint32 ret))]> outputs, s)
    else Ret (ret, outputs, s)).

Definition perform_FERROR (inputs : list item) (outputs : outputs_t)
    (s : state) : outcome case_result :=
  let ret := MBEDTLS_ERR_SERIALIZE_BAD_OUTPUT in
  let* i0 := input inputs 0 in
  let* file_id := item_uint32 i0 in
  let file_id := to_int file_id in
  let* f := get_file_from_id (files s) file_id in
  if f =? 0 then Ret (ret, outputs, s)
  else
    let '(ret, w) := mbedtls_ferror f (platform s) in
    Ret (to_int ret, outputs, set_platform w s).

Definition perform_DOPEN (inputs : list item) (outputs : outputs_t)
    (s : state) : outcome case_result :=
  ALLOC_OUTPUT 0 4 outputs s (fun outputs s =>
  let ret := MBEDTLS_ERR_SERIALIZE_BAD_OUTPUT in
  let* i0 := input inputs 0 in
  let* path := c_string i0 in
  let* (file_id, fs) := alloc_file_context (files s) in
  let s := set_files fs s in
  if file_id =? -1 then Ret (ret, outputs, s)
  else
    let '(dir, w) := mbedtls_opendir path (platform s) in
    let s := set_platform w s in
    if dir =? 0 then
      let* (_, fs) := free_file_context (files s) file_id in
      Ret (ret, outputs, set_files fs s)
    else
      let* fs := store_file (files s) file_id dir in
      let* o0 := output outputs 0 in
      Ret (0, <[0%nat := Some (set_item_uint32 o0 (to_uint32 file_id))]> outputs,
           set_files fs s)).

Definition perform_DREAD (inputs : list item) (outputs : outputs_t)
    (s : state) : outcome case_result :=
  let ret := MBEDTLS_ERR_SERIALIZE_BAD_OUTPUT in
  let* i0 := input inputs 0 in
  let* size := item_uint32 i0 in
  let size := to_int size in
  let* i1 := input inputs 1 in
  let* file_id := item_uint32 i1 in
  let file_id := to_int file_id in
  ALLOC_OUTPUT 0 size outputs s (fun outputs s =>
  let* dir := get_file_from_id (files s) file_id in
  if dir =? 0 then Ret (ret, outputs, s)
  else
    let* o0 := output outputs 0 in
    let '(r, data, w) := mbedtls_readdir dir size (platform s) in
    let s := set_platform w s in
    let o0 := overwrite 0 data o0 in
    if to_int r =? 0 then
      let* str := c_string o0 in
      Ret (0, <[0%nat := Some (set_size (item_size str + 1) o0)]> outputs, s)
    else Ret (ret, <[0%nat := Some o0]> outputs, s)).

Definition perform_DCLOSE (inputs : list item) (outputs : outputs_t)
    (s : state) : outcome case_result :=
  let ret := MBEDTLS_ERR_SERIALIZE_BAD_OUTPUT in
  let* i0 := input inputs 0 in
  let* file_id := item_uint32 i0 in
  let file_id := to_int file_id in
  let* dir := get_file_from_id (files s) file_id in
  if dir =? 0 then Ret (ret, outputs, s)
  else
    let '(_, w) := mbedtls_closedir dir (platform s) in
    let s := set_platform w s in
    let* (ret, fs) := free_file_context (files s) file_id in
    Ret (ret, outputs, set_files fs s).

Definition perform_STAT (inputs : list item) (outputs : outputs_t)
    (s : state) : outcome case_result :=
  ALLOC_OUTPUT 0 2 outputs s (fun outputs s =>
  let ret := MBEDTLS_ERR_SERIALIZE_BAD_OUTPUT in
  let* i0 := input inputs 0 in
  let* path := c_string i0 in
  let '(r, type, w) := mbedtls_stat path (platform s) in
  let s := set_platform w s in
  if to_int r =? 0 then
    let* o0 := output outputs 0 in
    Ret (0, <[0%nat := Some (set_item_uint16 o0 (to_uint16 type))]> outputs, s)
  else Ret (ret, outputs, s)).

(** The cases of [switch( function )], in the order of the source. *)
Definition perform_switch (function : Z) (inputs : list item)
    (outputs : outputs_t) (s : state) : outcome case_result :=
  if function =? MBEDTLS_SERIALIZE_FUNCTION_EXIT
  then perform_EXIT inputs outputs s
  else if function =? MBEDTLS_SERIALIZE_FUNCTION_ECHO
  then perform_ECHO inputs outputs s
  else if function =? MBEDTLS_SERIALIZE_FUNCTION_USLEEP
  then perform_USLEEP inputs outputs s
  else if function =? MBEDTLS_SERIALIZE_FUNCTION_SOCKET
  then perform_SOCKET inputs outputs s
  else if function =? MBEDTLS_SERIALIZE_FUNCTION_ACCEPT
  then perform_ACCEPT inputs outputs s
  else if function =? MBEDTLS_SERIALIZE_FUNCTION_SET_BLOCK
  then perform_SET_BLOCK inputs outputs s
  else if function =? MBEDTLS_SERIALIZE_FUNCTION_RECV
  then perform_RECV inputs outputs s
  else if function =? MBEDTLS_SERIALIZE_FUNCTION_SEND
  then perform_SEND inputs outputs s
  else if function =? MBEDTLS_SERIALIZE_FUNCTION_SHUTDOWN
  then perform_SHUTDOWN inputs outputs s
  else if function =? MBEDTLS_SERIALIZE_FUNCTION_FOPEN
  then perform_FOPEN inputs outputs s
  else if function =? MBEDTLS_SERIALIZE_FUNCTION_FREAD
  then perform_FREAD inputs outputs s
  else if function =? MBEDTLS_SERIALIZE_FUNCTION_FGETS
  then perform_FGETS inputs outputs s
  else if function =? MBEDTLS_SERIALIZE_FUNCTION_FWRITE
  then perform_FWRITE inputs outputs s
  else if function =? MBEDTLS_SERIALIZE_FUNCTION_FCLOSE
  then perform_FCLOSE inputs outputs s
  else if function =? MBEDTLS_SERIALIZE_FUNCTION_FSEEK
  then perform_FSEEK inputs outputs s
  else if function =? MBEDTLS_SERIALIZE_FUNCTION_FTELL
  then perform_FTELL inputs outputs s
  else if function =? MBEDTLS_SERIALIZE_FUNCTION_FERROR
  then perform_FERROR inputs outputs s
  else if function =? MBEDTLS_SERIALIZE_FUNCTION_DOPEN
  then perform_DOPEN inputs outputs s
  else if function =? MBEDTLS_SERIALIZE_FUNCTION_DREAD
  then perform_DREAD inputs outputs s
  else if function =? MBEDTLS_SERIALIZE_FUNCTION_DCLOSE
  then perform_DCLOSE inputs outputs s
  else if function =? MBEDTLS_SERIALIZE_FUNCTION_STAT
  then perform_STAT inputs outputs s
  else Ret (MBEDTLS_ERR_SERIALIZE_BAD_INPUT, outputs, s).

(** [for( i = 0; outputs[i] != NULL; i++ )]: free and clear. *)
Fixpoint free_outputs (outputs : outputs_t) : outputs_t :=
  match outputs with
  | Some _ :: rest => None :: free_outputs rest
  | _ => outputs
  end.

(** The number of inputs the opcode announces, bits 4 to 7. *)
Definition function_arity (function : Z) : Z :=
  Z.shiftr (Z.land function 240) 4.

(** [inputs] holds the items taken from the stack, top first; the slots
    after them are [NULL]; [arity] is their number. The result is the
    returned [uint32_t], [outputs] and the state. *)
Definition mbedtls_serialize_perform (s : state) (function : Z)
    (outputs : outputs_t) : outcome (Z * outputs_t * state) :=
  let inputs := take (Z.to_nat (function_arity function)) (stack s) in
  let* (ret, outputs, s) := perform_switch function inputs outputs s in
  let ret := to_int ret in
  let outputs := if ret =? 0 then outputs else free_outputs outputs in
  Ret (to_uint32 ret, outputs, mbedtls_serialize_discard_stack s).

(** ** Replies *)

Definition result_header (length : Z) : list byte :=
  [to_uint8 MBEDTLS_SERIALIZE_TYPE_RESULT; Z.land (Z.shiftr length 16) 255;
   Z.land (Z.shiftr length 8) 255; Z.land length 255].

Definition mbedtls_serialize_send_result (s : state) (buffer : list byte)
    (length : Z) : Z * state :=
  if MBEDTLS_SERIALIZE_MAX_STRING_LENGTH <? length
  then (MBEDTLS_ERR_SERIALIZE_UNSUPPORTED_OUTPUT, s)
  else
    let '(ret, dev, out) :=
      mbedtls_serialize_write (write_fd s) (sent s) (result_header length) in
    let s := set_write_fd dev out s in
    if ret =? 0 then
      let '(ret, dev, out) :=
        mbedtls_serialize_write (write_fd s) (sent s)
          (take (Z.to_nat length) buffer) in
      (ret, set_write_fd dev out s)
    else (ret, s).

(** The loop that sends [outputs[0]], [outputs[1]], ... up to the first
    [NULL]; [ret] is the variable the loop assigns. *)
Fixpoint send_results (outputs : outputs_t) (ret : Z) (s : state)
  : Z * state :=
  match outputs with
  | Some it :: rest =>
      let '(ret, s) := mbedtls_serialize_send_result s it (item_size it) in
      if ret =? 0 then send_results rest ret s
      else (ret, set_status MBEDTLS_SERIALIZE_STATUS_DEAD s)
  | _ => (ret, s)
  end.

(** ** One message *)

Definition header_value (h1 h2 h3 : byte) : Z :=
  Z.lor (Z.lor (Z.shiftl h1 16) (Z.shiftl h2 8)) h3.

(** The loop that reads and drops the payload of a push that could not
    be allocated, four bytes at a time into [header]. [fuel] bounds the
    reads, [n] the turns of this loop. *)
Fixpoint discard_payload (fuel n : nat) (dev : list chunk)
    (header : list byte) (length : Z)
  : outcome (Z * list chunk) :=
  if 0 <? length then
    match n with
    | O => OutOfFuel
    | S n' =>
        let n_read := if 4 <? length then 4 else length in
        let* (ret, dev', header') :=
          mbedtls_serialize_read fuel dev header n_read in
        if ret =? 0
        then discard_payload fuel n' dev' header' (length - n_read)
        else Ret (ret, dev')
    end
  else Ret (0, dev).

(** [case MBEDTLS_SERIALIZE_TYPE_PUSH] *)
Definition pull_push (fuel : nat) (header : list byte) (length : Z)
    (s : state) : outcome (Z * state) :=
  let* (p, w) := alloc_item length (platform s) in
  let s := set_platform w s in
  match p with
  | None =>
      let s := set_status MBEDTLS_SERIALIZE_STATUS_OUT_OF_MEMORY s in
      let* (ret, dev) :=
        discard_payload fuel fuel (read_fd s) header length in
      let s := set_read_fd dev s in
      if ret =? 0 then Ret (MBEDTLS_ERR_SERIALIZE_ALLOC_FAILED, s)
      else Ret (ret, set_status MBEDTLS_SERIALIZE_STATUS_DEAD s)
  | Some it =>
      let* (ret, dev, it) :=
        mbedtls_serialize_read fuel (read_fd s) it length in
      let s := set_read_fd dev s in
      if ret =? 0 then Ret (0, set_stack (it :: stack s) s)
      else Ret (ret, set_status MBEDTLS_SERIALIZE_STATUS_DEAD s)
  end.

(** The status item followed by the sixteen output slots, sent in order. *)
Definition send_reply (st : Z) (outputs : outputs_t) (ret : Z) (s : state)
  : Z * state :=
  send_results (take 17 (Some (uint32_bytes st) :: outputs)) ret s.

(** [case MBEDTLS_SERIALIZE_TYPE_EXECUTE]; [ret] is 0 from the read of
    the header. *)
Definition pull_execute (function : Z) (ret : Z) (s : state)
  : outcome (Z * state) :=
  let outputs := replicate 16 None in
  if status_eqb (status s) MBEDTLS_SERIALIZE_STATUS_OUT_OF_MEMORY then
    Ret (send_reply (to_uint32 MBEDTLS_ERR_SERIALIZE_ALLOC_FAILED)
           outputs ret s)
  else
    let* (st, outputs, s) := mbedtls_serialize_perform s function outputs in
    if st =? status_value MBEDTLS_SERIALIZE_STATUS_EXITED
    then Ret (to_int st, s)
    else Ret (send_reply st outputs ret s).

(** [header] is the content of the local array when the function is
    entered, which C leaves undetermined. *)
Definition mbedtls_serialize_pull (fuel : nat) (header : list byte)
    (s : state) : outcome (Z * state) :=
  if status_eqb (status s) MBEDTLS_SERIALIZE_STATUS_DEAD
  then Ret (MBEDTLS_ERR_SERIALIZE_RECEIVE, s)
  else
    let* (ret, dev, header) :=
      mbedtls_serialize_read fuel (read_fd s) header 4 in
    let s := set_read_fd dev s in
    if ret =? 0 then
      match header with
      | [h0; h1; h2; h3] =>
          if h0 =? MBEDTLS_SERIALIZE_TYPE_PUSH
          then pull_push fuel header (header_value h1 h2 h3) s
          else if h0 =? MBEDTLS_SERIALIZE_TYPE_EXECUTE
          then pull_execute (header_value h1 h2 h3) ret s
          else Ret (MBEDTLS_ERR_SERIALIZE_BAD_INPUT,
                    set_status MBEDTLS_SERIALIZE_STATUS_DEAD s)
      | _ => Fault OutOfBounds
      end
    else Ret (ret, set_status MBEDTLS_SERIALIZE_STATUS_DEAD s).

(** [mbedtls_serialize_frontend]: [n] bounds the number of messages. *)
Fixpoint mbedtls_serialize_frontend (fuel n : nat) (header : list byte)
    (s : state) : outcome (Z * state) :=
  if status_eqb (status s) MBEDTLS_SERIALIZE_STATUS_OK
     || status_eqb (status s) MBEDTLS_SERIALIZE_STATUS_OUT_OF_MEMORY
  then
    match n with
    | O => OutOfFuel
    | S n' =>
        let* (_, s') := mbedtls_serialize_pull fuel header s in
        mbedtls_serialize_frontend fuel n' header s'
    end
  else Ret (status_value (status s), s).

End Frontend.

(** ** A configuration and a platform to run the model on

    Opcodes carry their arity in bits 4 to 7, as the dispatcher decodes
    it; the error codes are negative. The platform has no network and no
    filesystem: its state is the list of answers of the allocator, which
    grants every request once the list is used up. *)

Definition sample_h : serialize_h := {|
  MBEDTLS_SERIALIZE_TYPE_PUSH := 0x70;
  MBEDTLS_SERIALIZE_TYPE_EXECUTE := 0x65;
  MBEDTLS_SERIALIZE_TYPE_RESULT := 0x72;
  MBEDTLS_SERIALIZE_MAX_STRING_LENGTH := 0xffffff;
  MBEDTLS_SERIALIZE_FUNCTION_EXIT := 0x000010;
  MBEDTLS_SERIALIZE_FUNCTION_ECHO := 0x000111;
  MBEDTLS_SERIALIZE_FUNCTION_USLEEP := 0x000210;
  MBEDTLS_SERIALIZE_FUNCTION_SOCKET := 0x000331;
  MBEDTLS_SERIALIZE_FUNCTION_ACCEPT := 0x000423;
  MBEDTLS_SERIALIZE_FUNCTION_SET_BLOCK := 0x000520;
  MBEDTLS_SERIALIZE_FUNCTION_RECV := 0x000631;
  MBEDTLS_SERIALIZE_FUNCTION_SEND := 0x000721;
  MBEDTLS_SERIALIZE_FUNCTION_SHUTDOWN := 0x000810;
  MBEDTLS_SERIALIZE_FUNCTION_FOPEN := 0x000921;
  MBEDTLS_SERIALIZE_FUNCTION_FREAD := 0x000a21;
  MBEDTLS_SERIALIZE_FUNCTION_FGETS := 0x000b21;
  MBEDTLS_SERIALIZE_FUNCTION_FWRITE := 0x000c21;
  MBEDTLS_SERIALIZE_FUNCTION_FCLOSE := 0x000d10;
  MBEDTLS_SERIALIZE_FUNCTION_FSEEK := 0x000e30;
  MBEDTLS_SERIALIZE_FUNCTION_FTELL := 0x000f11;
  MBEDTLS_SERIALIZE_FUNCTION_FERROR := 0x001010;
  MBEDTLS_SERIALIZE_FUNCTION_DOPEN := 0x001111;
  MBEDTLS_SERIALIZE_FUNCTION_DREAD := 0x001221;
  MBEDTLS_SERIALIZE_FUNCTION_DCLOSE := 0x001310;
  MBEDTLS_SERIALIZE_FUNCTION_STAT := 0x001411;
  MBEDTLS_ERR_SERIALIZE_BAD_INPUT := -0x45;
  MBEDTLS_ERR_SERIALIZE_BAD_OUTPUT := -0x47;
  MBEDTLS_ERR_SERIALIZE_ALLOC_FAILED := -0x49;
  MBEDTLS_ERR_SERIALIZE_UNSUPPORTED_OUTPUT := -0x43;
  MBEDTLS_ERR_SERIALIZE_SEND := -0x4b;
  MBEDTLS_ERR_SERIALIZE_RECEIVE := -0x4d;
  MBEDTLS_SERIALIZE_SOCKET_DIRECTION_MASK := 0x100;
  MBEDTLS_SERIALIZE_SOCKET_BIND := 0x100;
  MBEDTLS_SERIALIZE_BLOCK_BLOCK := 0;
  MBEDTLS_SERIALIZE_BLOCK_NONBLOCK := 1;
  MBEDTLS_SERIALIZE_TIMEOUT_INFINITE := 0xffffffff;
  MBEDTLS_SERIALIZE_FSEEK_SET := 0;
  MBEDTLS_SERIALIZE_FSEEK_CUR := 1;
  MBEDTLS_SERIALIZE_FSEEK_END := 2
|}.

Definition scripted_calloc (n : Z) (w : list bool) : bool * list bool :=
  match w with
  | [] => (true, [])
  | ok :: w' => (ok, w')
  end.

Definition bare_host : Host := {|
  world := list bool;
  mbedtls_calloc := scripted_calloc;
  mbedtls_net_usleep := fun _ w => w;
  mbedtls_net_bind := fun _ _ _ w => (-1, 0, w);
  mbedtls_net_connect := fun _ _ _ w => (-1, 0, w);
  mbedtls_net_accept := fun _ _ w => (-1, 0, 0, [], w);
  mbedtls_net_set_block := fun _ w => (-1, w);
  mbedtls_net_set_nonblock := fun _ w => (-1, w);
  mbedtls_net_recv := fun _ _ w => (-1, [], w);
  mbedtls_net_recv_timeout := fun _ _ _ w => (-1, [], w);
  mbedtls_net_send := fun _ _ w => (-1, w);
  mbedtls_net_free := fun _ w => w;
  mbedtls_fopen := fun _ _ w => (0, w);
  mbedtls_fread := fun _ _ w => (-1, [], w);
  mbedtls_fgets := fun _ _ w => (None, w);
  mbedtls_fwrite := fun _ _ w => (-1, w);
  mbedtls_fclose := fun _ w => (-1, w);
  mbedtls_fseek := fun _ _ _ w => (-1, w);
  mbedtls_ftell := fun _ w => (-1, w);
  mbedtls_ferror := fun _ w => (-1, w);
  mbedtls_opendir := fun _ w => (0, w);
  mbedtls_readdir := fun _ _ w => (-1, [], w);
  mbedtls_closedir := fun _ w => (-1, w);
  mbedtls_stat := fun _ w => (-1, 0, w)
|}.

(** The same platform with a network in which every socket delivers, to
    a receive without timeout, as many zero bytes as are asked for. *)
Definition flood_host : Host := {|
  world := list bool;
  mbedtls_calloc := scripted_calloc;
  mbedtls_net_usleep := fun _ w => w;
  mbedtls_net_bind := fun _ _ _ w => (-1, 0, w);
  mbedtls_net_connect := fun _ _ _ w => (-1, 0, w);
  mbedtls_net_accept := fun _ _ w => (-1, 0, 0, [], w);
  mbedtls_net_set_block := fun _ w => (-1, w);
  mbedtls_net_set_nonblock := fun _ w => (-1, w);
  mbedtls_net_recv := fun _ len w => (len, replicate (Z.to_nat len) 0, w);
  mbedtls_net_recv_timeout := fun _ _ _ w => (-1, [], w);
  mbedtls_net_send := fun _ _ w => (-1, w);
  mbedtls_net_free := fun _ w => w;
  mbedtls_fopen := fun _ _ w => (0, w);
  mbedtls_fread := fun _ _ w => (-1, [], w);
  mbedtls_fgets := fun _ _ w => (None, w);
  mbedtls_fwrite := fun _ _ w => (-1, w);
  mbedtls_fclose := fun _ w => (-1, w);
  mbedtls_fseek := fun _ _ _ w => (-1, w);
  mbedtls_ftell := fun _ w => (-1, w);
  mbedtls_ferror := fun _ w => (-1, w);
  mbedtls_opendir := fun _ w => (0, w);
  mbedtls_readdir := fun _ _ w => (-1, [], w);
  mbedtls_closedir := fun _ w => (-1, w);
  mbedtls_stat := fun _ w => (-1, 0, w)
|}.

(** The table of handles at start-up: a zeroed static array. *)
Definition no_files : list mbedtls_serialize_file_context_t :=
  replicate 100 {| file := 0; inUse := 0 |}.

(** A context on the bare platform, with nothing written yet. *)
Definition sample_state (stk : list item) (st : mbedtls_serialize_status_t)
    (input : list chunk) (output : list wevent) (heap : list bool)
  : @state bare_host :=
  @Build_state bare_host stk st 0 no_files input output [] heap.

Definition hello : list byte := [0x48; 0x65; 0x6c; 0x6c; 0x6f].

(** A context on the platform with the delivering network: on the stack
    the arguments of a receive of [0x1000000] bytes from socket 3 without
    timeout, on the wire the execute message for it. *)
Definition flood_state : @state flood_host :=
  @Build_state flood_host
    [[0; 3]; [1; 0; 0; 0]; [255; 255; 255; 255]]
    MBEDTLS_SERIALIZE_STATUS_OK 0 no_files
    [Bytes [123; 123; 0x65; 0x00; 0x06; 0x31]] [] [] [].

(** The output of that receive. *)
Definition flood_output : item :=
  set_size 0x1000000
    (overwrite 0 (replicate (Z.to_nat 0x1000000) 0)
       (replicate (Z.to_nat 0x1000000) 0)).

(** An execute message on the wire: the marker and the header. *)
Definition execute_message (b1 b2 b3 : byte) : list chunk :=
  [Bytes [123; 123; 0x65; b1; b2; b3]].

(** Out of memory, with two items on the stack, before an [ECHO]. *)
Definition starved_state : @state bare_host :=
  sample_state [[1]; [2]] MBEDTLS_SERIALIZE_STATUS_OUT_OF_MEMORY
    (execute_message 0 1 0x11) [] [].

(** The exit code 42 on the stack, before an [EXIT]. *)
Definition leaving_state : @state bare_host :=
  sample_state [[0; 0; 0; 0x2a]] MBEDTLS_SERIALIZE_STATUS_OK
    (execute_message 0 0 0x10) [] [].

(** Five bytes on the stack, before an [ECHO]. *)
Definition echo_state : @state bare_host :=
  sample_state [hello] MBEDTLS_SERIALIZE_STATUS_OK
    (execute_message 0 1 0x11) [] [].


(** ** The handshake *)

(** The start sequence written by [send_args]. *)
Definition start_sequence : list byte := [109; 98; 101; 100; 123; 123].

Section Handshake.
Context `{serialize_h} `{Host}.

(** [send_args]: the results of the writes are not looked at.
    [args_size] is the number of bytes of [args], as [read_args] counts
    them, and is not negative. *)
Definition send_args (s : state) (args_size : Z) (args : list byte)
  : state :=
  let '(_, dev, out) :=
    mbedtls_serialize_write (write_fd s) (sent s) start_sequence in
  let s := set_write_fd dev out s in
  if args_size =? 0 then
    let '(_, dev, out) :=
      mbedtls_serialize_write (write_fd s) (sent s) [0; 0; 0; 0] in
    set_write_fd dev out s
  else
    let '(_, dev, out) :=
      mbedtls_serialize_write (write_fd s) (sent s)
        (uint32_bytes args_size) in
    let s := set_write_fd dev out s in
    let '(_, dev, out) :=
      mbedtls_serialize_write (write_fd s) (sent s)
        (take (Z.to_nat args_size) args) in
    set_write_fd dev out s.

End Handshake.

(** ** The arguments of the target

    The end of [read_args]: the arguments after the options,
    [argv[optind]] to [argv[argc - 1]], each a C string given here
    without its NUL, are counted and then copied, with their NUL, into
    one buffer. *)

(** [*sub_args_len += strlen( argv[i] ) + 1] for each argument. *)
Fixpoint count_args (args : list (list byte)) (sub_args_len : Z) : Z :=
  match args with
  | [] => sub_args_len
  | a :: rest =>
      count_args rest (to_int (sub_args_len + (Z.of_nat (length a) + 1)))
  end.

(** The copying loop: [memcpy( *sub_args + write_index, argv[i], len + 1 )]
    for each argument. [sub_args] is what [malloc] returned, [None] for
    [NULL]. *)
Fixpoint copy_args (args : list (list byte)) (write_index : Z)
    (sub_args : option (list byte)) : outcome (option (list byte)) :=
  match args with
  | [] => Ret sub_args
  | a :: rest =>
      let len := to_int (Z.of_nat (length a)) in
      let n := to_size_t (len + 1) in
      match sub_args with
      | None => Fault NullDeref
      | Some buffer =>
          if (0 <=? write_index) && (n <=? Z.of_nat (length a) + 1)
             && (write_index + n <=? Z.of_nat (length buffer))
          then copy_args rest (to_int (write_index + (len + 1)))
                 (Some (overwrite (Z.to_nat write_index)
                          (take (Z.to_nat n) (a ++ [0])) buffer))
          else Fault OutOfBounds
      end
  end.

(** The two loops; [allocated] is the result of
    [malloc( *sub_args_len )]. *)
Definition pack_args (args : list (list byte))
    (allocated : option (list byte)) : outcome (Z * option (list byte)) :=
  let sub_args_len := count_args args 0 in
  let* sub_args := copy_args args 0 allocated in
  Ret (sub_args_len, sub_args).

(** A write side on which no [write] fails. *)
Fixpoint accepting (dev : list wevent) : bool :=
  match dev with
  | [] => true
  | Accept _ :: dev' => accepting dev'
  | WError :: _ => false
  end.

(** The slots of the handle table below [n] are all in use. *)
Definition all_in_use (fs : list mbedtls_serialize_file_context_t)
    (n : nat) : Prop :=
  forall i e, (i < n)%nat -> fs !! i = Some e -> inUse e <> 0.

(** The opcodes whose case starts with [CHECK_ARITY], with the number
    it asks for. *)
Definition checked_arity `{serialize_h} : list (Z * Z) :=
  [(MBEDTLS_SERIALIZE_FUNCTION_EXIT, 1);
   (MBEDTLS_SERIALIZE_FUNCTION_ECHO, 1);
   (MBEDTLS_SERIALIZE_FUNCTION_USLEEP, 1);
   (MBEDTLS_SERIALIZE_FUNCTION_SOCKET, 3);
   (MBEDTLS_SERIALIZE_FUNCTION_ACCEPT, 2);
   (MBEDTLS_SERIALIZE_FUNCTION_SET_BLOCK, 2);
   (MBEDTLS_SERIALIZE_FUNCTION_RECV, 3);
   (MBEDTLS_SERIALIZE_FUNCTION_SEND, 2);
   (MBEDTLS_SERIALIZE_FUNCTION_SHUTDOWN, 1)].

(** The table of handles with the resource 7 open in its first slot. *)
Definition open_table : list mbedtls_serialize_file_context_t :=
  <[0%nat := {| file := 7; inUse := 1 |}]> no_files.

(** The identifier 1 on the stack of a context with that table, before
    an [FCLOSE]. *)
Definition closing_state : @state bare_host :=
  @Build_state bare_host [[0; 0; 0; 1]] MBEDTLS_SERIALIZE_STATUS_OK 0
    open_table [] [] [] [].

(** A push of [payload], marker and header, marker and payload. *)
Definition push_message (h1 h2 h3 : byte) (payload : list byte)
  : list chunk :=
  [Bytes ([123; 123; 0x70; h1; h2; h3; 123; 123] ++ payload)].

(** The sixteen output slots and what they hold. *)
Fixpoint produced (outputs : outputs_t) : list item :=
  match outputs with
  | Some it :: rest => it :: produced rest
  | _ => []
  end.

(** A [RESULT] frame on the wire. *)
Definition result_frame `{serialize_h} (it : item) : list byte :=
  result_header (item_size it) ++ it.

(** Every [read] on the device returns a positive count or an error until
    [remaining] bytes have been delivered. *)
Fixpoint feeds (dev : list chunk) (remaining : Z) : bool :=
  match dev with
  | [] => false
  | RError :: _ => true
  | Bytes bs :: dev' =>
      match bs with
      | [] => false
      | _ :: _ =>
          (remaining <=? Z.of_nat (length bs))
          || feeds dev' (remaining - Z.of_nat (length bs))
      end
  end.

(** The bytes a device delivers, when it delivers no error. *)
Fixpoint stream (dev : list chunk) : list byte :=
  match dev with
  | [] => []
  | RError :: _ => []
  | Bytes bs :: dev' => bs ++ stream dev'
  end.

(** No error and no empty run: every [read] of a positive count returns
    at least one byte as long as [stream] is not used up. *)
Fixpoint steady (dev : list chunk) : bool :=
  match dev with
  | [] => true
  | RError :: _ => false
  | Bytes bs :: dev' =>
      match bs with [] => false | _ :: _ => steady dev' end
  end.

(** No marker in [noise] and none begun at its end: every ['{'] is
    followed, in [noise], by a byte that is not ['{']. *)
Fixpoint no_marker (noise : list byte) : bool :=
  match noise with
  | [] => true
  | b :: rest =>
      if b =? open_brace then
        match rest with
        | [] => false
        | c :: rest' => negb (c =? open_brace) && no_marker rest'
        end
      else no_marker rest
  end.

(** Before the device is used up, a [read] fails or [remaining] bytes
    have been delivered; a [read] that returns 0 before that counts for
    nothing. *)
Fixpoint delivers (dev : list chunk) (remaining : Z) : bool :=
  match dev with
  | [] => false
  | RError :: _ => true
  | Bytes bs :: dev' =>
      (remaining <=? Z.of_nat (length bs))
      || delivers dev' (remaining - Z.of_nat (length bs))
  end.



(** The labels of [switch( function )]; C requires them distinct. *)
Definition case_labels `{serialize_h} : list Z :=
  [MBEDTLS_SERIALIZE_FUNCTION_EXIT; MBEDTLS_SERIALIZE_FUNCTION_ECHO;
   MBEDTLS_SERIALIZE_FUNCTION_USLEEP; MBEDTLS_SERIALIZE_FUNCTION_SOCKET;
   MBEDTLS_SERIALIZE_FUNCTION_ACCEPT; MBEDTLS_SERIALIZE_FUNCTION_SET_BLOCK;
   MBEDTLS_SERIALIZE_FUNCTION_RECV; MBEDTLS_SERIALIZE_FUNCTION_SEND;
   MBEDTLS_SERIALIZE_FUNCTION_SHUTDOWN; MBEDTLS_SERIALIZE_FUNCTION_FOPEN;
   MBEDTLS_SERIALIZE_FUNCTION_FREAD; MBEDTLS_SERIALIZE_FUNCTION_FGETS;
   MBEDTLS_SERIALIZE_FUNCTION_FWRITE; MBEDTLS_SERIALIZE_FUNCTION_FCLOSE;
   MBEDTLS_SERIALIZE_FUNCTION_FSEEK; MBEDTLS_SERIALIZE_FUNCTION_FTELL;
   MBEDTLS_SERIALIZE_FUNCTION_FERROR; MBEDTLS_SERIALIZE_FUNCTION_DOPEN;
   MBEDTLS_SERIALIZE_FUNCTION_DREAD; MBEDTLS_SERIALIZE_FUNCTION_DCLOSE;
   MBEDTLS_SERIALIZE_FUNCTION_STAT].

(** An item that a [RESULT] frame can carry. *)
Definition fits `{serialize_h} (it : item) : Prop :=
  item_size it <= MBEDTLS_SERIALIZE_MAX_STRING_LENGTH.

(** The two sides of the channel. *)
Definition channel `{Host} (s : state)
  : list chunk * list wevent * list byte :=
  (read_fd s, write_fd s, sent s).

(** * Properties *)

Section Properties.
Context `{serialize_h} `{Host}.

(** ** The handle table *)

Lemma file_slot_negative fs i : i < 0 -> file_slot fs i = Fault OutOfBounds.
Proof.
  intros Hi. unfold file_slot.
  destruct (Z.leb_spec 0 i); [lia | reflexivity].
Qed.

Lemma file_slot_inside fs i e :
  0 <= i < MBEDTLS_SERIALIZE_MAX_FILES ->
  fs !! Z.to_nat i = Some e -> file_slot fs i = Ret e.
Proof.
  intros [Hlo Hhi] Hlook. unfold file_slot.
  destruct (Z.leb_spec 0 i); [|lia].
  destruct (Z.ltb_spec i MBEDTLS_SERIALIZE_MAX_FILES); [|lia].
  simpl. now rewrite Hlook.
Qed.

(** C5. [get_file_from_id] decrements the identifier and checks it only
    against the size of the table: for the identifier 0, reserved for no
    handle, it reads [files[-1]], an entry outside the array. *)
Theorem get_file_from_id_zero_leaves_table fs :
  get_file_from_id fs 0 = Fault OutOfBounds.
Proof.
  unfold get_file_from_id.
  change (to_int (0 - 1)) with (-1).
  change (-1 <? MBEDTLS_SERIALIZE_MAX_FILES) with true. cbv iota.
  now rewrite file_slot_negative by lia.
Qed.

(** Inside the table the lookup is as described: the stored pointer for a
    slot in use, [NULL] otherwise, and [NULL] above the table. *)
Lemma get_file_from_id_inside fs id e :
  1 <= id <= 100 -> fs !! Z.to_nat (id - 1) = Some e ->
  get_file_from_id fs id = Ret (if inUse e =? 0 then 0 else file e).
Proof.
  intros Hid Hlook. unfold get_file_from_id.
  assert (Hint : to_int (id - 1) = id - 1).
  { unfold to_int, to_uint32. rewrite Z.mod_small by lia.
    destruct (Z.ltb_spec (id - 1) (2 ^ 31)); lia. }
  rewrite Hint.
  destruct (Z.ltb_spec (id - 1) MBEDTLS_SERIALIZE_MAX_FILES) as [_|Hge];
    [|unfold MBEDTLS_SERIALIZE_MAX_FILES in Hge; lia].
  rewrite (file_slot_inside fs (id - 1) e); simpl;
    [ now destruct (inUse e =? 0)
    | unfold MBEDTLS_SERIALIZE_MAX_FILES; lia | exact Hlook ].
Qed.

Lemma get_file_from_id_above fs id :
  100 < id < 2 ^ 31 -> get_file_from_id fs id = Ret 0.
Proof.
  intros Hid. unfold get_file_from_id.
  assert (Hint : to_int (id - 1) = id - 1).
  { unfold to_int, to_uint32. rewrite Z.mod_small by lia.
    destruct (Z.ltb_spec (id - 1) (2 ^ 31)); lia. }
  rewrite Hint.
  destruct (Z.ltb_spec (id - 1) MBEDTLS_SERIALIZE_MAX_FILES) as [Hlt|_];
    [unfold MBEDTLS_SERIALIZE_MAX_FILES in Hlt; lia | reflexivity].
Qed.

(** ** The reader at end of stream *)

Lemma read_loop_eof fuel buffer off remaining :
  0 < remaining -> read_loop fuel [] buffer off remaining = OutOfFuel.
Proof.
  revert buffer off remaining.
  induction fuel as [|fuel IH]; intros buffer off remaining Hpos;
    [reflexivity|].
  cbn [read_loop read]. change (0 <? 0) with false. cbv iota.
  destruct (Z.ltb_spec 0 (remaining - 0)); [|lia].
  apply IH. lia.
Qed.

Lemma sync_loop_eof fuel buffer token_count :
  sync_loop fuel [] buffer token_count = OutOfFuel
  \/ sync_loop fuel [] buffer token_count = Fault OutOfBounds
  \/ sync_loop fuel [] buffer token_count = Ret (true, [], buffer).
Proof.
  revert buffer token_count.
  induction fuel as [|fuel IH]; intros buffer token_count.
  - cbn [sync_loop]. destruct (token_count <? 2); auto.
  - cbn [sync_loop]. destruct (token_count <? 2); [|auto].
    destruct buffer as [|b0 tl]; [auto|].
    cbn [read]. change (0 <? 0) with false. cbv iota.
    destruct (b0 =? open_brace); apply IH.
Qed.

Lemma mbedtls_serialize_read_eof fuel buffer length :
  0 < length ->
  mbedtls_serialize_read fuel [] buffer length = OutOfFuel
  \/ mbedtls_serialize_read fuel [] buffer length = Fault OutOfBounds.
Proof.
  intros Hpos. unfold mbedtls_serialize_read.
  destruct (sync_loop_eof fuel buffer 0) as [E|[E|E]]; rewrite E; cbn [bind];
    auto.
  left. now apply read_loop_eof.
Qed.

Lemma sync_loop_nonempty fuel dev buffer token_count :
  buffer <> [] -> sync_loop fuel dev buffer token_count <> Fault OutOfBounds.
Proof.
  revert dev buffer token_count.
  induction fuel as [|fuel IH]; intros dev buffer token_count Hne;
    cbn [sync_loop]; destruct (token_count <? 2); try discriminate.
  destruct buffer as [|b0 tl]; [congruence|].
  destruct (read dev 1) as [[n got] dev'].
  destruct (n <? 0); [discriminate|].
  destruct (_ =? open_brace); apply IH; discriminate.
Qed.

Lemma mbedtls_serialize_read_eof_hangs fuel buffer length :
  0 < length -> buffer <> [] ->
  mbedtls_serialize_read fuel [] buffer length = OutOfFuel.
Proof.
  intros Hpos Hne. unfold mbedtls_serialize_read.
  pose proof (sync_loop_nonempty fuel [] buffer 0 Hne) as Hnf.
  destruct (sync_loop_eof fuel buffer 0) as [E|[E|E]];
    [ now rewrite E | congruence | rewrite E; cbn [bind] ].
  now apply read_loop_eof.
Qed.

Lemma pull_eof_hangs fuel header (s : state) :
  status s <> MBEDTLS_SERIALIZE_STATUS_DEAD -> read_fd s = [] ->
  header <> [] ->
  mbedtls_serialize_pull fuel header s = OutOfFuel.
Proof.
  intros Hst Hdev Hne. unfold mbedtls_serialize_pull.
  destruct (status s); try congruence; cbn [status_eqb status_value];
    rewrite Hdev, mbedtls_serialize_read_eof_hangs by (lia || assumption);
    reflexivity.
Qed.

(** ** The reader on a steady device *)

Lemma read_one dev b l :
  steady dev = true -> stream dev = b :: l ->
  exists dev', read dev 1 = (1, [b], dev')
               /\ steady dev' = true /\ stream dev' = l.
Proof.
  destruct dev as [|[bs|] dev]; cbn [steady stream]; try discriminate.
  destruct bs as [|b' bs]; [discriminate|].
  intros Hst Hs. cbn in Hs. injection Hs as -> <-.
  cbn [read]. change (Z.to_nat 1) with 1%nat. cbn [take drop length].
  rewrite take_0, drop_0.
  destruct bs as [|b'' bs]; eexists; repeat split; eassumption || reflexivity.
Qed.

Lemma sync_loop_marker fuel dev tl b0 l :
  (2 <= fuel)%nat -> steady dev = true ->
  stream dev = open_brace :: open_brace :: l ->
  exists dev', sync_loop fuel dev (b0 :: tl) 0 = Ret (true, dev', open_brace :: tl)
               /\ steady dev' = true /\ stream dev' = l.
Proof.
  intros Hfuel Hst Hs.
  destruct fuel as [|[|fuel]]; [lia|lia|].
  destruct (read_one _ _ _ Hst Hs) as (dev1 & R1 & Hst1 & Hs1).
  destruct (read_one _ _ _ Hst1 Hs1) as (dev2 & R2 & Hst2 & Hs2).
  exists dev2. split; [|now split].
  cbn [sync_loop]. change (0 <? 2) with true. cbv iota.
  rewrite R1. change (1 <? 0) with false. cbv iota.
  rewrite Z.eqb_refl. change (0 + 1 <? 2) with true. cbv iota.
  rewrite R2. change (1 <? 0) with false. cbv iota.
  rewrite Z.eqb_refl.
  destruct fuel; cbn [sync_loop]; change (0 + 1 + 1 <? 2) with false;
    reflexivity.
Qed.

Lemma sync_loop_skips noise : forall fuel dev tl b0 token_count l,
  Forall (fun b => b <> open_brace) noise ->
  (length noise + 2 <= fuel)%nat -> steady dev = true ->
  stream dev = noise ++ open_brace :: open_brace :: l ->
  token_count < 2 -> (noise = [] -> token_count = 0) ->
  exists dev', sync_loop fuel dev (b0 :: tl) token_count
               = Ret (true, dev', open_brace :: tl)
               /\ steady dev' = true /\ stream dev' = l.
Proof.
  induction noise as [|x noise IH];
    intros fuel dev tl b0 token_count l Hnoise Hfuel Hst Hs Htc Hzero.
  - rewrite (Hzero eq_refl). now apply sync_loop_marker.
  - cbn [length] in Hfuel. destruct fuel as [|fuel]; [lia|].
    pose proof (Forall_inv Hnoise) as Hx.
    pose proof (Forall_inv_tail Hnoise) as Hrest.
    cbn [app] in Hs.
    destruct (read_one _ _ _ Hst Hs) as (dev1 & R1 & Hst1 & Hs1).
    cbn [sync_loop].
    destruct (Z.ltb_spec token_count 2); [|lia].
    rewrite R1. change (1 <? 0) with false. cbv iota.
    destruct (Z.eqb_spec x open_brace); [contradiction|].
    apply IH; auto; lia.
Qed.

Lemma overwrite_nil off buffer : overwrite off [] buffer = buffer.
Proof.
  unfold overwrite. cbn [app length]. rewrite Nat.add_0_r. apply take_drop.
Qed.

Lemma overwrite_app off a b buffer :
  (off <= length buffer)%nat ->
  overwrite (off + length a) b (overwrite off a buffer)
  = overwrite off (a ++ b) buffer.
Proof.
  intros Hoff. unfold overwrite.
  assert (Hta : length (take off buffer) = off)
    by (rewrite length_take; lia).
  rewrite (app_assoc (take off buffer) a).
  rewrite take_app_length' by (rewrite length_app; lia).
  replace (off + length a + length b)%nat
    with (length (take off buffer ++ a) + length b)%nat
    by (rewrite length_app; lia).
  rewrite drop_app_add, drop_drop, length_app, <- !app_assoc.
  now rewrite Nat.add_assoc.
Qed.

Lemma length_overwrite off data buffer :
  (off + length data <= length buffer)%nat ->
  length (overwrite off data buffer) = length buffer.
Proof.
  intros Hfit. unfold overwrite.
  rewrite !length_app, length_take, length_drop. lia.
Qed.

Lemma read_loop_steady dev : forall fuel data rest buffer off,
  (length dev + 1 <= fuel)%nat -> steady dev = true ->
  stream dev = data ++ rest ->
  (off + length data <= length buffer)%nat ->
  exists dev',
    read_loop fuel dev buffer off (Z.of_nat (length data))
    = Ret (0, dev', overwrite off data buffer)
    /\ steady dev' = true /\ stream dev' = rest.
Proof.
  induction dev as [|c dev IH]; intros fuel data rest buffer off Hfuel Hst Hs Hfit.
  - destruct data; [|discriminate]. cbn [stream app] in Hs. subst rest.
    destruct fuel as [|fuel]; [cbn in Hfuel; lia|].
    exists []. cbn [read_loop read length]. rewrite overwrite_nil.
    repeat split.
  - destruct c as [bs|]; [|discriminate].
    destruct bs as [|b bs]; [discriminate|].
    cbn [steady] in Hst. cbn [stream] in Hs.
    cbn [length] in Hfuel. destruct fuel as [|fuel]; [lia|].
    set (whole := b :: bs) in *.
    cbn [read_loop read]. rewrite Nat2Z.id.
    assert (Hlt : length (take (length data) whole)
                  = Nat.min (length data) (length whole)) by apply length_take.
    destruct (Z.ltb_spec (Z.of_nat (length (take (length data) whole))) 0);
      [lia|].
    destruct (Nat.le_gt_cases (length data) (length whole)) as [Hle|Hgt].
    + (* this run of bytes holds all that is asked for *)
      assert (Htake : take (length data) whole = data).
      { rewrite <- (take_app_le whole (stream dev)) by lia.
        rewrite Hs. now rewrite take_app_length. }
      rewrite Htake.
      destruct (Z.ltb_spec 0 (Z.of_nat (length data) - Z.of_nat (length data)));
        [lia|].
      assert (Hdrop : drop (length data) whole ++ stream dev = rest).
      { rewrite <- drop_app_le by lia. rewrite Hs.
        now rewrite drop_app_length. }
      destruct (drop (length data) whole) as [|d ds] eqn:Hleft;
        eexists; (split; [reflexivity|]); cbn [steady stream];
        (split; [assumption|]); exact Hdrop.
    + (* the run is taken whole and the loop goes on *)
      rewrite take_ge, drop_ge by lia.
      assert (Hsplit : data = whole ++ drop (length whole) data).
      { rewrite <- (take_drop (length whole) data) at 1. f_equal.
        rewrite <- (take_app_le data rest) by lia.
        rewrite <- Hs. now rewrite take_app_length. }
      set (data' := drop (length whole) data) in *.
      assert (Hs' : stream dev = data' ++ rest).
      { rewrite Hsplit, <- app_assoc in Hs. now apply app_inv_head in Hs. }
      assert (Hlen : length data = (length whole + length data')%nat)
        by (rewrite Hsplit at 1; apply length_app).
      destruct (Z.ltb_spec 0 (Z.of_nat (length data) - Z.of_nat (length whole)));
        [|lia].
      replace (Z.of_nat (length data) - Z.of_nat (length whole))
        with (Z.of_nat (length data')) by lia.
      destruct (IH fuel data' rest (overwrite off whole buffer)
                  (off + length whole)%nat) as (dev' & R & Hst' & Hrest);
        [lia | assumption | assumption
        | rewrite length_overwrite; lia |].
      exists dev'. rewrite R, overwrite_app by lia.
      rewrite <- Hsplit. now repeat split.
Qed.

Lemma steady_length dev :
  steady dev = true -> (length dev <= length (stream dev))%nat.
Proof.
  induction dev as [|[[|b bs]|] dev IH]; cbn [steady stream length];
    try discriminate; [lia|].
  intros Hst. specialize (IH Hst). rewrite length_app. cbn [length]. lia.
Qed.

(** ** The dispatcher *)

Lemma discard_items_nil l : discard_items l = [].
Proof. induction l; [reflexivity | assumption]. Qed.

Lemma earlier_labels (l : list Z) n x :
  NoDup l -> l !! n = Some x -> Forall (fun y => y <> x) (take n l).
Proof.
  intros Hnd Hl. apply Forall_forall. intros y Hy ->.
  rewrite <- (take_drop_middle l n x Hl) in Hnd.
  apply NoDup_app in Hnd as (_ & Hnd & _).
  apply (Hnd x); [assumption | left].
Qed.

(** C3. The cases of the file and directory opcodes have no arity check:
    with an empty stack, [FCLOSE] reads [inputs[0]], which is [NULL],
    instead of returning [BAD_INPUT]. *)
Theorem perform_FCLOSE_empty_stack_dereferences_null (s : state) outputs :
  NoDup case_labels -> stack s = [] ->
  mbedtls_serialize_perform s MBEDTLS_SERIALIZE_FUNCTION_FCLOSE outputs
  = Fault NullDeref.
Proof.
  intros Hnd Hstack.
  pose proof (earlier_labels case_labels 13
                MBEDTLS_SERIALIZE_FUNCTION_FCLOSE Hnd eq_refl) as Hne.
  cbn [case_labels take] in Hne.
  repeat match type of Hne with
         | Forall _ (_ :: _) =>
             let Hx := fresh "Hx" in
             apply Forall_cons in Hne as [Hx Hne];
             apply not_eq_sym, Z.eqb_neq in Hx
         end.
  unfold mbedtls_serialize_perform, perform_switch.
  rewrite Hx, Hx0, Hx1, Hx2, Hx3, Hx4, Hx5, Hx6, Hx7, Hx8, Hx9, Hx10, Hx11.
  rewrite Z.eqb_refl, Hstack, take_nil. reflexivity.
Qed.

Lemma to_size_t_small z : 0 <= z < 2 ^ 64 -> to_size_t z = z.
Proof. intros Hz. unfold to_size_t. now apply Z.mod_small. Qed.

Lemma overwrite_all (data : list byte) :
  overwrite 0 data (replicate (length data) 0) = data.
Proof.
  unfold overwrite. rewrite take_0, drop_ge, app_nil_r; [reflexivity|].
  rewrite length_replicate. cbn. lia.
Qed.

(** C9. [ECHO] of a byte string within the limit, with memory for the
    copy, succeeds with one output that is the string itself. The limit
    is taken to be a length that an item can have at all. *)
Theorem perform_ECHO_copies_argument (s : state) (b : item) rest w' :
  MBEDTLS_SERIALIZE_FUNCTION_ECHO <> MBEDTLS_SERIALIZE_FUNCTION_EXIT ->
  1 <= function_arity MBEDTLS_SERIALIZE_FUNCTION_ECHO ->
  stack s = b :: rest ->
  item_size b <= MBEDTLS_SERIALIZE_MAX_STRING_LENGTH ->
  sizeof_item + MBEDTLS_SERIALIZE_MAX_STRING_LENGTH < 2 ^ 64 ->
  mbedtls_calloc (sizeof_item + item_size b) (platform s) = (true, w') ->
  mbedtls_serialize_perform s MBEDTLS_SERIALIZE_FUNCTION_ECHO
    (replicate 16 None)
  = Ret (0, Some b :: replicate 15 None,
         set_stack [] (set_platform w' s)).
Proof.
  intros Hne Harity Hstack Hsize Hmax Halloc.
  apply Z.eqb_neq in Hne.
  unfold mbedtls_serialize_perform, perform_switch.
  rewrite Hne, Z.eqb_refl, Hstack.
  destruct (Z.to_nat (function_arity MBEDTLS_SERIALIZE_FUNCTION_ECHO))
    as [|n] eqn:Hn; [lia|].
  cbn [take].
  unfold perform_ECHO, CHECK_ARITY.
  destruct (Z.ltb_spec (Z.of_nat (length (b :: take n rest))) 1) as [Hlt|_];
    [cbn [length] in Hlt; lia|].
  cbn [input lookup list_lookup bind].
  unfold ALLOC_OUTPUT, alloc_item. unfold item_size in *.
  change (2 ^ 64) with 18446744073709551616 in Hmax.
  unfold sizeof_item in Hmax.
  assert (Hb : 0 <= Z.of_nat (length b) < 18446744073709551600) by lia.
  rewrite (to_size_t_small (Z.of_nat (length b)))
    by (change (2 ^ 64) with 18446744073709551616; lia).
  rewrite to_size_t_small
    by (unfold sizeof_item; change (2 ^ 64) with 18446744073709551616; lia).
  rewrite Halloc.
  destruct (Z.leb_spec (2 ^ 64) (sizeof_item + Z.of_nat (length b))) as [Hov|_];
    [unfold sizeof_item in Hov;
     change (2 ^ 64) with 18446744073709551616 in Hov; lia|].
  cbn [bind replicate insert list_insert output lookup list_lookup].
  rewrite Nat2Z.id, overwrite_all.
  change (to_int 0 =? 0) with true. cbv iota.
  unfold mbedtls_serialize_discard_stack. cbn [stack set_platform].
  rewrite discard_items_nil. reflexivity.
Qed.

Lemma item_uint32_size (it : item) code :
  item_uint32 it = Ret code -> 4 <= item_size it.
Proof.
  destruct it as [|b0 [|b1 [|b2 [|b3 it]]]]; try discriminate.
  intros _. unfold item_size. cbn [length]. lia.
Qed.

Lemma to_int_small z : 0 <= z < 2147483648 -> to_int z = z.
Proof.
  intros Hz. unfold to_int, to_uint32.
  rewrite Z.mod_small by (change (2 ^ 32) with 4294967296; lia).
  destruct (Z.ltb_spec z (2 ^ 31)) as [_|Hge];
    [reflexivity | change (2 ^ 31) with 2147483648 in Hge; lia].
Qed.

(** [RECV] without timeout on a socket that delivers: the output is the
    buffer of [len] bytes, filled by the platform and cut to the count it
    returned. *)
Lemma perform_RECV_delivers (s : state) fd_item len_item timeout_item rest
    fd len data ret w1 w2 :
  NoDup case_labels ->
  3 <= function_arity MBEDTLS_SERIALIZE_FUNCTION_RECV ->
  stack s = fd_item :: len_item :: timeout_item :: rest ->
  item_uint16 fd_item = Ret fd ->
  item_uint32 len_item = Ret len ->
  item_uint32 timeout_item = Ret MBEDTLS_SERIALIZE_TIMEOUT_INFINITE ->
  0 <= len < 4294967296 ->
  mbedtls_calloc (sizeof_item + len) (platform s) = (true, w1) ->
  mbedtls_net_recv fd len w1 = (ret, data, w2) ->
  0 <= ret < 2147483648 ->
  mbedtls_serialize_perform s MBEDTLS_SERIALIZE_FUNCTION_RECV
    (replicate 16 None)
  = Ret (0,
         Some (set_size ret
                 (overwrite 0 data (replicate (Z.to_nat len) 0)))
           :: replicate 15 None,
         set_stack [] (set_platform w2 s)).
Proof.
  intros Hnd Harity Hstack Hfd Hlen Hto Hrange Halloc Hrecv Hret.
  pose proof (earlier_labels case_labels 6
                MBEDTLS_SERIALIZE_FUNCTION_RECV Hnd eq_refl) as Hne.
  cbn [case_labels take] in Hne.
  repeat match type of Hne with
         | Forall _ (_ :: _) =>
             let Hx := fresh "Hx" in
             apply Forall_cons in Hne as [Hx Hne];
             apply not_eq_sym, Z.eqb_neq in Hx
         end.
  unfold mbedtls_serialize_perform, perform_switch.
  rewrite Hx, Hx0, Hx1, Hx2, Hx3, Hx4, Z.eqb_refl, Hstack.
  destruct (Z.to_nat (function_arity MBEDTLS_SERIALIZE_FUNCTION_RECV))
    as [|[|[|n]]] eqn:Hn; [lia|lia|lia|].
  cbn [take].
  pose proof (item_uint32_size _ _ Hlen) as Hs1.
  pose proof (item_uint32_size _ _ Hto) as Hs2.
  assert (Hs0 : 2 <= item_size fd_item).
  { destruct fd_item as [|b0 [|b1 fd_item]]; try discriminate.
    unfold item_size. cbn [length]. lia. }
  unfold perform_RECV, CHECK_ARITY, CHECK_LENGTH.
  destruct (Z.ltb_spec (Z.of_nat (length (fd_item :: len_item :: timeout_item
                                            :: take n rest))) 3) as [Hlt|_];
    [cbn [length] in Hlt; lia|].
  cbn [input lookup list_lookup bind].
  destruct (Z.ltb_spec (item_size fd_item) 2); [lia|].
  destruct (Z.ltb_spec (item_size len_item) 4); [lia|].
  destruct (Z.ltb_spec (item_size timeout_item) 4); [lia|].
  rewrite Hfd, Hlen, Hto. cbn [bind].
  unfold ALLOC_OUTPUT, alloc_item.
  rewrite (to_size_t_small len)
    by (change (2 ^ 64) with 18446744073709551616; lia).
  rewrite to_size_t_small
    by (unfold sizeof_item; change (2 ^ 64) with 18446744073709551616; lia).
  rewrite Halloc.
  destruct (Z.leb_spec (2 ^ 64) (sizeof_item + len)) as [Hov|_];
    [unfold sizeof_item in Hov;
     change (2 ^ 64) with 18446744073709551616 in Hov; lia|].
  cbn [bind replicate insert list_insert output lookup list_lookup].
  rewrite Z.eqb_refl. cbn [platform set_platform]. rewrite Hrecv.
  rewrite (to_int_small ret) by assumption.
  destruct (Z.leb_spec 0 ret); [|lia].
  cbn [insert list_insert bind].
  change (to_int 0 =? 0) with true. cbv iota.
  unfold mbedtls_serialize_discard_stack. cbn [stack set_platform].
  rewrite discard_items_nil. reflexivity.
Qed.

(** ** Replies on the wire *)

Lemma set_write_fd_same (s : state) :
  set_write_fd (write_fd s) (sent s) s = s.
Proof. now destruct s. Qed.

Lemma send_result_ready (s : state) (it : item) :
  write_fd s = [] -> fits it ->
  mbedtls_serialize_send_result s it (item_size it)
  = (0, set_write_fd [] (sent s ++ result_frame it) s).
Proof.
  unfold fits. intros Hw Hfit. unfold mbedtls_serialize_send_result.
  destruct (Z.ltb_spec MBEDTLS_SERIALIZE_MAX_STRING_LENGTH (item_size it));
    [lia|].
  rewrite Hw. cbn [mbedtls_serialize_write]. change (0 =? 0) with true.
  cbv iota. cbn [write_fd sent set_write_fd mbedtls_serialize_write].
  unfold item_size at 2. rewrite Nat2Z.id, firstn_all.
  unfold result_frame. now rewrite app_assoc.
Qed.

Lemma send_result_refused (s : state) (it : item) :
  ~ fits it ->
  mbedtls_serialize_send_result s it (item_size it)
  = (MBEDTLS_ERR_SERIALIZE_UNSUPPORTED_OUTPUT, s).
Proof.
  unfold fits. intros Hbig. unfold mbedtls_serialize_send_result.
  destruct (Z.ltb_spec MBEDTLS_SERIALIZE_MAX_STRING_LENGTH (item_size it));
    [reflexivity | lia].
Qed.

(** A send changes nothing but the write side of the channel. *)
Lemma send_result_keeps (s : state) buffer length :
  let s' := (mbedtls_serialize_send_result s buffer length).2 in
  stack s' = stack s /\ status s' = status s /\ exitcode s' = exitcode s.
Proof.
  unfold mbedtls_serialize_send_result.
  destruct (_ <? length); [now cbn|].
  destruct (mbedtls_serialize_write (write_fd s) (sent s) _) as [[r d] o].
  destruct (r =? 0); [|now cbn].
  destruct (mbedtls_serialize_write _ _ _) as [[r' d'] o']. now cbn.
Qed.

Lemma send_results_keeps outputs : forall ret (s : state),
  let s' := (send_results outputs ret s).2 in
  stack s' = stack s /\ exitcode s' = exitcode s
  /\ (status s' = status s \/ status s' = MBEDTLS_SERIALIZE_STATUS_DEAD).
Proof.
  induction outputs as [|[it|] outputs IH]; intros ret s; cbn [send_results];
    [now auto| |now auto].
  pose proof (send_result_keeps s it (item_size it)) as (Hst & Hstatus & Hex).
  destruct (mbedtls_serialize_send_result s it (item_size it)) as [r s1].
  cbn [snd] in *.
  destruct (r =? 0).
  - specialize (IH r s1). cbn zeta in IH. destruct IH as (-> & -> & IH).
    rewrite Hstatus in IH. auto.
  - cbn. auto.
Qed.

Lemma send_results_ready outputs : forall ret (s : state),
  write_fd s = [] -> Forall fits (produced outputs) ->
  send_results outputs ret s
  = (match produced outputs with [] => ret | _ :: _ => 0 end,
     set_write_fd []
       (sent s ++ concat (map result_frame (produced outputs))) s).
Proof.
  induction outputs as [|[it|] outputs IH]; intros ret s Hw Hfit;
    cbn [send_results produced map concat].
  - now rewrite app_nil_r, <- Hw, set_write_fd_same.
  - cbn [produced] in Hfit.
    rewrite send_result_ready by (assumption || now inversion Hfit).
    change (0 =? 0) with true. cbv iota.
    rewrite IH by (reflexivity || now inversion Hfit).
    cbn [sent set_write_fd]. rewrite <- app_assoc.
    now destruct (produced outputs).
  - now rewrite app_nil_r, <- Hw, set_write_fd_same.
Qed.

Lemma produced_app_inv before : forall outputs it after,
  produced outputs = before ++ it :: after ->
  exists tail, outputs = map Some before ++ Some it :: tail.
Proof.
  induction before as [|b before IH]; intros outputs it after Hp;
    destruct outputs as [|[x|] outputs]; try discriminate;
    cbn [produced app] in Hp; injection Hp as -> Hp.
  - now exists outputs.
  - destruct (IH _ _ _ Hp) as [tail ->]. now exists tail.
Qed.

Lemma send_results_refused before : forall it tail ret (s : state),
  write_fd s = [] -> Forall fits before -> ~ fits it ->
  MBEDTLS_ERR_SERIALIZE_UNSUPPORTED_OUTPUT <> 0 ->
  send_results (map Some before ++ Some it :: tail) ret s
  = (MBEDTLS_ERR_SERIALIZE_UNSUPPORTED_OUTPUT,
     set_status MBEDTLS_SERIALIZE_STATUS_DEAD
       (set_write_fd [] (sent s ++ concat (map result_frame before)) s)).
Proof.
  induction before as [|b before IH]; intros it tail ret s Hw Hfit Hbig Hne;
    cbn [map app send_results concat].
  - rewrite send_result_refused by assumption.
    apply Z.eqb_neq in Hne. rewrite Hne.
    now rewrite app_nil_r, <- Hw, set_write_fd_same.
  - rewrite send_result_ready by (assumption || now inversion Hfit).
    change (0 =? 0) with true. cbv iota.
    rewrite IH by (reflexivity || assumption || now inversion Hfit).
    cbn [sent set_write_fd]. now rewrite <- app_assoc.
Qed.

(** ** An execute message *)

Lemma pull_execute_step fuel header (s : state) dev' h1 h2 h3 :
  MBEDTLS_SERIALIZE_TYPE_EXECUTE <> MBEDTLS_SERIALIZE_TYPE_PUSH ->
  status s <> MBEDTLS_SERIALIZE_STATUS_DEAD ->
  mbedtls_serialize_read fuel (read_fd s) header 4
  = Ret (0, dev', [MBEDTLS_SERIALIZE_TYPE_EXECUTE; h1; h2; h3]) ->
  mbedtls_serialize_pull fuel header s
  = pull_execute (header_value h1 h2 h3) 0 (set_read_fd dev' s).
Proof.
  intros Hne Hst Hread. unfold mbedtls_serialize_pull.
  replace (status_eqb (status s) MBEDTLS_SERIALIZE_STATUS_DEAD) with false
    by (destruct (status s); reflexivity || congruence).
  rewrite Hread. cbn [bind]. change (0 =? 0) with true. cbv iota.
  apply Z.eqb_neq in Hne. now rewrite Hne, Z.eqb_refl.
Qed.

Lemma pull_execute_out_of_memory function ret (s : state) :
  status s = MBEDTLS_SERIALIZE_STATUS_OUT_OF_MEMORY ->
  pull_execute function ret s
  = Ret (send_reply (to_uint32 MBEDTLS_ERR_SERIALIZE_ALLOC_FAILED)
           (replicate 16 None) ret s).
Proof.
  intros Hst. unfold pull_execute. now rewrite Hst.
Qed.

Lemma pull_execute_dispatch function ret (s : state) st outs s1 :
  status s <> MBEDTLS_SERIALIZE_STATUS_OUT_OF_MEMORY ->
  mbedtls_serialize_perform s function (replicate 16 None)
  = Ret (st, outs, s1) ->
  pull_execute function ret s
  = if st =? status_value MBEDTLS_SERIALIZE_STATUS_EXITED
    then Ret (to_int st, s1)
    else Ret (send_reply st outs ret s1).
Proof.
  intros Hst Hperf. unfold pull_execute.
  replace (status_eqb (status s) MBEDTLS_SERIALIZE_STATUS_OUT_OF_MEMORY)
    with false by (destruct (status s); reflexivity || congruence).
  now rewrite Hperf.
Qed.

Lemma perform_discards (s : state) function outputs st outs s1 :
  mbedtls_serialize_perform s function outputs = Ret (st, outs, s1) ->
  stack s1 = []
  /\ (st <> 0 -> produced (take 16 outs) = []).
Proof.
  unfold mbedtls_serialize_perform.
  destruct (perform_switch _ _ _ _) as [[[ret o] s0]| |]; cbn [bind];
    try discriminate.
  intros [= <- <- <-]. split.
  - cbn. apply discard_items_nil.
  - intros Hst. destruct (Z.eqb_spec (to_int ret) 0) as [E|_].
    + rewrite E in Hst. now contradiction Hst.
    + now destruct o as [|[x|] o].
Qed.

Lemma send_reply_frames st outs ret (s : state) :
  write_fd s = [] -> 4 <= MBEDTLS_SERIALIZE_MAX_STRING_LENGTH ->
  Forall fits (produced (take 16 outs)) ->
  send_reply st outs ret s
  = (0, set_write_fd []
          (sent s ++ concat (map result_frame
                               (uint32_bytes st :: produced (take 16 outs))))
          s).
Proof.
  intros Hw Hmax Hfit. unfold send_reply.
  change (take 17 (Some (uint32_bytes st) :: outs))
    with (Some (uint32_bytes st) :: take 16 outs).
  rewrite send_results_ready; [reflexivity | assumption |].
  cbn [produced]. constructor; [exact Hmax | assumption].
Qed.

(** The dispatcher does not touch the channel. *)

Ltac walk H :=
  repeat (cbn [bind] in H;
    match type of H with
    | Ret _ = Ret _ => injection H as <- <- <-
    | Fault _ = Ret _ => discriminate H
    | OutOfFuel = Ret _ => discriminate H
    | context [bind ?m _] => destruct m as [?| |] eqn:?
    | context [match ?x with _ => _ end] => destruct x eqn:?
    end).

Lemma perform_switch_keeps_channel function inputs outputs (s : state)
    ret outs s' :
  perform_switch function inputs outputs s = Ret (ret, outs, s') ->
  channel s' = channel s.
Proof.
  unfold perform_switch. intros Hp.
  repeat match type of Hp with
         | (if ?b then _ else _) = _ => destruct b
         end.
  all: unfold perform_EXIT, perform_ECHO, perform_USLEEP, perform_SOCKET,
    perform_ACCEPT, perform_SET_BLOCK, perform_RECV, perform_SEND,
    perform_SHUTDOWN, perform_FOPEN, perform_FREAD, perform_FGETS,
    perform_FWRITE, perform_FCLOSE, perform_FSEEK, perform_FTELL,
    perform_FERROR, perform_DOPEN, perform_DREAD, perform_DCLOSE,
    perform_STAT, CHECK_ARITY, CHECK_LENGTH, ALLOC_OUTPUT in Hp.
  all: walk Hp; reflexivity.
Qed.

Lemma perform_keeps_channel (s : state) function outputs st outs s1 :
  mbedtls_serialize_perform s function outputs = Ret (st, outs, s1) ->
  channel s1 = channel s.
Proof.
  unfold mbedtls_serialize_perform.
  destruct (perform_switch _ _ _ _) as [[[ret o] s0]| |] eqn:Hsw; cbn [bind];
    try discriminate.
  intros [= <- <- <-].
  now rewrite <- (perform_switch_keeps_channel _ _ _ _ _ _ _ Hsw).
Qed.

Lemma send_reply_keeps st outs ret (s : state) :
  stack (send_reply st outs ret s).2 = stack s
  /\ exitcode (send_reply st outs ret s).2 = exitcode s
  /\ (status (send_reply st outs ret s).2 = status s
      \/ status (send_reply st outs ret s).2
         = MBEDTLS_SERIALIZE_STATUS_DEAD).
Proof. unfold send_reply. apply send_results_keeps. Qed.

(** C1. In the state [OUT_OF_MEMORY] an execute message is answered
    without dispatch, by the status item alone, carrying [ALLOC_FAILED];
    but nothing sets the status back to [OK]: it stays [OUT_OF_MEMORY],
    or becomes [DEAD] when the reply cannot be written. *)
Theorem pull_out_of_memory_never_back_to_ok
    fuel header (s : state) dev' h1 h2 h3 :
  MBEDTLS_SERIALIZE_TYPE_EXECUTE <> MBEDTLS_SERIALIZE_TYPE_PUSH ->
  status s = MBEDTLS_SERIALIZE_STATUS_OUT_OF_MEMORY ->
  mbedtls_serialize_read fuel (read_fd s) header 4
  = Ret (0, dev', [MBEDTLS_SERIALIZE_TYPE_EXECUTE; h1; h2; h3]) ->
  exists ret s',
    mbedtls_serialize_pull fuel header s = Ret (ret, s')
    /\ status s' <> MBEDTLS_SERIALIZE_STATUS_OK
    /\ (write_fd s = [] -> 4 <= MBEDTLS_SERIALIZE_MAX_STRING_LENGTH ->
        ret = 0
        /\ status s' = MBEDTLS_SERIALIZE_STATUS_OUT_OF_MEMORY
        /\ sent s' = sent s
             ++ result_frame
                  (uint32_bytes
                     (to_uint32 MBEDTLS_ERR_SERIALIZE_ALLOC_FAILED))).
Proof.
  intros Hne Hst Hread.
  rewrite (pull_execute_step fuel header s dev' h1 h2 h3)
    by (assumption || congruence).
  rewrite pull_execute_out_of_memory by exact Hst.
  set (st := to_uint32 MBEDTLS_ERR_SERIALIZE_ALLOC_FAILED).
  destruct (send_reply st (replicate 16 None) 0 (set_read_fd dev' s))
    as [ret s'] eqn:Hreply.
  exists ret, s'. split; [reflexivity|]. split.
  - pose proof (send_reply_keeps st (replicate 16 None) 0
                  (set_read_fd dev' s)) as (_ & _ & Hstatus).
    rewrite Hreply in Hstatus. cbn [snd status set_read_fd] in Hstatus.
    rewrite Hst in Hstatus. destruct Hstatus as [-> | ->]; discriminate.
  - intros Hw Hmax.
    rewrite send_reply_frames in Hreply
      by (assumption || (cbn [take produced replicate]; constructor)).
    injection Hreply as <- <-.
    split; [reflexivity | split; [exact Hst | cbn; reflexivity]].
Qed.

(** C4. After an execute message that was dispatched the stack is empty;
    after one received in the state [OUT_OF_MEMORY], which is answered
    without dispatch, the stack is as it was: the items pushed before and
    after the failed allocation stay on it. *)
Theorem pull_execute_stack_after fuel header (s : state) dev' h1 h2 h3 ret s' :
  MBEDTLS_SERIALIZE_TYPE_EXECUTE <> MBEDTLS_SERIALIZE_TYPE_PUSH ->
  status s <> MBEDTLS_SERIALIZE_STATUS_DEAD ->
  mbedtls_serialize_read fuel (read_fd s) header 4
  = Ret (0, dev', [MBEDTLS_SERIALIZE_TYPE_EXECUTE; h1; h2; h3]) ->
  mbedtls_serialize_pull fuel header s = Ret (ret, s') ->
  stack s'
  = if status_eqb (status s) MBEDTLS_SERIALIZE_STATUS_OUT_OF_MEMORY
    then stack s else [].
Proof.
  intros Hne Hst Hread.
  rewrite (pull_execute_step fuel header s dev' h1 h2 h3) by assumption.
  destruct (status_eqb (status s) MBEDTLS_SERIALIZE_STATUS_OUT_OF_MEMORY)
    eqn:Hoom.
  - rewrite pull_execute_out_of_memory
      by (cbn [status set_read_fd]; destruct (status s); easy).
    set (r := send_reply _ _ _ _).
    assert (Hk : stack r.2 = stack (set_read_fd dev' s))
      by apply send_reply_keeps.
    intros [= Hr]. now rewrite Hr in Hk.
  - unfold pull_execute. cbn [status set_read_fd]. rewrite Hoom.
    destruct (mbedtls_serialize_perform _ _ _) as [[[st outs] s1]| |] eqn:Hp;
      cbn [bind]; try discriminate.
    destruct (perform_discards _ _ _ _ _ _ Hp) as [Hstack _].
    destruct (st =? _).
    + now intros [= <- <-].
    + set (r := send_reply _ _ _ _).
      assert (Hk : stack r.2 = stack s1) by apply send_reply_keeps.
      intros [= Hr]. rewrite Hr in Hk. cbn [snd] in Hk. congruence.
Qed.

Lemma perform_EXIT_records (s : state) (it : item) rest code outputs :
  1 <= function_arity MBEDTLS_SERIALIZE_FUNCTION_EXIT ->
  stack s = it :: rest -> item_uint32 it = Ret code ->
  mbedtls_serialize_perform s MBEDTLS_SERIALIZE_FUNCTION_EXIT outputs
  = Ret (0, outputs,
         set_stack []
           (set_status MBEDTLS_SERIALIZE_STATUS_EXITED
              (set_exitcode (to_int code) s))).
Proof.
  intros Harity Hstack Hcode.
  pose proof (item_uint32_size it code Hcode) as Hsize.
  unfold mbedtls_serialize_perform, perform_switch.
  rewrite Z.eqb_refl, Hstack.
  destruct (Z.to_nat (function_arity MBEDTLS_SERIALIZE_FUNCTION_EXIT))
    as [|n] eqn:Hn; [lia|].
  cbn [take]. unfold perform_EXIT, CHECK_ARITY, CHECK_LENGTH.
  destruct (Z.ltb_spec (Z.of_nat (length (it :: take n rest))) 1) as [Hlt|_];
    [cbn [length] in Hlt; lia|].
  cbn [input lookup list_lookup bind].
  destruct (Z.ltb_spec (item_size it) 4); [lia|].
  rewrite Hcode. cbn [bind].
  change (to_int 0 =? 0) with true. cbv iota.
  unfold mbedtls_serialize_discard_stack. cbn [stack set_status set_exitcode].
  now rewrite Hstack, discard_items_nil.
Qed.

(** C2. [EXIT] with a four-byte argument records the exit code and sets
    the status to [EXITED], and the dispatcher returns 0. The message
    loop compares that return value, not the status, with [EXITED]; the
    test fails and the status item is sent: a reply is written. *)
Theorem pull_EXIT_is_answered
    fuel header (s : state) dev' h1 h2 h3 (it : item) rest code :
  MBEDTLS_SERIALIZE_TYPE_EXECUTE <> MBEDTLS_SERIALIZE_TYPE_PUSH ->
  1 <= function_arity MBEDTLS_SERIALIZE_FUNCTION_EXIT ->
  4 <= MBEDTLS_SERIALIZE_MAX_STRING_LENGTH ->
  status s = MBEDTLS_SERIALIZE_STATUS_OK ->
  mbedtls_serialize_read fuel (read_fd s) header 4
  = Ret (0, dev', [MBEDTLS_SERIALIZE_TYPE_EXECUTE; h1; h2; h3]) ->
  header_value h1 h2 h3 = MBEDTLS_SERIALIZE_FUNCTION_EXIT ->
  stack s = it :: rest -> item_uint32 it = Ret code ->
  write_fd s = [] ->
  exists s',
    mbedtls_serialize_pull fuel header s = Ret (0, s')
    /\ exitcode s' = to_int code
    /\ status s' = MBEDTLS_SERIALIZE_STATUS_EXITED
    /\ sent s' = sent s ++ result_frame (uint32_bytes 0).
Proof.
  intros Hne Harity Hmax Hst Hread Hfun Hstack Hcode Hw.
  rewrite (pull_execute_step fuel header s dev' h1 h2 h3)
    by (assumption || congruence).
  rewrite Hfun.
  rewrite (pull_execute_dispatch _ _ _ 0 (replicate 16 None)
             (set_stack []
                (set_status MBEDTLS_SERIALIZE_STATUS_EXITED
                   (set_exitcode (to_int code) (set_read_fd dev' s)))));
    [ | cbn [status set_read_fd]; congruence
      | now apply (perform_EXIT_records _ it rest) ].
  change (0 =? status_value MBEDTLS_SERIALIZE_STATUS_EXITED) with false.
  cbv iota.
  rewrite send_reply_frames
    by (assumption || (cbn [take produced replicate]; constructor)).
  eexists. split; [reflexivity|].
  split; [reflexivity | split; [reflexivity | cbn; reflexivity]].
Qed.

(** The reply stops at the first output that exceeds the limit. *)
Lemma pull_execute_refuses_oversize
    fuel header (s : state) dev' h1 h2 h3 st outs s1 before it after :
  MBEDTLS_SERIALIZE_TYPE_EXECUTE <> MBEDTLS_SERIALIZE_TYPE_PUSH ->
  4 <= MBEDTLS_SERIALIZE_MAX_STRING_LENGTH ->
  MBEDTLS_ERR_SERIALIZE_UNSUPPORTED_OUTPUT <> 0 ->
  status s = MBEDTLS_SERIALIZE_STATUS_OK ->
  mbedtls_serialize_read fuel (read_fd s) header 4
  = Ret (0, dev', [MBEDTLS_SERIALIZE_TYPE_EXECUTE; h1; h2; h3]) ->
  mbedtls_serialize_perform (set_read_fd dev' s) (header_value h1 h2 h3)
    (replicate 16 None) = Ret (st, outs, s1) ->
  write_fd s = [] ->
  produced (take 16 outs) = before ++ it :: after ->
  Forall fits before -> ~ fits it ->
  exists s',
    mbedtls_serialize_pull fuel header s
    = Ret (MBEDTLS_ERR_SERIALIZE_UNSUPPORTED_OUTPUT, s')
    /\ st = 0
    /\ sent s'
       = sent s ++ result_frame (uint32_bytes st)
         ++ concat (map result_frame before)
    /\ status s' = MBEDTLS_SERIALIZE_STATUS_DEAD.
Proof.
  intros Hne Hmax Herr Hst Hread Hperf Hw Hprod Hfit Hbig.
  assert (Hzero : st = 0).
  { destruct (Z.eq_dec st 0) as [E|E]; [exact E|].
    apply (perform_discards _ _ _ _ _ _ Hperf) in E.
    rewrite E in Hprod. now destruct before. }
  rewrite (pull_execute_step fuel header s dev' h1 h2 h3)
    by (assumption || congruence).
  rewrite (pull_execute_dispatch _ _ _ st outs s1)
    by (assumption || (cbn [status set_read_fd]; congruence)).
  replace (st =? status_value MBEDTLS_SERIALIZE_STATUS_EXITED) with false
    by now rewrite Hzero.
  pose proof (perform_keeps_channel _ _ _ _ _ _ Hperf) as Hch.
  unfold channel in Hch. cbn [read_fd write_fd sent set_read_fd] in Hch.
  injection Hch as Hrd Hwr Hsent.
  destruct (produced_app_inv _ _ _ _ Hprod) as [tail Htail].
  unfold send_reply.
  change (take 17 (Some (uint32_bytes st) :: outs))
    with (map Some (uint32_bytes st :: before) ++ Some it :: tail)
    || (change (take 17 (Some (uint32_bytes st) :: outs))
          with (Some (uint32_bytes st) :: take 16 outs);
        rewrite Htail;
        change (Some (uint32_bytes st) :: map Some before ++ Some it :: tail)
          with (map Some (uint32_bytes st :: before) ++ Some it :: tail)).
  rewrite send_results_refused;
    [ | congruence | constructor; [exact Hmax | assumption]
      | assumption | assumption ].
  eexists. split; [reflexivity|].
  cbn [sent set_write_fd set_status status map concat]. rewrite Hsent.
  now repeat split.
Qed.

(** C8, as the code has it. An output longer than the limit is refused
    with [UNSUPPORTED_OUTPUT] before any byte of its frame is written.
    The status item, sent before it, carries the status of the
    dispatcher, which is 0; the message loop returns the error and sets
    the status of the channel to [DEAD]. *)
Theorem pull_execute_oversize_output
    fuel header (s : state) dev' h1 h2 h3 st outs s1 before it after :
  MBEDTLS_SERIALIZE_TYPE_EXECUTE <> MBEDTLS_SERIALIZE_TYPE_PUSH ->
  4 <= MBEDTLS_SERIALIZE_MAX_STRING_LENGTH ->
  MBEDTLS_ERR_SERIALIZE_UNSUPPORTED_OUTPUT <> 0 ->
  status s = MBEDTLS_SERIALIZE_STATUS_OK ->
  mbedtls_serialize_read fuel (read_fd s) header 4
  = Ret (0, dev', [MBEDTLS_SERIALIZE_TYPE_EXECUTE; h1; h2; h3]) ->
  mbedtls_serialize_perform (set_read_fd dev' s) (header_value h1 h2 h3)
    (replicate 16 None) = Ret (st, outs, s1) ->
  write_fd s = [] ->
  produced (take 16 outs) = before ++ it :: after ->
  Forall fits before -> ~ fits it ->
  exists s',
    mbedtls_serialize_pull fuel header s
    = Ret (MBEDTLS_ERR_SERIALIZE_UNSUPPORTED_OUTPUT, s')
    /\ st = 0
    /\ sent s'
       = sent s ++ result_frame (uint32_bytes st)
         ++ concat (map result_frame before)
    /\ status s' = MBEDTLS_SERIALIZE_STATUS_DEAD.
Proof. apply pull_execute_refuses_oversize. Qed.

End Properties.

(** * Further properties *)

Section Further.
Context `{serialize_h} `{Host}.

(** ** Scalars in items *)

Lemma lor_add a lo k :
  0 <= k -> a mod 2 ^ k = 0 -> 0 <= lo < 2 ^ k -> Z.lor a lo = a + lo.
Proof.
  intros Hk Ha Hlo.
  assert (Hland : Z.land a lo = 0).
  { apply Z.bits_inj'. intros n Hn. rewrite Z.land_spec, Z.bits_0.
    destruct (Z.lt_ge_cases n k) as [Hlt|Hge].
    - rewrite (Z.div_mod a (2 ^ k)), Ha, Z.add_0_r by lia.
      rewrite Z.mul_comm, Z.mul_pow2_bits_low by lia. reflexivity.
    - rewrite <- (Z.mod_small lo (2 ^ k)) by lia.
      rewrite Z.mod_pow2_bits_high by lia. apply andb_false_r. }
  rewrite Z.add_nocarry_lxor by exact Hland.
  symmetry. now apply Z.lxor_lor.
Qed.

Lemma byte_of v k :
  0 <= k -> Z.land (Z.shiftr v k) 255 = (v / 2 ^ k) mod 256.
Proof.
  intros Hk. rewrite Z.shiftr_div_pow2 by lia.
  change 255 with (Z.ones 8). now rewrite Z.land_ones by lia.
Qed.

Lemma item_uint32_bytes b0 b1 b2 b3 rest :
  0 <= b0 -> 0 <= b1 < 256 -> 0 <= b2 < 256 -> 0 <= b3 < 256 ->
  item_uint32 (b0 :: b1 :: b2 :: b3 :: rest)
  = Ret (b0 * 16777216 + b1 * 65536 + b2 * 256 + b3).
Proof.
  intros Hb0 Hb1 Hb2 Hb3. cbn [item_uint32]. f_equal.
  rewrite !Z.shiftl_mul_pow2 by lia.
  change (2 ^ 24) with 16777216. change (2 ^ 16) with 65536.
  change (2 ^ 8) with 256.
  rewrite (lor_add (b0 * 16777216) (b1 * 65536) 24);
    [ | lia | change (2 ^ 24) with 16777216; apply Z.mod_mul; lia
      | change (2 ^ 24) with 16777216; lia ].
  rewrite (lor_add (b0 * 16777216 + b1 * 65536) (b2 * 256) 16);
    [ | lia
      | change (2 ^ 16) with 65536;
        replace (b0 * 16777216 + b1 * 65536) with ((b0 * 256 + b1) * 65536)
          by lia; apply Z.mod_mul; lia
      | change (2 ^ 16) with 65536; lia ].
  rewrite (lor_add _ b3 8);
    [ reflexivity | lia
      | change (2 ^ 8) with 256;
        replace (b0 * 16777216 + b1 * 65536 + b2 * 256)
          with ((b0 * 65536 + b1 * 256 + b2) * 256) by lia;
        apply Z.mod_mul; lia
      | change (2 ^ 8) with 256; lia ].
Qed.

Lemma uint32_bytes_value v :
  uint32_bytes v
  = [(v / 16777216) mod 256; (v / 65536) mod 256; (v / 256) mod 256;
     v mod 256].
Proof.
  unfold uint32_bytes. rewrite !byte_of by lia.
  change (2 ^ 24) with 16777216. change (2 ^ 16) with 65536.
  change (2 ^ 8) with 256. repeat f_equal.
  change 255 with (Z.ones 8). now rewrite Z.land_ones by lia.
Qed.

Lemma item_uint32_uint32_bytes v rest :
  0 <= v < 4294967296 -> item_uint32 (uint32_bytes v ++ rest) = Ret v.
Proof.
  intros Hv. rewrite uint32_bytes_value. cbn [app].
  pose proof (Z.mod_pos_bound (v / 16777216) 256 ltac:(lia)).
  rewrite item_uint32_bytes by ((apply Z.mod_pos_bound; lia) || lia).
  f_equal. rewrite (Z.mod_small (v / 16777216)) by
    (split; [apply Z.div_pos; lia | apply Z.div_lt_upper_bound; lia]).
  Z.div_mod_to_equations. lia.
Qed.

(** X1. A 32-bit value stored in an item of four bytes or more by
    [set_item_uint32] is read back by [item_uint32], and the bytes after
    the fourth are left as they were. *)
Theorem item_uint32_set_item_uint32 (it : item) v :
  (4 <= length it)%nat -> 0 <= v < 4294967296 ->
  item_uint32 (set_item_uint32 it v) = Ret v
  /\ drop 4 (set_item_uint32 it v) = drop 4 it
  /\ length (set_item_uint32 it v) = length it.
Proof.
  intros Hlen Hv. unfold set_item_uint32, overwrite.
  change (take 0 it) with (@nil byte). cbn [app].
  change (0 + length (uint32_bytes v))%nat with 4%nat.
  split; [now apply item_uint32_uint32_bytes|]. split.
  - reflexivity.
  - rewrite length_app, length_drop. cbn [uint32_bytes length]. lia.
Qed.

Lemma item_uint16_bytes b0 b1 rest :
  0 <= b0 -> 0 <= b1 < 256 ->
  item_uint16 (b0 :: b1 :: rest) = Ret (b0 * 256 + b1).
Proof.
  intros Hb0 Hb1. cbn [item_uint16]. f_equal.
  rewrite Z.shiftl_mul_pow2 by lia. change (2 ^ 8) with 256.
  apply (lor_add _ b1 8);
    [ lia | change (2 ^ 8) with 256; apply Z.mod_mul; lia
    | change (2 ^ 8) with 256; lia ].
Qed.

(** X2. A 16-bit value stored by [set_item_uint16] in an item of two
    bytes or more is read back by [item_uint16]. *)
Theorem item_uint16_set_item_uint16 (it : item) v :
  (2 <= length it)%nat -> 0 <= v < 65536 ->
  item_uint16 (set_item_uint16 it v) = Ret v
  /\ length (set_item_uint16 it v) = length it.
Proof.
  intros Hlen Hv. unfold set_item_uint16, overwrite.
  change (take 0 it) with (@nil byte). cbn [app length Nat.add].
  split.
  - rewrite byte_of by lia. change (2 ^ 8) with 256.
    change 255 with (Z.ones 8). rewrite Z.land_ones by lia.
    change (2 ^ 8) with 256.
    rewrite item_uint16_bytes;
      [ | apply Z.mod_pos_bound; lia | apply Z.mod_pos_bound; lia ].
    f_equal. rewrite (Z.mod_small (v / 256)) by
      (split; [apply Z.div_pos; lia | apply Z.div_lt_upper_bound; lia]).
    Z.div_mod_to_equations. lia.
  - rewrite length_drop. lia.
Qed.

(** X3. The header of a [RESULT] frame carries the low 24 bits of the
    length: read as the reader reads a header, it gives the length back
    exactly when the length is below [2 ^ 24]. *)
Theorem result_header_value length :
  0 <= length ->
  exists h1 h2 h3,
    result_header length
    = [to_uint8 MBEDTLS_SERIALIZE_TYPE_RESULT; h1; h2; h3]
    /\ header_value h1 h2 h3 = length mod 16777216.
Proof.
  intros Hlen. unfold result_header. do 3 eexists. split; [reflexivity|].
  rewrite !byte_of by lia.
  change (2 ^ 16) with 65536. change (2 ^ 8) with 256.
  change 255 with (Z.ones 8). rewrite Z.land_ones by lia.
  change (2 ^ 8) with 256.
  unfold header_value. rewrite !Z.shiftl_mul_pow2 by lia.
  change (2 ^ 16) with 65536. change (2 ^ 8) with 256.
  assert (B1 := Z.mod_pos_bound (length / 65536) 256 ltac:(lia)).
  assert (B2 := Z.mod_pos_bound (length / 256) 256 ltac:(lia)).
  assert (B3 := Z.mod_pos_bound length 256 ltac:(lia)).
  set (h1 := (length / 65536) mod 256) in *.
  set (h2 := (length / 256) mod 256) in *.
  set (h3 := length mod 256) in *.
  rewrite (lor_add (h1 * 65536) (h2 * 256) 16);
    [ | lia | change (2 ^ 16) with 65536; apply Z.mod_mul; lia
      | change (2 ^ 16) with 65536; lia ].
  rewrite (lor_add (h1 * 65536 + h2 * 256) h3 8);
    [ | lia
      | change (2 ^ 8) with 256;
        replace (h1 * 65536 + h2 * 256) with ((h1 * 256 + h2) * 256) by lia;
        apply Z.mod_mul; lia
      | change (2 ^ 8) with 256; lia ].
  subst h1 h2 h3. Z.div_mod_to_equations. lia.
Qed.

(** ** The writer *)

(** X4. [mbedtls_serialize_write] retries short writes: what it adds to
    the channel is always a prefix of the buffer, in order; it is the
    whole buffer when it returns 0 (the error code being non-zero), and
    it returns 0 whenever no [write] fails. *)
Theorem mbedtls_serialize_write_prefix dev : forall out buffer ret dev' out',
  mbedtls_serialize_write dev out buffer = (ret, dev', out') ->
  (exists k, out' = out ++ take k buffer)
  /\ (ret = 0 \/ ret = MBEDTLS_ERR_SERIALIZE_SEND)
  /\ (MBEDTLS_ERR_SERIALIZE_SEND <> 0 -> ret = 0 -> out' = out ++ buffer)
  /\ (accepting dev = true -> ret = 0 /\ out' = out ++ buffer).
Proof.
  induction dev as [|[n|] dev IH]; intros out buffer ret dev' out';
    cbn [mbedtls_serialize_write accepting].
  - intros [= <- <- <-]. repeat split; auto.
    exists (length buffer). now rewrite firstn_all.
  - destruct (drop n buffer) as [|b rest] eqn:Hdrop.
    + intros [= <- <- <-].
      assert (Hall : take n buffer = buffer).
      { rewrite <- (take_drop n buffer) at 2. rewrite Hdrop.
        now rewrite app_nil_r. }
      rewrite Hall. repeat split; eauto.
      exists (length buffer). now rewrite firstn_all.
    + intros Hw.
      rewrite <- Hdrop in Hw.
      destruct (IH _ _ _ _ _ Hw) as ((k & Hk) & Hret & Hzero & Hacc).
      split; [|split; [exact Hret|split]].
      * exists (n + k)%nat.
        now rewrite Hk, <- app_assoc, take_take_drop.
      * intros Hne Hr.
        now rewrite (Hzero Hne Hr), <- app_assoc, take_drop.
      * intros Ha. destruct (Hacc Ha) as [-> ->].
        now rewrite <- app_assoc, take_drop.
  - intros [= <- <- <-]. repeat split; auto; try discriminate.
    + exists 0%nat. now rewrite take_0, app_nil_r.
    + intros Hne Hzero. congruence.
Qed.

(** ** The handle table *)

Lemma file_slot_lookup fs (i : nat) e :
  (i < 100)%nat -> fs !! i = Some e -> file_slot fs (Z.of_nat i) = Ret e.
Proof.
  intros Hi Hl. apply file_slot_inside.
  - unfold MBEDTLS_SERIALIZE_MAX_FILES. lia.
  - now rewrite Nat2Z.id.
Qed.

Lemma alloc_file_loop_first_free n : forall (i : nat) fs,
  length fs = 100%nat -> (i + n = 100)%nat -> all_in_use fs i ->
  (exists j e, (j < 100)%nat /\ fs !! j = Some e /\ inUse e = 0
               /\ all_in_use fs j
               /\ alloc_file_loop n (Z.of_nat i) fs
                  = Ret (Z.of_nat j + 1,
                         <[j := {| file := file e; inUse := 1 |}]> fs))
  \/ (all_in_use fs 100 /\ alloc_file_loop n (Z.of_nat i) fs = Ret (-1, fs)).
Proof.
  induction n as [|n IH]; intros i fs Hlen Hsum Hused.
  - right. replace i with 100%nat in Hused by lia. now split.
  - destruct (lookup_lt_is_Some_2 fs i ltac:(lia)) as [e He].
    cbn [alloc_file_loop]. rewrite (file_slot_lookup fs i e) by (lia || exact He).
    cbn [bind]. destruct (Z.eqb_spec (inUse e) 0) as [Hfree|Hbusy].
    + left. exists i, e. rewrite Nat2Z.id. repeat split; (lia || assumption).
    + replace (Z.of_nat i + 1) with (Z.of_nat (S i)) by lia.
      apply IH; [assumption | lia |].
      intros k e' Hk Hl. destruct (Nat.eq_dec k i) as [->|Hne].
      * congruence.
      * apply (Hused k e'); [lia | assumption].
Qed.

(** X5. [alloc_file_context] takes the first free slot of the table of
    100 entries: it returns the index of that slot plus one, an
    identifier from 1 to 100, and marks the slot in use, changing nothing
    else; when every slot is in use it returns -1 and leaves the table as
    it is. *)
Theorem alloc_file_context_first_free fs :
  length fs = 100%nat ->
  (exists j e, (j < 100)%nat /\ fs !! j = Some e /\ inUse e = 0
               /\ all_in_use fs j
               /\ alloc_file_context fs
                  = Ret (Z.of_nat j + 1,
                         <[j := {| file := file e; inUse := 1 |}]> fs))
  \/ (all_in_use fs 100 /\ alloc_file_context fs = Ret (-1, fs)).
Proof.
  intros Hlen. unfold alloc_file_context.
  apply (alloc_file_loop_first_free 100 0 fs Hlen eq_refl).
  intros i e Hi. lia.
Qed.

Lemma to_int_id z : -2147483648 <= z < 2147483648 -> to_int z = z.
Proof.
  intros Hz. unfold to_int, to_uint32. change (2 ^ 32) with 4294967296.
  change (2 ^ 31) with 2147483648.
  destruct (Z.ltb_spec (z mod 4294967296) 2147483648);
    Z.div_mod_to_equations; lia.
Qed.

Lemma get_file_from_id_slot fs (j : nat) e :
  (j < 100)%nat -> fs !! j = Some e ->
  get_file_from_id fs (Z.of_nat j + 1)
  = Ret (if inUse e =? 0 then 0 else file e).
Proof.
  intros Hj Hl. apply get_file_from_id_inside; [lia|].
  replace (Z.of_nat j + 1 - 1) with (Z.of_nat j) by lia.
  now rewrite Nat2Z.id.
Qed.

(** X6. A handle taken with [alloc_file_context] and given a resource
    (as [FOPEN] and [DOPEN] do) is found again by [get_file_from_id];
    before, its identifier named no open resource, and the lookup of
    every other identifier from 1 to 100 is as it was. *)
Theorem handle_store_then_lookup fs id fs1 f :
  length fs = 100%nat -> f <> 0 ->
  alloc_file_context fs = Ret (id, fs1) -> id <> -1 ->
  1 <= id <= 100
  /\ get_file_from_id fs id = Ret 0
  /\ exists fs2,
       store_file fs1 id f = Ret fs2
       /\ get_file_from_id fs2 id = Ret f
       /\ forall id', 1 <= id' <= 100 -> id' <> id ->
            get_file_from_id fs2 id' = get_file_from_id fs id'.
Proof.
  intros Hlen Hf Halloc Hid.
  change (alloc_file_loop 100 0 fs = Ret (id, fs1)) in Halloc.
  destruct (alloc_file_loop_first_free 100 0 fs Hlen eq_refl)
    as [(j & e & Hj & He & Hfree & _ & Heq) | (_ & Heq)];
    [intros i e Hi; lia | |];
    change (Z.of_nat 0) with 0 in Heq; rewrite Heq in Halloc; injection Halloc as <- <-; [|congruence].
  split; [lia|]. split.
  { rewrite (get_file_from_id_slot fs j e) by assumption.
    now rewrite Hfree. }
  set (fs1 := <[j := {| file := file e; inUse := 1 |}]> fs).
  assert (Hl1 : fs1 !! j = Some {| file := file e; inUse := 1 |})
    by (apply list_lookup_insert_eq; lia).
  exists (<[j := {| file := f; inUse := 1 |}]> fs1). split; [|split].
  - unfold store_file. replace (Z.of_nat j + 1 - 1) with (Z.of_nat j) by lia.
    rewrite (file_slot_lookup fs1 j _ Hj Hl1). cbn [bind inUse].
    now rewrite Nat2Z.id.
  - rewrite (get_file_from_id_slot _ j {| file := f; inUse := 1 |});
      [reflexivity | assumption |].
    apply list_lookup_insert_eq. unfold fs1. rewrite length_insert. lia.
  - intros id' Hrange Hne.
    destruct (lookup_lt_is_Some_2 fs (Z.to_nat (id' - 1)) ltac:(lia))
      as [e' He'].
    rewrite (get_file_from_id_inside fs id' e') by assumption.
    apply get_file_from_id_inside; [assumption|].
    unfold fs1. rewrite !list_lookup_insert_ne by lia. exact He'.
Qed.

(** X7. [free_file_context] on an identifier from 1 to 100 clears the
    slot: the lookup of that identifier then finds nothing, the other
    identifiers are not affected, the result is 0 exactly when the slot
    held a resource, and freeing it again returns -1 and changes
    nothing. *)
Theorem free_file_context_clears fs id :
  length fs = 100%nat -> 1 <= id <= 100 ->
  exists e r fs',
    fs !! Z.to_nat (id - 1) = Some e
    /\ free_file_context fs id = Ret (r, fs')
    /\ (r = 0 <-> file e <> 0) /\ (r = -1 <-> file e = 0)
    /\ get_file_from_id fs' id = Ret 0
    /\ (forall id', 1 <= id' <= 100 -> id' <> id ->
         get_file_from_id fs' id' = get_file_from_id fs id')
    /\ free_file_context fs' id = Ret (-1, fs').
Proof.
  intros Hlen Hid.
  destruct (lookup_lt_is_Some_2 fs (Z.to_nat (id - 1)) ltac:(lia)) as [e He].
  set (j := Z.to_nat (id - 1)) in *.
  set (cleared := {| file := 0; inUse := 0 |}).
  assert (Hstep : forall l x, l !! j = Some x -> length l = 100%nat ->
            free_file_context l id
            = Ret (if file x =? 0 then -1 else 0,
                   if file x =? 0
                   then <[j := {| file := file x; inUse := 0 |}]> l
                   else <[j := cleared]>
                          (<[j := {| file := file x; inUse := 0 |}]> l))).
  { intros l x Hx Hl. unfold free_file_context.
    rewrite (to_int_id (id - 1)) by lia.
    destruct (Z.ltb_spec (id - 1) MBEDTLS_SERIALIZE_MAX_FILES) as [_|Hge];
      [|unfold MBEDTLS_SERIALIZE_MAX_FILES in Hge; lia].
    rewrite (file_slot_inside l (id - 1) x)
      by (unfold MBEDTLS_SERIALIZE_MAX_FILES; lia || exact Hx).
    cbn [bind]. fold j. now destruct (file x =? 0). }
  assert (Hfs' : exists fs', free_file_context fs id
                   = Ret (if file e =? 0 then -1 else 0, fs')
                   /\ fs' = <[j := cleared]> fs).
  { rewrite (Hstep fs e He Hlen).
    destruct (Z.eqb_spec (file e) 0) as [Hz|Hnz]; eexists; split;
      try reflexivity.
    - unfold cleared. now rewrite <- Hz.
    - now rewrite list_insert_insert_eq. }
  destruct Hfs' as (fs' & Hfree & ->).
  exists e, (if file e =? 0 then -1 else 0), (<[j := cleared]> fs).
  assert (Hl' : <[j := cleared]> fs !! j = Some cleared)
    by (apply list_lookup_insert_eq; lia).
  split; [exact He|]. split; [exact Hfree|].
  split; [destruct (Z.eqb_spec (file e) 0); split; intros; congruence || lia|].
  split; [destruct (Z.eqb_spec (file e) 0); split; intros; congruence || lia|].
  split; [|split].
  - rewrite (get_file_from_id_inside _ id cleared) by assumption.
    reflexivity.
  - intros id' Hrange Hne.
    destruct (lookup_lt_is_Some_2 fs (Z.to_nat (id' - 1)) ltac:(lia))
      as [e' He'].
    rewrite (get_file_from_id_inside fs id' e') by assumption.
    apply get_file_from_id_inside; [assumption|].
    rewrite list_lookup_insert_ne by (unfold j; lia). exact He'.
  - rewrite (Hstep _ cleared Hl') by (rewrite length_insert; exact Hlen).
    cbn [file cleared]. change (0 =? 0) with true. cbv iota.
    now rewrite list_insert_insert_eq.
Qed.

(** ** The dispatcher *)

(** The case of the switch taken for the label at place [n]. *)
Ltac select_case Hnd n f :=
  let Hne := fresh "Hne" in
  pose proof (earlier_labels case_labels n f Hnd eq_refl) as Hne;
  cbn [case_labels take] in Hne;
  unfold perform_switch;
  repeat match type of Hne with
         | Forall _ (_ :: _) =>
             let Hx := fresh "Hx" in
             apply Forall_cons in Hne as [Hx Hne];
             apply not_eq_sym, Z.eqb_neq in Hx; rewrite Hx; clear Hx
         end;
  clear Hne; rewrite Z.eqb_refl.

Lemma free_outputs_none n : free_outputs (replicate n None) = replicate n None.
Proof. now destruct n. Qed.

Lemma perform_returns (s : state) function ret s1 :
  perform_switch function
    (take (Z.to_nat (function_arity function)) (stack s))
    (replicate 16 None) s
  = Ret (ret, replicate 16 None, s1) ->
  mbedtls_serialize_perform s function (replicate 16 None)
  = Ret (to_uint32 (to_int ret), replicate 16 None, set_stack [] s1).
Proof.
  intros Hsw. unfold mbedtls_serialize_perform. rewrite Hsw. cbn [bind].
  unfold mbedtls_serialize_discard_stack. rewrite discard_items_nil.
  now destruct (to_int ret =? 0).
Qed.

(** X9. For the nine opcodes whose case checks the arity ([EXIT],
    [ECHO], [USLEEP], [SOCKET], [ACCEPT], [SET_BLOCK], [RECV], [SEND],
    [SHUTDOWN]), a stack with fewer items than the case asks for gives
    the status [BAD_INPUT]: no output is left, the platform, the handle
    table, the exit code and the status of the channel are not touched,
    and the stack is emptied. *)
Theorem perform_checks_arity (s : state) function min_arity :
  NoDup case_labels ->
  (function, min_arity) ∈ checked_arity ->
  Z.of_nat (length (stack s)) < min_arity ->
  mbedtls_serialize_perform s function (replicate 16 None)
  = Ret (to_uint32 (to_int MBEDTLS_ERR_SERIALIZE_BAD_INPUT),
         replicate 16 None, set_stack [] s).
Proof.
  intros Hnd Hin Hshort. apply perform_returns.
  assert (Hlen : forall n, Z.of_nat (length (take n (stack s))) < min_arity).
  { intros n. rewrite length_take. lia. }
  unfold checked_arity in Hin.
  repeat (apply elem_of_cons in Hin as [[= -> ->]|Hin]);
    [ select_case Hnd 0%nat MBEDTLS_SERIALIZE_FUNCTION_EXIT;
      unfold perform_EXIT
    | select_case Hnd 1%nat MBEDTLS_SERIALIZE_FUNCTION_ECHO;
      unfold perform_ECHO
    | select_case Hnd 2%nat MBEDTLS_SERIALIZE_FUNCTION_USLEEP;
      unfold perform_USLEEP
    | select_case Hnd 3%nat MBEDTLS_SERIALIZE_FUNCTION_SOCKET;
      unfold perform_SOCKET
    | select_case Hnd 4%nat MBEDTLS_SERIALIZE_FUNCTION_ACCEPT;
      unfold perform_ACCEPT
    | select_case Hnd 5%nat MBEDTLS_SERIALIZE_FUNCTION_SET_BLOCK;
      unfold perform_SET_BLOCK
    | select_case Hnd 6%nat MBEDTLS_SERIALIZE_FUNCTION_RECV;
      unfold perform_RECV
    | select_case Hnd 7%nat MBEDTLS_SERIALIZE_FUNCTION_SEND;
      unfold perform_SEND
    | select_case Hnd 8%nat MBEDTLS_SERIALIZE_FUNCTION_SHUTDOWN;
      unfold perform_SHUTDOWN
    | now apply elem_of_nil in Hin ].
  all: unfold CHECK_ARITY;
    match goal with
    | |- context [Z.of_nat (length (take ?n ?l)) <? ?m] =>
        specialize (Hlen n);
        destruct (Z.ltb_spec (Z.of_nat (length (take n l))) m);
        [reflexivity | lia]
    end.
Qed.

(** X10. An opcode that is none of the labels of the switch gives the
    status [BAD_INPUT], whatever is on the stack: no output, nothing
    touched but the stack, which is emptied. *)
Theorem perform_unknown_function (s : state) function :
  function ∉ case_labels ->
  mbedtls_serialize_perform s function (replicate 16 None)
  = Ret (to_uint32 (to_int MBEDTLS_ERR_SERIALIZE_BAD_INPUT),
         replicate 16 None, set_stack [] s).
Proof.
  intros Hout. apply perform_returns. unfold case_labels in Hout.
  unfold perform_switch.
  repeat (apply not_elem_of_cons in Hout as [Hx Hout];
          apply Z.eqb_neq in Hx; rewrite Hx; clear Hx).
  reflexivity.
Qed.

(** X11. [ECHO] when the copy cannot be allocated: the status is
    [ALLOC_FAILED], there is no output, and the stack is emptied. *)
Theorem perform_ECHO_out_of_memory (s : state) (b : item) rest w' :
  NoDup case_labels ->
  1 <= function_arity MBEDTLS_SERIALIZE_FUNCTION_ECHO ->
  stack s = b :: rest ->
  item_size b < 2 ^ 24 ->
  mbedtls_calloc (sizeof_item + item_size b) (platform s) = (false, w') ->
  mbedtls_serialize_perform s MBEDTLS_SERIALIZE_FUNCTION_ECHO
    (replicate 16 None)
  = Ret (to_uint32 (to_int MBEDTLS_ERR_SERIALIZE_ALLOC_FAILED),
         replicate 16 None, set_stack [] (set_platform w' s)).
Proof.
  intros Hnd Harity Hstack Hsize Halloc.
  apply (perform_returns s _ MBEDTLS_ERR_SERIALIZE_ALLOC_FAILED
           (set_platform w' s)).
  select_case Hnd 1%nat MBEDTLS_SERIALIZE_FUNCTION_ECHO.
  rewrite Hstack.
  destruct (Z.to_nat (function_arity MBEDTLS_SERIALIZE_FUNCTION_ECHO))
    as [|n] eqn:Hn; [lia|].
  cbn [take]. unfold perform_ECHO, CHECK_ARITY.
  destruct (Z.ltb_spec (Z.of_nat (length (b :: take n rest))) 1) as [Hlt|_];
    [cbn [length] in Hlt; lia|].
  cbn [input lookup list_lookup bind].
  unfold ALLOC_OUTPUT, alloc_item. unfold item_size in *.
  change (2 ^ 24) with 16777216 in Hsize.
  rewrite (to_size_t_small (Z.of_nat (length b)))
    by (change (2 ^ 64) with 18446744073709551616; lia).
  rewrite to_size_t_small
    by (unfold sizeof_item; change (2 ^ 64) with 18446744073709551616; lia).
  rewrite Halloc. reflexivity.
Qed.

(** X12. [SOCKET] with a host string of one byte or more whose last
    byte is not NUL, or with a host string that ends in NUL and a port
    string of one byte or more whose last byte is not NUL, gives
    [BAD_INPUT] before anything is allocated or asked of the platform. *)
Theorem perform_SOCKET_unterminated (s : state) (host port proto : item) rest :
  NoDup case_labels ->
  3 <= function_arity MBEDTLS_SERIALIZE_FUNCTION_SOCKET ->
  stack s = host :: port :: proto :: rest ->
  2 <= item_size proto ->
  (exists b, last host = Some b /\ b <> 0)
  \/ (last host = Some 0 /\ exists b, last port = Some b /\ b <> 0) ->
  mbedtls_serialize_perform s MBEDTLS_SERIALIZE_FUNCTION_SOCKET
    (replicate 16 None)
  = Ret (to_uint32 (to_int MBEDTLS_ERR_SERIALIZE_BAD_INPUT),
         replicate 16 None, set_stack [] s).
Proof.
  intros Hnd Harity Hstack Hproto Hopen. apply perform_returns.
  select_case Hnd 3%nat MBEDTLS_SERIALIZE_FUNCTION_SOCKET.
  rewrite Hstack.
  destruct (Z.to_nat (function_arity MBEDTLS_SERIALIZE_FUNCTION_SOCKET))
    as [|[|[|n]]] eqn:Hn; [lia|lia|lia|].
  cbn [take]. unfold perform_SOCKET, CHECK_ARITY, CHECK_LENGTH.
  destruct (Z.ltb_spec (Z.of_nat (length (host :: port :: proto
                                            :: take n rest))) 3) as [Hlt|_];
    [cbn [length] in Hlt; lia|].
  cbn [input lookup list_lookup bind].
  destruct (Z.ltb_spec (item_size proto) 2); [lia|].
  unfold last_byte.
  destruct Hopen as [(b & -> & Hb) | (-> & b & -> & Hb)]; cbn [bind].
  - apply Z.eqb_neq in Hb. now rewrite Hb.
  - change (0 =? 0) with true. cbv iota. cbn [bind].
    apply Z.eqb_neq in Hb. now rewrite Hb.
Qed.

(** What the cases of the switch leave of the state. *)

Ltac step_through H :=
  repeat (cbn [bind] in H;
    match type of H with
    | Ret _ = Ret _ => injection H as <- <- <-
    | Fault _ = Ret _ => discriminate H
    | OutOfFuel = Ret _ => discriminate H
    | context [bind ?m _] => destruct m as [?| |] eqn:?
    | context [match ?x with _ => _ end] => destruct x eqn:?
    end).

Ltac unfold_cases H :=
  unfold perform_EXIT, perform_ECHO, perform_USLEEP, perform_SOCKET,
    perform_ACCEPT, perform_SET_BLOCK, perform_RECV, perform_SEND,
    perform_SHUTDOWN, perform_FOPEN, perform_FREAD, perform_FGETS,
    perform_FWRITE, perform_FCLOSE, perform_FSEEK, perform_FTELL,
    perform_FERROR, perform_DOPEN, perform_DREAD, perform_DCLOSE,
    perform_STAT, CHECK_ARITY, CHECK_LENGTH, ALLOC_OUTPUT in H.

Lemma perform_switch_keeps_status function inputs outputs (s : state)
    ret outs s' :
  function <> MBEDTLS_SERIALIZE_FUNCTION_EXIT ->
  perform_switch function inputs outputs s = Ret (ret, outs, s') ->
  status s' = status s /\ exitcode s' = exitcode s.
Proof.
  unfold perform_switch. intros Hne Hp.
  apply Z.eqb_neq in Hne. rewrite Hne in Hp.
  repeat match type of Hp with
         | (if ?b then _ else _) = _ => destruct b
         end.
  all: unfold_cases Hp.
  all: step_through Hp; split; reflexivity.
Qed.

Lemma perform_switch_status function inputs outputs (s : state)
    ret outs s' :
  perform_switch function inputs outputs s = Ret (ret, outs, s') ->
  status s' = status s
  \/ status s' = MBEDTLS_SERIALIZE_STATUS_EXITED.
Proof.
  unfold perform_switch. intros Hp.
  repeat match type of Hp with
         | (if ?b then _ else _) = _ => destruct b
         end.
  all: unfold_cases Hp.
  all: step_through Hp; auto.
Qed.

Lemma perform_status (s : state) function outputs st outs s1 :
  mbedtls_serialize_perform s function outputs = Ret (st, outs, s1) ->
  status s1 = status s
  \/ status s1 = MBEDTLS_SERIALIZE_STATUS_EXITED.
Proof.
  unfold mbedtls_serialize_perform.
  destruct (perform_switch _ _ _ _) as [[[ret o] s0]| |] eqn:Hsw; cbn [bind];
    try discriminate.
  intros [= <- <- <-]. cbn [status set_stack mbedtls_serialize_discard_stack].
  exact (perform_switch_status _ _ _ _ _ _ _ Hsw).
Qed.

(** X13. The dispatcher leaves the stack empty; only [EXIT] changes the
    status of the channel and the exit code, and no case sets the status
    to anything but [EXITED]. *)
Theorem perform_only_EXIT_changes_status
    (s : state) function outputs st outs s1 :
  mbedtls_serialize_perform s function outputs = Ret (st, outs, s1) ->
  stack s1 = []
  /\ (function <> MBEDTLS_SERIALIZE_FUNCTION_EXIT ->
      status s1 = status s /\ exitcode s1 = exitcode s)
  /\ (status s1 = status s
      \/ status s1 = MBEDTLS_SERIALIZE_STATUS_EXITED).
Proof.
  intros Hp. pose proof (perform_status _ _ _ _ _ _ Hp) as Hstatus.
  unfold mbedtls_serialize_perform in Hp.
  destruct (perform_switch _ _ _ _) as [[[ret o] s0]| |] eqn:Hsw;
    cbn [bind] in Hp; try discriminate.
  injection Hp as <- <- <-. split; [|split].
  - cbn. apply discard_items_nil.
  - intros Hne. now apply (perform_switch_keeps_status _ _ _ _ _ _ _ Hne Hsw).
  - exact Hstatus.
Qed.

Lemma perform_FCLOSE_steps (s : state) (it : item) rest v :
  NoDup case_labels ->
  1 <= function_arity MBEDTLS_SERIALIZE_FUNCTION_FCLOSE ->
  stack s = it :: rest -> item_uint32 it = Ret v ->
  perform_switch MBEDTLS_SERIALIZE_FUNCTION_FCLOSE
    (take (Z.to_nat (function_arity MBEDTLS_SERIALIZE_FUNCTION_FCLOSE))
       (stack s))
    (replicate 16 None) s
  = let* f := get_file_from_id (files s) (to_int v) in
    if f =? 0
    then Ret (MBEDTLS_ERR_SERIALIZE_BAD_OUTPUT, replicate 16 None, s)
    else
      let* (r, fs) :=
        free_file_context (files s) (to_int v) in
      Ret (r, replicate 16 None,
           set_files fs
             (set_platform (mbedtls_fclose f (platform s)).2 s)).
Proof.
  intros Hnd Harity Hstack Hv.
  select_case Hnd 13%nat MBEDTLS_SERIALIZE_FUNCTION_FCLOSE.
  rewrite Hstack.
  destruct (Z.to_nat (function_arity MBEDTLS_SERIALIZE_FUNCTION_FCLOSE))
    as [|n] eqn:Hn; [lia|].
  cbn [take]. unfold perform_FCLOSE.
  cbn [input lookup list_lookup bind]. rewrite Hv. cbn [bind].
  destruct (get_file_from_id (files s) (to_int v)) as [f| |]; cbn [bind];
    try reflexivity.
  destruct (f =? 0); [reflexivity|].
  now destruct (mbedtls_fclose f (platform s)) as [r0 w].
Qed.

(** X8. [FCLOSE] of an open handle closes the file on the platform,
    returns the status 0 and releases the slot; a second [FCLOSE] with
    the same identifier then returns [BAD_OUTPUT] and asks nothing of
    the platform. *)
Theorem perform_FCLOSE_twice (s : state) id e rest :
  NoDup case_labels ->
  1 <= function_arity MBEDTLS_SERIALIZE_FUNCTION_FCLOSE ->
  length (files s) = 100%nat -> 1 <= id <= 100 ->
  files s !! Z.to_nat (id - 1) = Some e -> inUse e <> 0 -> file e <> 0 ->
  stack s = uint32_bytes id :: rest ->
  exists s1,
    mbedtls_serialize_perform s MBEDTLS_SERIALIZE_FUNCTION_FCLOSE
      (replicate 16 None) = Ret (0, replicate 16 None, s1)
    /\ platform s1 = (mbedtls_fclose (file e) (platform s)).2
    /\ get_file_from_id (files s1) id = Ret 0
    /\ forall rest' : list item,
         mbedtls_serialize_perform
           (set_stack (uint32_bytes id :: rest') s1)
           MBEDTLS_SERIALIZE_FUNCTION_FCLOSE (replicate 16 None)
         = Ret (to_uint32 (to_int MBEDTLS_ERR_SERIALIZE_BAD_OUTPUT),
                replicate 16 None, s1).
Proof.
  intros Hnd Harity Hlen Hid He Hused Hfile Hstack.
  assert (Hv : item_uint32 (uint32_bytes id) = Ret id).
  { rewrite <- (app_nil_r (uint32_bytes id)).
    apply item_uint32_uint32_bytes. lia. }
  assert (Hint : to_int id = id) by (apply to_int_id; lia).
  (* the lookup and the release, on the table *)
  assert (Hget : get_file_from_id (files s) id = Ret (file e)).
  { rewrite (get_file_from_id_inside _ id e) by assumption.
    apply Z.eqb_neq in Hused. now rewrite Hused. }
  set (j := Z.to_nat (id - 1)) in *.
  set (cleared := {| file := 0; inUse := 0 |}).
  assert (Hfree : free_file_context (files s) id
                  = Ret (0, <[j := cleared]> (files s))).
  { unfold free_file_context. rewrite (to_int_id (id - 1)) by lia.
    destruct (Z.ltb_spec (id - 1) MBEDTLS_SERIALIZE_MAX_FILES) as [_|Hge];
      [|unfold MBEDTLS_SERIALIZE_MAX_FILES in Hge; lia].
    rewrite (file_slot_inside (files s) (id - 1) e)
      by (unfold MBEDTLS_SERIALIZE_MAX_FILES; lia || exact He).
    cbn [bind]. fold j. apply Z.eqb_neq in Hfile. rewrite Hfile.
    now rewrite list_insert_insert_eq. }
  set (s0 := set_files (<[j := cleared]> (files s))
               (set_platform (mbedtls_fclose (file e) (platform s)).2 s)).
  assert (Hget0 : get_file_from_id (files s0) id = Ret 0).
  { rewrite (get_file_from_id_inside _ id cleared); [reflexivity|assumption|].
    cbn [files s0 set_files]. apply list_lookup_insert_eq. fold j. lia. }
  exists (set_stack [] s0). split; [|split; [reflexivity|split]].
  - rewrite (perform_returns s _ 0 s0); [reflexivity|].
    rewrite (perform_FCLOSE_steps s (uint32_bytes id) rest id)
      by assumption.
    rewrite Hint, Hget. cbn [bind]. apply Z.eqb_neq in Hfile.
    rewrite Hfile, Hfree. reflexivity.
  - exact Hget0.
  - intros rest'.
    rewrite (perform_returns _ _ MBEDTLS_ERR_SERIALIZE_BAD_OUTPUT
               (set_stack (uint32_bytes id :: rest') (set_stack [] s0)));
      [reflexivity|].
    rewrite (perform_FCLOSE_steps _ (uint32_bytes id) rest' id)
      by (assumption || reflexivity).
    rewrite Hint. cbn [files set_stack] in *. rewrite Hget0. reflexivity.
Qed.

(** ** The message loop *)

Lemma mbedtls_serialize_read_marked fuel dev noise data rest b0 tl :
  steady dev = true ->
  stream dev = noise ++ open_brace :: open_brace :: data ++ rest ->
  Forall (fun b => b <> open_brace) noise ->
  (length data <= S (length tl))%nat ->
  (length (stream dev) + 3 <= fuel)%nat ->
  exists dev',
    mbedtls_serialize_read fuel dev (b0 :: tl) (Z.of_nat (length data))
    = Ret (0, dev', overwrite 0 data (open_brace :: tl))
    /\ steady dev' = true /\ stream dev' = rest.
Proof.
  intros Hst Hs Hnoise Hfit Hfuel.
  assert (Hlen : length (stream dev)
                 = (length noise + 2 + length (data ++ rest))%nat).
  { rewrite Hs, length_app. cbn [length]. lia. }
  destruct (sync_loop_skips noise fuel dev tl b0 0 (data ++ rest))
    as (dev1 & R1 & Hst1 & Hs1);
    [assumption | lia | assumption | assumption | lia | reflexivity |].
  pose proof (steady_length dev1 Hst1) as Hl1. rewrite Hs1 in Hl1.
  destruct (read_loop_steady dev1 fuel data rest (open_brace :: tl) 0)
    as (dev2 & R2 & Hst2 & Hs2);
    [lia | assumption | assumption | cbn [length]; lia |].
  exists dev2. unfold mbedtls_serialize_read. rewrite R1. cbn [bind].
  now rewrite R2.
Qed.

Lemma status_not_dead (s : state) :
  status s <> MBEDTLS_SERIALIZE_STATUS_DEAD ->
  status_eqb (status s) MBEDTLS_SERIALIZE_STATUS_DEAD = false.
Proof. destruct (status s); reflexivity || congruence. Qed.

Lemma overwrite_exact (data buffer : list byte) :
  length data = length buffer -> overwrite 0 data buffer = data.
Proof.
  intros Hlen. unfold overwrite.
  rewrite take_0, drop_ge, app_nil_r by (cbn; lia). reflexivity.
Qed.

(** X15. A push message, marker and header followed by marker and
    payload, of one byte or more and with memory for the item, puts the
    payload on top of the stack; the status stays, nothing is written,
    and the input after the payload is left for the next message. *)
Theorem pull_PUSH_adds_item fuel (s : state) a0 a1 a2 a3
    n1 h1 h2 h3 n2 payload rest w' :
  status s <> MBEDTLS_SERIALIZE_STATUS_DEAD ->
  steady (read_fd s) = true ->
  stream (read_fd s)
  = n1 ++ open_brace :: open_brace
       :: [MBEDTLS_SERIALIZE_TYPE_PUSH; h1; h2; h3]
       ++ n2 ++ open_brace :: open_brace :: payload ++ rest ->
  Forall (fun b => b <> open_brace) n1 ->
  Forall (fun b => b <> open_brace) n2 ->
  header_value h1 h2 h3 = Z.of_nat (length payload) ->
  payload <> [] -> Z.of_nat (length payload) < 2 ^ 24 ->
  mbedtls_calloc (sizeof_item + Z.of_nat (length payload)) (platform s)
  = (true, w') ->
  (length (stream (read_fd s)) + 3 <= fuel)%nat ->
  exists s',
    mbedtls_serialize_pull fuel [a0; a1; a2; a3] s = Ret (0, s')
    /\ stack s' = payload :: stack s
    /\ status s' = status s /\ sent s' = sent s
    /\ exitcode s' = exitcode s
    /\ steady (read_fd s') = true /\ stream (read_fd s') = rest.
Proof.
  intros Hst Hsteady Hs Hn1 Hn2 Hval Hne Hsize Halloc Hfuel.
  change (2 ^ 24) with 16777216 in Hsize.
  destruct (mbedtls_serialize_read_marked fuel (read_fd s) n1
              [MBEDTLS_SERIALIZE_TYPE_PUSH; h1; h2; h3]
              (n2 ++ open_brace :: open_brace :: payload ++ rest)
              a0 [a1; a2; a3])
    as (dev1 & R1 & Hst1 & Hs1);
    [assumption | assumption | assumption | cbn [length]; lia | exact Hfuel |].
  assert (Hshorter : (length (stream dev1) <= length (stream (read_fd s)))%nat).
  { rewrite Hs, Hs1, !length_app. cbn [length]. rewrite !length_app.
    cbn [length]. rewrite length_app. lia. }
  destruct payload as [|p payload]; [congruence|].
  destruct (mbedtls_serialize_read_marked fuel dev1 n2 (p :: payload) rest
              0 (replicate (length payload) 0))
    as (dev2 & R2 & Hst2 & Hs2);
    [ assumption | assumption | assumption
    | rewrite length_replicate; cbn [length]; lia | lia |].
  unfold mbedtls_serialize_pull.
  rewrite status_not_dead by assumption.
  cbn [length] in R1. change (Z.of_nat 4) with 4 in R1.
  rewrite R1. cbn [bind overwrite take drop app length Nat.add].
  change (0 =? 0) with true. cbv iota. rewrite Z.eqb_refl, Hval.
  unfold pull_push, alloc_item. cbn [platform set_read_fd].
  rewrite to_size_t_small
    by (unfold sizeof_item; change (2 ^ 64) with 18446744073709551616; lia).
  rewrite Halloc.
  destruct (Z.leb_spec (2 ^ 64) (sizeof_item + Z.of_nat (length (p :: payload))))
    as [Hov|_];
    [unfold sizeof_item in Hov;
     change (2 ^ 64) with 18446744073709551616 in Hov; lia|].
  cbn [bind]. rewrite Nat2Z.id.
  cbn [length replicate read_fd set_platform set_read_fd].
  lazymatch type of R2 with
  | ?lhs = _ =>
      match goal with
      | |- context [mbedtls_serialize_read fuel dev1 ?b ?l] =>
          change (mbedtls_serialize_read fuel dev1 b l) with lhs
      end
  end.
  rewrite R2. cbn [bind].
  change (0 =? 0) with true. cbv iota.
  rewrite overwrite_exact
    by (cbn [length]; now rewrite length_replicate).
  eexists. split; [reflexivity|]. now repeat split.
Qed.


Lemma discard_payload_short fuel n dev header length dev' header' :
  0 < length <= 4 ->
  mbedtls_serialize_read fuel dev header length = Ret (0, dev', header') ->
  (1 <= n)%nat ->
  discard_payload fuel n dev header length = Ret (0, dev').
Proof.
  intros Hlen Hread Hn. destruct n as [|n]; [lia|].
  cbn [discard_payload].
  destruct (Z.ltb_spec 0 length); [|lia].
  destruct (Z.ltb_spec 4 length); [lia|].
  rewrite Hread. cbn [bind]. change (0 =? 0) with true. cbv iota.
  rewrite Z.sub_diag.
  destruct n; cbn [discard_payload]; reflexivity.
Qed.

(** X17. A push for which no memory is found, with a payload of one to
    four bytes behind its own marker: the payload is read and dropped,
    the status becomes [OUT_OF_MEMORY], [ALLOC_FAILED] is returned, the
    stack is as it was and nothing is written. *)
Theorem pull_PUSH_out_of_memory fuel (s : state) a0 a1 a2 a3
    n1 h1 h2 h3 n2 payload rest w' :
  status s <> MBEDTLS_SERIALIZE_STATUS_DEAD ->
  steady (read_fd s) = true ->
  stream (read_fd s)
  = n1 ++ open_brace :: open_brace
       :: [MBEDTLS_SERIALIZE_TYPE_PUSH; h1; h2; h3]
       ++ n2 ++ open_brace :: open_brace :: payload ++ rest ->
  Forall (fun b => b <> open_brace) n1 ->
  Forall (fun b => b <> open_brace) n2 ->
  header_value h1 h2 h3 = Z.of_nat (length payload) ->
  (1 <= length payload <= 4)%nat ->
  mbedtls_calloc (sizeof_item + Z.of_nat (length payload)) (platform s)
  = (false, w') ->
  (length (stream (read_fd s)) + 3 <= fuel)%nat ->
  exists s',
    mbedtls_serialize_pull fuel [a0; a1; a2; a3] s
    = Ret (MBEDTLS_ERR_SERIALIZE_ALLOC_FAILED, s')
    /\ status s' = MBEDTLS_SERIALIZE_STATUS_OUT_OF_MEMORY
    /\ stack s' = stack s /\ sent s' = sent s
    /\ steady (read_fd s') = true /\ stream (read_fd s') = rest.
Proof.
  intros Hst Hsteady Hs Hn1 Hn2 Hval Hlen Halloc Hfuel.
  destruct (mbedtls_serialize_read_marked fuel (read_fd s) n1
              [MBEDTLS_SERIALIZE_TYPE_PUSH; h1; h2; h3]
              (n2 ++ open_brace :: open_brace :: payload ++ rest)
              a0 [a1; a2; a3])
    as (dev1 & R1 & Hst1 & Hs1);
    [assumption | assumption | assumption | cbn [length]; lia | exact Hfuel |].
  assert (Hshorter : (length (stream dev1) <= length (stream (read_fd s)))%nat).
  { rewrite Hs, Hs1, !length_app. cbn [length]. rewrite !length_app.
    cbn [length]. rewrite length_app. lia. }
  destruct (mbedtls_serialize_read_marked fuel dev1 n2 payload rest
              MBEDTLS_SERIALIZE_TYPE_PUSH [h1; h2; h3])
    as (dev2 & R2 & Hst2 & Hs2);
    [ assumption | assumption | assumption | cbn [length]; lia | lia |].
  unfold mbedtls_serialize_pull.
  rewrite status_not_dead by assumption.
  cbn [length] in R1. change (Z.of_nat 4) with 4 in R1.
  rewrite R1. cbn [bind overwrite take drop app length Nat.add].
  change (0 =? 0) with true. cbv iota. rewrite Z.eqb_refl, Hval.
  unfold pull_push, alloc_item. cbn [platform set_read_fd].
  rewrite to_size_t_small
    by (unfold sizeof_item; change (2 ^ 64) with 18446744073709551616; lia).
  rewrite Halloc. cbn [bind read_fd set_status set_platform set_read_fd].
  assert (Hfit : 0 < Z.of_nat (length payload) <= 4) by lia.
  assert (D : discard_payload fuel fuel dev1
                [MBEDTLS_SERIALIZE_TYPE_PUSH; h1; h2; h3]
                (Z.of_nat (length payload)) = Ret (0, dev2))
    by (apply (discard_payload_short _ _ _ _ _ _ _ Hfit R2); lia).
  lazymatch type of D with
  | ?lhs = _ =>
      match goal with
      | |- context [discard_payload fuel fuel dev1 ?b ?l] =>
          change (discard_payload fuel fuel dev1 b l) with lhs
      end
  end.
  rewrite D.
  cbn [bind]. change (0 =? 0) with true. cbv iota.
  eexists. split; [reflexivity|]. now repeat split.
Qed.

(** X18. A message whose type byte is neither push nor execute is
    answered by nothing: the channel is set to [DEAD], [BAD_INPUT] is
    returned, and the stack is left as it was. *)
Theorem pull_unknown_type_kills fuel (s : state) a0 a1 a2 a3
    n1 h0 h1 h2 h3 rest :
  status s <> MBEDTLS_SERIALIZE_STATUS_DEAD ->
  steady (read_fd s) = true ->
  stream (read_fd s)
  = n1 ++ open_brace :: open_brace :: [h0; h1; h2; h3] ++ rest ->
  Forall (fun b => b <> open_brace) n1 ->
  h0 <> MBEDTLS_SERIALIZE_TYPE_PUSH ->
  h0 <> MBEDTLS_SERIALIZE_TYPE_EXECUTE ->
  (length (stream (read_fd s)) + 3 <= fuel)%nat ->
  exists s',
    mbedtls_serialize_pull fuel [a0; a1; a2; a3] s
    = Ret (MBEDTLS_ERR_SERIALIZE_BAD_INPUT, s')
    /\ status s' = MBEDTLS_SERIALIZE_STATUS_DEAD
    /\ stack s' = stack s /\ sent s' = sent s
    /\ stream (read_fd s') = rest.
Proof.
  intros Hst Hsteady Hs Hn1 Hpush Hexec Hfuel.
  destruct (mbedtls_serialize_read_marked fuel (read_fd s) n1
              [h0; h1; h2; h3] rest a0 [a1; a2; a3])
    as (dev1 & R1 & Hst1 & Hs1);
    [assumption | assumption | assumption | cbn [length]; lia | exact Hfuel |].
  unfold mbedtls_serialize_pull.
  rewrite status_not_dead by assumption.
  cbn [length] in R1. change (Z.of_nat 4) with 4 in R1.
  rewrite R1. cbn [bind overwrite take drop app length Nat.add].
  change (0 =? 0) with true. cbv iota.
  apply Z.eqb_neq in Hpush, Hexec. rewrite Hpush, Hexec.
  eexists. split; [reflexivity|]. now repeat split.
Qed.

(** X19. [mbedtls_serialize_frontend] returns only with the channel
    [DEAD] or [EXITED], and what it returns is that status; entered in
    one of these two states it returns at once, reading nothing. *)
Theorem mbedtls_serialize_frontend_stops fuel n : forall header (s : state),
  (forall r s',
     mbedtls_serialize_frontend fuel n header s = Ret (r, s') ->
     (status s' = MBEDTLS_SERIALIZE_STATUS_DEAD
      \/ status s' = MBEDTLS_SERIALIZE_STATUS_EXITED)
     /\ r = status_value (status s'))
  /\ (status s = MBEDTLS_SERIALIZE_STATUS_DEAD
      \/ status s = MBEDTLS_SERIALIZE_STATUS_EXITED ->
      mbedtls_serialize_frontend fuel n header s
      = Ret (status_value (status s), s)).
Proof.
  induction n as [|n IH]; intros header s; cbn [mbedtls_serialize_frontend];
    (split; [intros r s' | intros [Hs|Hs]; rewrite Hs; reflexivity]).
  - destruct (status s) eqn:Hs; cbn [status_eqb status_value Z.eqb orb];
      try discriminate; intros [= <- <-]; rewrite Hs; auto.
  - destruct (status s) eqn:Hs; cbn [status_eqb status_value Z.eqb orb];
      try (intros [= <- <-]; rewrite Hs; now auto);
      (destruct (mbedtls_serialize_pull fuel header s) as [[r0 s0]| |];
       cbn [bind]; try discriminate; apply IH).
Qed.

Lemma mbedtls_serialize_write_accepting dev : forall out buffer,
  accepting dev = true ->
  exists dev', mbedtls_serialize_write dev out buffer
               = (0, dev', out ++ buffer)
               /\ accepting dev' = true.
Proof.
  induction dev as [|[n|] dev IH]; intros out buffer Hacc;
    cbn [mbedtls_serialize_write accepting] in *; try discriminate.
  - now exists [].
  - destruct (drop n buffer) as [|b rest] eqn:Hdrop.
    + exists dev. split; [|assumption]. do 2 f_equal.
      rewrite <- (take_drop n buffer) at 2. now rewrite Hdrop, app_nil_r.
    + rewrite <- Hdrop.
      destruct (IH (out ++ take n buffer) (drop n buffer) Hacc)
        as (dev' & -> & Hacc').
      exists dev'. split; [|assumption].
      now rewrite <- app_assoc, take_drop.
Qed.

Lemma send_args_accepting (s : state) args_size (args : list byte) :
  accepting (write_fd s) = true ->
  args_size = Z.of_nat (length args) -> args_size < 2 ^ 31 ->
  sent (send_args s args_size args)
  = sent s ++ start_sequence ++ uint32_bytes args_size ++ args
  /\ item_uint32 (uint32_bytes args_size) = Ret args_size
  /\ accepting (write_fd (send_args s args_size args)) = true
  /\ stack (send_args s args_size args) = stack s
  /\ status (send_args s args_size args) = status s.
Proof.
  intros Hacc Hsize Hmax. change (2 ^ 31) with 2147483648 in Hmax.
  assert (Hv : item_uint32 (uint32_bytes args_size) = Ret args_size).
  { rewrite <- (app_nil_r (uint32_bytes args_size)).
    apply item_uint32_uint32_bytes. lia. }
  unfold send_args.
  destruct (mbedtls_serialize_write_accepting (write_fd s) (sent s)
              start_sequence Hacc) as (d1 & -> & Hacc1).
  cbn [write_fd sent set_write_fd].
  destruct (Z.eqb_spec args_size 0) as [Hzero|Hpos].
  - destruct (mbedtls_serialize_write_accepting d1
                (sent s ++ start_sequence) [0; 0; 0; 0] Hacc1)
      as (d2 & -> & Hacc2).
    assert (args = []) as -> by (destruct args; [reflexivity|cbn in *; lia]).
    rewrite Hzero in *. cbn [write_fd sent set_write_fd stack status].
    rewrite app_nil_r, <- app_assoc. now repeat split.
  - destruct (mbedtls_serialize_write_accepting d1
                (sent s ++ start_sequence) (uint32_bytes args_size) Hacc1)
      as (d2 & -> & Hacc2).
    cbn [write_fd sent set_write_fd].
    destruct (mbedtls_serialize_write_accepting d2
                ((sent s ++ start_sequence) ++ uint32_bytes args_size)
                (take (Z.to_nat args_size) args) Hacc2)
      as (d3 & -> & Hacc3).
    cbn [write_fd sent set_write_fd stack status].
    rewrite Hsize, Nat2Z.id, firstn_all, <- !app_assoc.
    rewrite <- Hsize. now repeat split.
Qed.

(** X20. On a channel where no write fails, [send_args] writes the start
    sequence ["mbed{{"], the size of the arguments as four bytes, most
    significant first, and the arguments; the size is read back from
    those four bytes; the stack and the status are not touched. *)
Theorem send_args_layout (s : state) args_size (args : list byte) :
  accepting (write_fd s) = true ->
  args_size = Z.of_nat (length args) -> args_size < 2 ^ 31 ->
  sent (send_args s args_size args)
  = sent s ++ start_sequence ++ uint32_bytes args_size ++ args
  /\ item_uint32 (uint32_bytes args_size) = Ret args_size
  /\ accepting (write_fd (send_args s args_size args)) = true
  /\ stack (send_args s args_size args) = stack s
  /\ status (send_args s args_size args) = status s.
Proof. exact (send_args_accepting s args_size args). Qed.

Lemma read_one_more dev tail b l :
  steady dev = true -> stream dev = b :: l ->
  exists dev', read (dev ++ tail) 1 = (1, [b], dev' ++ tail)
               /\ steady dev' = true /\ stream dev' = l.
Proof.
  destruct dev as [|[bs|] dev]; cbn [steady stream]; try discriminate.
  destruct bs as [|b' bs]; [discriminate|].
  intros Hst Hs. cbn in Hs. injection Hs as -> <-.
  cbn [read app]. change (Z.to_nat 1) with 1%nat. cbn [take drop length].
  rewrite take_0, drop_0.
  destruct bs as [|b'' bs].
  - exists dev. now repeat split.
  - exists (Bytes (b'' :: bs) :: dev). now repeat split.
Qed.

Lemma sync_loop_error noise : forall fuel dev tail tl b0 token_count,
  Forall (fun b => b <> open_brace) noise ->
  (length noise + 1 <= fuel)%nat -> steady dev = true ->
  stream dev = noise -> token_count < 2 ->
  exists buffer,
    sync_loop fuel (dev ++ RError :: tail) (b0 :: tl) token_count
    = Ret (false, tail, buffer).
Proof.
  induction noise as [|x noise IH];
    intros fuel dev tail tl b0 token_count Hnoise Hfuel Hst Hs Htc;
    (destruct fuel as [|fuel]; [cbn [length] in Hfuel; lia|]);
    cbn [sync_loop]; (destruct (Z.ltb_spec token_count 2); [|lia]).
  - destruct dev as [|[[|b bs]|] dev]; try discriminate.
    cbn [app read]. change (-1 <? 0) with true. cbv iota. eauto.
  - destruct (read_one_more dev (RError :: tail) x noise Hst Hs)
      as (dev1 & R1 & Hst1 & Hs1).
    rewrite R1. change (1 <? 0) with false. cbv iota.
    pose proof (Forall_inv Hnoise) as Hx.
    destruct (Z.eqb_spec x open_brace); [contradiction|].
    apply IH; auto; [now apply Forall_inv_tail in Hnoise | cbn [length] in Hfuel; lia | lia].
Qed.

(** X21. A [read] that fails while the marker is searched ends the
    channel: the message loop returns [RECEIVE] (a non-zero code) and
    sets the status to [DEAD], with the stack as it was and nothing
    written. *)
Theorem pull_read_error_kills fuel (s : state) a0 a1 a2 a3 dev noise tail :
  MBEDTLS_ERR_SERIALIZE_RECEIVE <> 0 ->
  status s <> MBEDTLS_SERIALIZE_STATUS_DEAD ->
  read_fd s = dev ++ RError :: tail ->
  steady dev = true -> stream dev = noise ->
  Forall (fun b => b <> open_brace) noise ->
  (length noise + 1 <= fuel)%nat ->
  exists s',
    mbedtls_serialize_pull fuel [a0; a1; a2; a3] s
    = Ret (MBEDTLS_ERR_SERIALIZE_RECEIVE, s')
    /\ status s' = MBEDTLS_SERIALIZE_STATUS_DEAD
    /\ stack s' = stack s /\ sent s' = sent s /\ read_fd s' = tail.
Proof.
  intros Herr Hst Hdev Hsteady Hs Hnoise Hfuel.
  destruct (sync_loop_error noise fuel dev tail [a1; a2; a3] a0 0)
    as (buffer & Hsync); [assumption | assumption | assumption
                         | assumption | lia |].
  unfold mbedtls_serialize_pull, mbedtls_serialize_read.
  rewrite status_not_dead by assumption.
  rewrite Hdev, Hsync. cbn [bind].
  apply Z.eqb_neq in Herr. rewrite Herr.
  eexists. split; [reflexivity|]. now repeat split.
Qed.

(** X22. A [write] that fails at the start of the reply to a dispatched
    execute message ends the channel: nothing is written, [SEND] (a
    non-zero code) is returned and the status is [DEAD]. *)
Theorem pull_write_error_kills
    fuel header (s : state) dev' h1 h2 h3 st outs s1 wtail :
  MBEDTLS_SERIALIZE_TYPE_EXECUTE <> MBEDTLS_SERIALIZE_TYPE_PUSH ->
  4 <= MBEDTLS_SERIALIZE_MAX_STRING_LENGTH ->
  MBEDTLS_ERR_SERIALIZE_SEND <> 0 ->
  status s = MBEDTLS_SERIALIZE_STATUS_OK ->
  mbedtls_serialize_read fuel (read_fd s) header 4
  = Ret (0, dev', [MBEDTLS_SERIALIZE_TYPE_EXECUTE; h1; h2; h3]) ->
  mbedtls_serialize_perform (set_read_fd dev' s) (header_value h1 h2 h3)
    (replicate 16 None) = Ret (st, outs, s1) ->
  st <> status_value MBEDTLS_SERIALIZE_STATUS_EXITED ->
  write_fd s = WError :: wtail ->
  exists s',
    mbedtls_serialize_pull fuel header s
    = Ret (MBEDTLS_ERR_SERIALIZE_SEND, s')
    /\ status s' = MBEDTLS_SERIALIZE_STATUS_DEAD
    /\ sent s' = sent s /\ write_fd s' = wtail /\ stack s' = [].
Proof.
  intros Hne Hmax Herr Hst Hread Hperf Hexit Hw.
  rewrite (pull_execute_step fuel header s dev' h1 h2 h3)
    by (assumption || congruence).
  rewrite (pull_execute_dispatch _ _ _ st outs s1)
    by (assumption || (cbn [status set_read_fd]; congruence)).
  apply Z.eqb_neq in Hexit. rewrite Hexit.
  pose proof (perform_keeps_channel _ _ _ _ _ _ Hperf) as Hch.
  unfold channel in Hch. cbn [read_fd write_fd sent set_read_fd] in Hch.
  injection Hch as Hrd Hwr Hsent.
  destruct (perform_discards _ _ _ _ _ _ Hperf) as [Hstack _].
  unfold send_reply.
  change (take 17 (Some (uint32_bytes st) :: outs))
    with (Some (uint32_bytes st) :: take 16 outs).
  cbn [send_results]. unfold mbedtls_serialize_send_result.
  change (item_size (uint32_bytes st)) with 4.
  destruct (Z.ltb_spec MBEDTLS_SERIALIZE_MAX_STRING_LENGTH 4); [lia|].
  rewrite Hwr, Hw. cbn [mbedtls_serialize_write].
  apply Z.eqb_neq in Herr. rewrite Herr.
  cbv beta iota zeta. rewrite Herr.
  eexists. split; [reflexivity|].
  cbn [status sent write_fd stack set_status set_write_fd].
  now repeat split.
Qed.

Lemma count_args_sum args : forall n,
  0 <= n ->
  n + Z.of_nat (length (concat (map (fun a => a ++ [0]) args))) < 2147483648 ->
  count_args args n
  = n + Z.of_nat (length (concat (map (fun a => a ++ [0]) args))).
Proof.
  induction args as [|a args IH]; intros n Hn Hsum;
    cbn [count_args map concat] in Hsum |- *; unfold byte in *.
  - cbn [length] in *. lia.
  - rewrite !length_app in Hsum |- *. cbn [length] in Hsum |- *.
    rewrite to_int_small by lia. rewrite IH by lia. lia.
Qed.

Lemma copy_args_fills args : forall (pre junk : list byte),
  length junk = length (concat (map (fun a => a ++ [0]) args)) ->
  Z.of_nat (length pre + length junk) < 2147483648 ->
  copy_args args (Z.of_nat (length pre)) (Some (pre ++ junk))
  = Ret (Some (pre ++ concat (map (fun a => a ++ [0]) args))).
Proof.
  induction args as [|a args IH]; intros pre junk Hlen Hsum;
    cbn [copy_args map concat] in Hlen |- *; unfold byte in *.
  - destruct junk; [now rewrite app_nil_r | discriminate].
  - rewrite !length_app in Hlen. cbn [length] in Hlen.
    rewrite (to_int_small (Z.of_nat (length a))) by lia.
    rewrite to_size_t_small
      by (change (2 ^ 64) with 18446744073709551616; lia).
    rewrite length_app.
    destruct (Z.leb_spec 0 (Z.of_nat (length pre))); [|lia].
    destruct (Z.leb_spec (Z.of_nat (length a) + 1) (Z.of_nat (length a) + 1));
      [|lia].
    destruct (Z.leb_spec (Z.of_nat (length pre) + (Z.of_nat (length a) + 1))
                (Z.of_nat (length pre + length junk))); [|lia].
    cbn [andb]. rewrite to_int_small by lia. rewrite Nat2Z.id.
    replace (Z.to_nat (Z.of_nat (length a) + 1)) with (length (a ++ [0%Z]))
      by (rewrite length_app; cbn [length]; lia).
    rewrite firstn_all.
    replace (overwrite (length pre) (a ++ [0]) (pre ++ junk))
      with ((pre ++ a ++ [0]) ++ drop (length (a ++ [0%Z])) junk).
    2: { unfold overwrite. rewrite take_app_length, drop_app_add'
           by reflexivity. now rewrite <- app_assoc. }
    replace (Z.of_nat (length pre) + (Z.of_nat (length a) + 1))
      with (Z.of_nat (length (pre ++ a ++ [0%Z])))
      by (rewrite !length_app; cbn [length]; lia).
    assert (Hfit : (length (a ++ [0%Z]) <= length junk)%nat)
      by (rewrite length_app; cbn [length]; lia).
    rewrite IH.
    + now rewrite <- !app_assoc.
    + rewrite length_drop, length_app. cbn [length]. lia.
    + rewrite length_drop, !length_app in *. cbn [length] in *. lia.
Qed.

Lemma pack_args_filled args (buffer : list byte) :
  Z.of_nat (length (concat (map (fun a => a ++ [0]) args))) < 2 ^ 31 ->
  Z.of_nat (length buffer) = count_args args 0 ->
  pack_args args (Some buffer)
  = Ret (Z.of_nat (length (concat (map (fun a => a ++ [0]) args))),
         Some (concat (map (fun a => a ++ [0]) args))).
Proof.
  intros Hsum Hlen. change (2 ^ 31) with 2147483648 in Hsum.
  unfold byte in *.
  rewrite count_args_sum in Hlen by (unfold byte; lia).
  rewrite Z.add_0_l in Hlen. apply Nat2Z.inj in Hlen.
  pose proof (copy_args_fills args [] buffer Hlen) as Hcopy.
  cbn [length app Nat.add] in Hcopy. change (Z.of_nat 0) with 0 in Hcopy.
  unfold pack_args. unfold byte in *. rewrite Hcopy by lia. cbn [bind].
  rewrite count_args_sum by (unfold byte; lia). reflexivity.
Qed.

(** X23. The end of [read_args]: with a buffer of the counted size, and
    less than [2 ^ 31] bytes in all, the buffer is filled with the
    arguments in order, each followed by its NUL, and the length
    recorded is the number of bytes of the buffer. *)
Theorem pack_args_joins args (buffer : list byte) :
  Z.of_nat (length (concat (map (fun a => a ++ [0]) args))) < 2 ^ 31 ->
  Z.of_nat (length buffer) = count_args args 0 ->
  pack_args args (Some buffer)
  = Ret (Z.of_nat (length (concat (map (fun a => a ++ [0]) args))),
         Some (concat (map (fun a => a ++ [0]) args))).
Proof. exact (pack_args_filled args buffer). Qed.

(** X24. [read_args] followed by [send_args], as in [main], on a channel
    where no write fails: what is sent is the start sequence, the total
    size as four bytes, and the arguments, each with its NUL. *)
Theorem pack_args_then_send_args (s : state) args (buffer : list byte) :
  accepting (write_fd s) = true ->
  Z.of_nat (length (concat (map (fun a => a ++ [0]) args))) < 2 ^ 31 ->
  Z.of_nat (length buffer) = count_args args 0 ->
  exists sub_args_len sub_args,
    pack_args args (Some buffer) = Ret (sub_args_len, Some sub_args)
    /\ sent (send_args s sub_args_len sub_args)
       = sent s ++ start_sequence ++ uint32_bytes sub_args_len
         ++ concat (map (fun a => a ++ [0]) args)
    /\ item_uint32 (uint32_bytes sub_args_len)
       = Ret (Z.of_nat (length (concat (map (fun a => a ++ [0]) args)))).
Proof.
  intros Hacc Hsum Hlen.
  eexists _, _. split; [exact (pack_args_filled args buffer Hsum Hlen)|].
  destruct (send_args_accepting s _
              (concat (map (fun a => a ++ [0]) args)) Hacc eq_refl Hsum)
    as (Hsent & Hsize & _).
  split; [exact Hsent | exact Hsize].
Qed.

End Further.

(** * The channel on any input and any output *)

Section Wire.
Context `{serialize_h} `{Host}.

(** ** The marker search *)

Lemma feeds_delivers dev : forall remaining,
  feeds dev remaining = true -> delivers dev remaining = true.
Proof.
  induction dev as [|[[|b bs]|] dev IH]; intros remaining;
    cbn [feeds delivers]; try discriminate; [|reflexivity].
  intros Hf. apply orb_true_iff in Hf as [Hf|Hf]; apply orb_true_iff;
    [now left | right; now apply IH].
Qed.

(** The marker search needs one turn for each byte up to the end of the
    marker, and stops behind the first marker. *)
Lemma sync_loop_finds n : forall noise fuel dev tl b0 l,
  (length noise <= n)%nat -> no_marker noise = true ->
  steady dev = true ->
  stream dev = noise ++ open_brace :: open_brace :: l ->
  exists dev',
    steady dev' = true /\ stream dev' = l
    /\ sync_loop fuel dev (b0 :: tl) 0
       = if (length noise + 2 <=? fuel)%nat
         then Ret (true, dev', open_brace :: tl) else OutOfFuel.
Proof.
  induction n as [|n IH]; intros noise fuel dev tl b0 l Hn Hq Hst Hs.
  - destruct noise; [|cbn in Hn; lia]. cbn [app length Nat.add] in *.
    destruct (read_one _ _ _ Hst Hs) as (dev1 & R1 & Hst1 & Hs1).
    destruct (read_one _ _ _ Hst1 Hs1) as (dev2 & R2 & Hst2 & Hs2).
    exists dev2. split; [assumption|]. split; [assumption|].
    destruct fuel as [|[|fuel]]; [reflexivity| |].
    + cbn [sync_loop]. change (0 <? 2) with true. cbv iota.
      rewrite R1. change (1 <? 0) with false. cbv iota.
      rewrite Z.eqb_refl. reflexivity.
    + cbn [sync_loop]. change (0 <? 2) with true. cbv iota.
      rewrite R1. change (1 <? 0) with false. cbv iota.
      rewrite Z.eqb_refl. change (0 + 1 <? 2) with true. cbv iota.
      rewrite R2. change (1 <? 0) with false. cbv iota.
      rewrite Z.eqb_refl.
      destruct fuel; cbn [sync_loop]; change (0 + 1 + 1 <? 2) with false;
        reflexivity.
  - destruct noise as [|x noise].
    { apply (IH [] fuel dev tl b0 l); [cbn; lia | assumption..]. }
    cbn [no_marker] in Hq. cbn [app] in Hs.
    destruct (read_one _ _ _ Hst Hs) as (dev1 & R1 & Hst1 & Hs1).
    destruct (Z.eqb_spec x open_brace) as [Hx|Hx].
    + (* a lone brace: the count goes to 1 and back to 0 *)
      destruct noise as [|y noise]; [discriminate|].
      apply andb_true_iff in Hq as [Hy Hq]. apply negb_true_iff in Hy.
      cbn [app] in Hs1.
      destruct (read_one _ _ _ Hst1 Hs1) as (dev2 & R2 & Hst2 & Hs2).
      destruct (IH noise (fuel - 2)%nat dev2 tl y l)
        as (dev' & Hst' & Hs' & R); [cbn in Hn; lia | assumption..|].
      exists dev'. split; [assumption|]. split; [assumption|].
      cbn [length].
      destruct fuel as [|[|fuel]]; [reflexivity| |].
      * cbn [sync_loop]. change (0 <? 2) with true. cbv iota.
        rewrite R1. change (1 <? 0) with false. cbv iota.
        subst x. rewrite Z.eqb_refl.
        destruct (Nat.leb_spec (S (S (length noise)) + 2) 1); [lia|].
        reflexivity.
      * cbn [sync_loop]. change (0 <? 2) with true. cbv iota.
        rewrite R1. change (1 <? 0) with false. cbv iota.
        subst x. rewrite Z.eqb_refl. change (0 + 1 <? 2) with true. cbv iota.
        rewrite R2. change (1 <? 0) with false. cbv iota.
        rewrite Hy.
        replace (S (S fuel) - 2)%nat with fuel in R by lia. rewrite R.
        destruct (Nat.leb_spec (length noise + 2) fuel);
          destruct (Nat.leb_spec (S (S (length noise)) + 2) (S (S fuel)));
          (reflexivity || lia).
    + destruct (IH noise (fuel - 1)%nat dev1 tl x l)
        as (dev' & Hst' & Hs' & R); [cbn in Hn; lia | assumption..|].
      exists dev'. split; [assumption|]. split; [assumption|].
      cbn [length].
      destruct fuel as [|fuel]; [reflexivity|].
      cbn [sync_loop]. change (0 <? 2) with true. cbv iota.
      rewrite R1. change (1 <? 0) with false. cbv iota.
      apply Z.eqb_neq in Hx. rewrite Hx.
      replace (S fuel - 1)%nat with fuel in R by lia. rewrite R.
      destruct (Nat.leb_spec (length noise + 2) fuel);
        destruct (Nat.leb_spec (S (length noise) + 2) (S fuel));
        (reflexivity || lia).
Qed.

Lemma mbedtls_serialize_read_finds fuel dev noise data rest b0 tl :
  steady dev = true ->
  stream dev = noise ++ open_brace :: open_brace :: data ++ rest ->
  no_marker noise = true ->
  (length data <= S (length tl))%nat ->
  (length (stream dev) + 3 <= fuel)%nat ->
  exists dev',
    mbedtls_serialize_read fuel dev (b0 :: tl) (Z.of_nat (length data))
    = Ret (0, dev', overwrite 0 data (open_brace :: tl))
    /\ steady dev' = true /\ stream dev' = rest.
Proof.
  intros Hst Hs Hnoise Hfit Hfuel.
  assert (Hlen : length (stream dev)
                 = (length noise + 2 + length (data ++ rest))%nat).
  { rewrite Hs, length_app. cbn [length]. lia. }
  destruct (sync_loop_finds (length noise) noise fuel dev tl b0
              (data ++ rest)) as (dev1 & Hst1 & Hs1 & R1);
    [lia | assumption | assumption | assumption |].
  destruct (Nat.leb_spec (length noise + 2) fuel); [|lia].
  pose proof (steady_length dev1 Hst1) as Hl1. rewrite Hs1 in Hl1.
  destruct (read_loop_steady dev1 fuel data rest (open_brace :: tl) 0)
    as (dev2 & R2 & Hst2 & Hs2);
    [lia | assumption | assumption | cbn [length]; lia |].
  exists dev2. unfold mbedtls_serialize_read. rewrite R1. cbn [bind].
  now rewrite R2.
Qed.

(** ** When the second loop returns *)

Lemma read_loop_delivers dev : forall buffer off remaining,
  0 < remaining -> delivers dev remaining = true ->
  exists r, forall fuel, (length dev <= fuel)%nat ->
    read_loop fuel dev buffer off remaining = Ret r.
Proof.
  induction dev as [|c dev IH]; intros buffer off remaining Hpos Hd;
    [discriminate|].
  destruct c as [bs|].
  - cbn [delivers] in Hd.
    assert (Hlen : length (take (Z.to_nat remaining) bs)
                   = Nat.min (Z.to_nat remaining) (length bs))
      by apply length_take.
    destruct (Z.leb_spec remaining (Z.of_nat (length bs))) as [Hle|Hgt].
    + eexists. intros fuel Hfuel. cbn [length] in Hfuel.
      destruct fuel as [|fuel]; [lia|]. cbn [read_loop read].
      destruct (Z.ltb_spec
                  (Z.of_nat (length (take (Z.to_nat remaining) bs))) 0);
        [lia|].
      destruct (Z.ltb_spec 0
        (remaining - Z.of_nat (length (take (Z.to_nat remaining) bs))));
        [lia|].
      reflexivity.
    + cbn [orb] in Hd.
      destruct (IH (overwrite off bs buffer) (off + length bs)%nat
                  (remaining - Z.of_nat (length bs)))
        as [r Hr]; [lia | assumption |].
      exists r. intros fuel Hfuel. cbn [length] in Hfuel.
      destruct fuel as [|fuel]; [lia|]. cbn [read_loop read].
      rewrite take_ge, drop_ge by lia.
      destruct (Z.ltb_spec (Z.of_nat (length bs)) 0); [lia|].
      destruct (Z.ltb_spec 0 (remaining - Z.of_nat (length bs))); [|lia].
      apply Hr. lia.
  - eexists. intros fuel Hfuel. cbn [length] in Hfuel.
    destruct fuel as [|fuel]; [lia|]. cbn [read_loop read].
    change (-1 <? 0) with true. reflexivity.
Qed.

Lemma read_loop_starves dev : forall fuel buffer off remaining,
  0 < remaining -> delivers dev remaining = false ->
  read_loop fuel dev buffer off remaining = OutOfFuel.
Proof.
  induction dev as [|c dev IH]; intros fuel buffer off remaining Hpos Hd.
  - now apply read_loop_eof.
  - destruct c as [bs|]; [|discriminate].
    cbn [delivers] in Hd. apply orb_false_iff in Hd as [Hgt Hd].
    apply Z.leb_gt in Hgt.
    destruct fuel as [|fuel]; [reflexivity|]. cbn [read_loop read].
    rewrite take_ge, drop_ge by lia.
    destruct (Z.ltb_spec (Z.of_nat (length bs)) 0); [lia|].
    destruct (Z.ltb_spec 0 (remaining - Z.of_nat (length bs))); [|lia].
    apply IH; [lia | assumption].
Qed.

Lemma steady_short dev : forall remaining,
  steady dev = true -> Z.of_nat (length (stream dev)) < remaining ->
  delivers dev remaining = false.
Proof.
  induction dev as [|[bs|] dev IH]; intros remaining Hst Hlen;
    cbn [steady stream delivers] in *; try discriminate; [reflexivity|].
  destruct bs as [|b bs]; [discriminate|].
  rewrite length_app in Hlen.
  apply orb_false_iff. split; [apply Z.leb_gt; lia|].
  apply IH; [assumption | lia].
Qed.

(** The reader on a stream that ends behind the marker with fewer bytes
    than are asked for. *)
Lemma mbedtls_serialize_read_starves fuel dev noise got b0 tl length :
  steady dev = true ->
  stream dev = noise ++ open_brace :: open_brace :: got ->
  no_marker noise = true ->
  Z.of_nat (List.length got) < length ->
  mbedtls_serialize_read fuel dev (b0 :: tl) length = OutOfFuel.
Proof.
  intros Hst Hs Hnoise Hshort.
  destruct (sync_loop_finds (List.length noise) noise fuel dev tl b0 got)
    as (dev1 & Hst1 & Hs1 & R1);
    [lia | assumption | assumption | assumption |].
  unfold mbedtls_serialize_read. rewrite R1.
  destruct (_ <=? fuel)%nat; [|reflexivity]. cbn [bind].
  apply read_loop_starves; [lia|].
  apply steady_short; [assumption|]. now rewrite Hs1.
Qed.

(** More turns do not change a result. *)
Lemma sync_loop_more fuel : forall dev buffer token_count r fuel',
  sync_loop fuel dev buffer token_count = r -> r <> OutOfFuel ->
  (fuel <= fuel')%nat ->
  sync_loop fuel' dev buffer token_count = r.
Proof.
  induction fuel as [|fuel IH]; intros dev buffer token_count r fuel' Hr Hne Hle.
  - cbn [sync_loop] in Hr. destruct fuel'; cbn [sync_loop];
      destruct (token_count <? 2); congruence.
  - destruct fuel' as [|fuel']; [lia|]. cbn [sync_loop] in *.
    destruct (token_count <? 2); [|assumption].
    destruct buffer as [|b0 tl]; [assumption|].
    destruct (read dev 1) as [[n got] dev'].
    destruct (n <? 0); [assumption|].
    destruct (_ =? open_brace); apply (IH _ _ _ _ _ Hr Hne); lia.
Qed.

Lemma read_loop_more fuel : forall dev buffer off remaining r fuel',
  read_loop fuel dev buffer off remaining = r -> r <> OutOfFuel ->
  (fuel <= fuel')%nat ->
  read_loop fuel' dev buffer off remaining = r.
Proof.
  induction fuel as [|fuel IH]; intros dev buffer off remaining r fuel' Hr Hne Hle.
  - cbn [read_loop] in Hr. congruence.
  - destruct fuel' as [|fuel']; [lia|]. cbn [read_loop] in *.
    destruct (read dev remaining) as [[n got] dev'].
    destruct (n <? 0); [assumption|].
    destruct (0 <? remaining - n); [|assumption].
    apply (IH _ _ _ _ _ _ Hr Hne). lia.
Qed.

Lemma mbedtls_serialize_read_more fuel fuel' dev buffer length r :
  mbedtls_serialize_read fuel dev buffer length = r -> r <> OutOfFuel ->
  (fuel <= fuel')%nat ->
  mbedtls_serialize_read fuel' dev buffer length = r.
Proof.
  unfold mbedtls_serialize_read. intros Hr Hne Hle.
  destruct (sync_loop fuel dev buffer 0) as [[[synced d] b]| |] eqn:Hs;
    cbn [bind] in Hr; [| |congruence].
  - rewrite (sync_loop_more _ _ _ _ _ fuel' Hs) by (discriminate || lia).
    cbn [bind]. destruct synced; [|assumption].
    now apply (read_loop_more fuel).
  - rewrite (sync_loop_more _ _ _ _ _ fuel' Hs) by (discriminate || lia).
    assumption.
Qed.

(** With any bound, the reader has run out of turns or has its result. *)
Lemma mbedtls_serialize_read_any fuel fuel0 dev buffer length r :
  mbedtls_serialize_read fuel0 dev buffer length = Ret r ->
  mbedtls_serialize_read fuel dev buffer length = OutOfFuel
  \/ mbedtls_serialize_read fuel dev buffer length = Ret r.
Proof.
  intros Hbig.
  destruct (Nat.le_ge_cases fuel0 fuel) as [Hle|Hge].
  - right. now apply (mbedtls_serialize_read_more fuel0 fuel _ _ _ _ Hbig).
  - destruct (mbedtls_serialize_read fuel dev buffer length) as [x|f|] eqn:E;
      [right | exfalso | now left].
    + apply (mbedtls_serialize_read_more _ fuel0) in E;
        [congruence | discriminate | assumption].
    + apply (mbedtls_serialize_read_more _ fuel0) in E;
        [congruence | discriminate | assumption].
Qed.

Lemma pull_header_starves fuel (s : state) a0 a1 a2 a3 noise got :
  status s <> MBEDTLS_SERIALIZE_STATUS_DEAD ->
  steady (read_fd s) = true ->
  stream (read_fd s) = noise ++ open_brace :: open_brace :: got ->
  no_marker noise = true -> (length got < 4)%nat ->
  mbedtls_serialize_pull fuel [a0; a1; a2; a3] s = OutOfFuel.
Proof.
  intros Hst Hsteady Hs Hnoise Hshort. unfold mbedtls_serialize_pull.
  rewrite status_not_dead by assumption.
  rewrite (mbedtls_serialize_read_starves fuel (read_fd s) noise got)
    by (assumption || lia).
  reflexivity.
Qed.

Lemma pull_payload_starves fuel (s : state) a0 a1 a2 a3
    n1 h1 h2 h3 n2 got w' :
  status s <> MBEDTLS_SERIALIZE_STATUS_DEAD ->
  steady (read_fd s) = true ->
  stream (read_fd s)
  = n1 ++ open_brace :: open_brace
       :: [MBEDTLS_SERIALIZE_TYPE_PUSH; h1; h2; h3]
       ++ n2 ++ open_brace :: open_brace :: got ->
  no_marker n1 = true -> no_marker n2 = true ->
  Z.of_nat (length got) < header_value h1 h2 h3 < 2 ^ 24 ->
  mbedtls_calloc (sizeof_item + header_value h1 h2 h3) (platform s)
  = (true, w') ->
  mbedtls_serialize_pull fuel [a0; a1; a2; a3] s = OutOfFuel.
Proof.
  intros Hst Hsteady Hs Hn1 Hn2 [Hshort Hsize] Halloc.
  change (2 ^ 24) with 16777216 in Hsize.
  destruct (mbedtls_serialize_read_finds (length (stream (read_fd s)) + 3)
              (read_fd s) n1 [MBEDTLS_SERIALIZE_TYPE_PUSH; h1; h2; h3]
              (n2 ++ open_brace :: open_brace :: got) a0 [a1; a2; a3])
    as (dev1 & R1 & Hst1 & Hs1);
    [assumption | assumption | assumption | cbn [length]; lia | lia |].
  cbn [length] in R1. change (Z.of_nat 4) with 4 in R1.
  unfold mbedtls_serialize_pull. rewrite status_not_dead by assumption.
  destruct (mbedtls_serialize_read_any fuel _ _ _ _ _ R1) as [E|E];
    rewrite E; [reflexivity|].
  cbn [bind overwrite take drop app length Nat.add].
  change (0 =? 0) with true. cbv iota. rewrite Z.eqb_refl.
  unfold pull_push, alloc_item. cbn [platform set_read_fd].
  rewrite to_size_t_small
    by (unfold sizeof_item; change (2 ^ 64) with 18446744073709551616; lia).
  rewrite Halloc.
  destruct (Z.leb_spec (2 ^ 64) (sizeof_item + header_value h1 h2 h3))
    as [Hov|_];
    [unfold sizeof_item in Hov;
     change (2 ^ 64) with 18446744073709551616 in Hov; lia|].
  cbn [bind read_fd set_platform set_read_fd].
  destruct (Z.to_nat (header_value h1 h2 h3)) as [|k] eqn:Hk; [lia|].
  cbn [replicate].
  rewrite (mbedtls_serialize_read_starves fuel dev1 n2 got)
    by (assumption || lia).
  reflexivity.
Qed.

(** C10, as the code has it. The do-while loop of
    [mbedtls_serialize_read] returns exactly when, before the device is
    used up, a [read] fails or the bytes asked for have been delivered.
    That is so when every [read] delivers at least one byte or fails,
    and also when some return 0 and later ones deliver the rest. When
    the device is used up first, so that [read] returns 0 while bytes
    remain, the loop does not return, whatever the bound on its turns;
    nor do then [mbedtls_serialize_read] and [mbedtls_serialize_pull],
    be it at the end of the stream on entry, in the middle of a header
    or in the middle of a payload: no state is produced, and none with
    the status [DEAD]. *)
Theorem read_loop_returns_only_on_progress :
  (forall dev buffer off remaining,
     0 < remaining -> delivers dev remaining = true ->
     exists r, forall fuel, (length dev <= fuel)%nat ->
       read_loop fuel dev buffer off remaining = Ret r)
  /\ (forall dev remaining,
        feeds dev remaining = true -> delivers dev remaining = true)
  /\ (forall dev buffer off remaining fuel,
        0 < remaining -> delivers dev remaining = false ->
        read_loop fuel dev buffer off remaining = OutOfFuel)
  /\ (forall fuel buffer length,
        0 < length -> buffer <> [] ->
        mbedtls_serialize_read fuel [] buffer length = OutOfFuel)
  /\ (forall fuel dev noise got b0 tl length,
        steady dev = true ->
        stream dev = noise ++ open_brace :: open_brace :: got ->
        no_marker noise = true -> Z.of_nat (List.length got) < length ->
        mbedtls_serialize_read fuel dev (b0 :: tl) length = OutOfFuel)
  /\ (forall fuel header (s : state),
        status s <> MBEDTLS_SERIALIZE_STATUS_DEAD -> read_fd s = [] ->
        header <> [] -> mbedtls_serialize_pull fuel header s = OutOfFuel)
  /\ (forall fuel (s : state) a0 a1 a2 a3 noise got,
        status s <> MBEDTLS_SERIALIZE_STATUS_DEAD ->
        steady (read_fd s) = true ->
        stream (read_fd s) = noise ++ open_brace :: open_brace :: got ->
        no_marker noise = true -> (length got < 4)%nat ->
        mbedtls_serialize_pull fuel [a0; a1; a2; a3] s = OutOfFuel)
  /\ (forall fuel (s : state) a0 a1 a2 a3 n1 h1 h2 h3 n2 got w',
        status s <> MBEDTLS_SERIALIZE_STATUS_DEAD ->
        steady (read_fd s) = true ->
        stream (read_fd s)
        = n1 ++ open_brace :: open_brace
             :: [MBEDTLS_SERIALIZE_TYPE_PUSH; h1; h2; h3]
             ++ n2 ++ open_brace :: open_brace :: got ->
        no_marker n1 = true -> no_marker n2 = true ->
        Z.of_nat (length got) < header_value h1 h2 h3 < 2 ^ 24 ->
        mbedtls_calloc (sizeof_item + header_value h1 h2 h3) (platform s)
        = (true, w') ->
        mbedtls_serialize_pull fuel [a0; a1; a2; a3] s = OutOfFuel).
Proof.
  split; [exact read_loop_delivers|].
  split; [exact feeds_delivers|].
  split; [intros; now apply read_loop_starves|].
  split; [intros; now apply mbedtls_serialize_read_eof_hangs|].
  split; [intros; now apply (mbedtls_serialize_read_starves _ _ noise got)|].
  split; [intros; now apply pull_eof_hangs|].
  split; [intros; now apply (pull_header_starves _ _ _ _ _ _ noise got)|].
  intros. now apply (pull_payload_starves _ _ _ _ _ _ n1 h1 h2 h3 n2 got w').
Qed.

(** ** A payload that is discarded *)







(** ** Replies on any channel *)

Lemma mbedtls_serialize_write_cases dev : forall out buffer ret dev' out',
  mbedtls_serialize_write dev out buffer = (ret, dev', out') ->
  (ret = 0 /\ out' = out ++ buffer)
  \/ (ret = MBEDTLS_ERR_SERIALIZE_SEND
      /\ exists k, out' = out ++ take k buffer).
Proof.
  induction dev as [|[n|] dev IH]; intros out buffer ret dev' out';
    cbn [mbedtls_serialize_write].
  - intros [= <- <- <-]. now left.
  - destruct (drop n buffer) as [|b rest] eqn:Hdrop.
    + intros [= <- <- <-]. left. split; [reflexivity|]. f_equal.
      rewrite <- (take_drop n buffer) at 2. now rewrite Hdrop, app_nil_r.
    + rewrite <- Hdrop. intros Hw.
      destruct (IH _ _ _ _ _ Hw) as [[-> ->] | [-> [k ->]]].
      * left. split; [reflexivity|]. now rewrite <- app_assoc, take_drop.
      * right. split; [reflexivity|]. exists (n + k)%nat.
        now rewrite <- app_assoc, take_take_drop.
  - intros [= <- <- <-]. right. split; [reflexivity|]. exists 0%nat.
    now rewrite take_0, app_nil_r.
Qed.

Lemma send_result_cases (s : state) (it : item) r s1 :
  MBEDTLS_ERR_SERIALIZE_SEND <> 0 ->
  mbedtls_serialize_send_result s it (item_size it) = (r, s1) ->
  (~ fits it /\ r = MBEDTLS_ERR_SERIALIZE_UNSUPPORTED_OUTPUT
   /\ sent s1 = sent s)
  \/ (fits it /\ r = 0 /\ sent s1 = sent s ++ result_frame it)
  \/ (fits it /\ r = MBEDTLS_ERR_SERIALIZE_SEND
      /\ exists j, sent s1 = sent s ++ take j (result_frame it)).
Proof.
  intros Herr. unfold mbedtls_serialize_send_result, fits, result_frame.
  destruct (Z.ltb_spec MBEDTLS_SERIALIZE_MAX_STRING_LENGTH (item_size it))
    as [Hbig|Hfit].
  - intros [= <- <-]. left. split; [lia|]. now split.
  - destruct (mbedtls_serialize_write (write_fd s) (sent s)
                (result_header (item_size it))) as [[r1 d1] o1] eqn:W1.
    destruct (mbedtls_serialize_write_cases _ _ _ _ _ _ W1)
      as [[-> ->] | [-> [k ->]]].
    + change (0 =? 0) with true. cbv iota. cbn [write_fd sent set_write_fd].
      unfold item_size at 2. rewrite Nat2Z.id, firstn_all.
      destruct (mbedtls_serialize_write d1
                  (sent s ++ result_header (item_size it)) it)
        as [[r2 d2] o2] eqn:W2.
      intros [= <- <-]. cbn [sent set_write_fd].
      destruct (mbedtls_serialize_write_cases _ _ _ _ _ _ W2)
        as [[-> ->] | [-> [k ->]]]; right.
      * left. split; [assumption|]. split; [reflexivity|].
        now rewrite app_assoc.
      * right. split; [assumption|]. split; [reflexivity|].
        exists (length (result_header (item_size it)) + k)%nat.
        now rewrite take_app_add, app_assoc.
    + apply Z.eqb_neq in Herr. rewrite Herr.
      intros [= <- <-]. cbn [sent set_write_fd]. right. right.
      split; [assumption|]. split; [reflexivity|].
      exists (Nat.min k (length (result_header (item_size it)))).
      f_equal. rewrite take_app_le by lia.
      destruct (Nat.le_ge_cases k (length (result_header (item_size it)))).
      * now rewrite Nat.min_l.
      * rewrite Nat.min_r by assumption. now rewrite !take_ge by lia.
Qed.

Lemma send_results_cases outputs : forall ret (s : state) r s',
  MBEDTLS_ERR_SERIALIZE_SEND <> 0 ->
  MBEDTLS_ERR_SERIALIZE_UNSUPPORTED_OUTPUT <> 0 ->
  send_results outputs ret s = (r, s') ->
  (status s' = status s
   /\ sent s' = sent s ++ concat (map result_frame (produced outputs))
   /\ r = match produced outputs with [] => ret | _ :: _ => 0 end
   /\ Forall fits (produced outputs))
  \/ (status s' = MBEDTLS_SERIALIZE_STATUS_DEAD
      /\ exists k it j,
           produced outputs !! k = Some it
           /\ Forall fits (take k (produced outputs))
           /\ sent s'
              = sent s
                ++ concat (map result_frame (take k (produced outputs)))
                ++ take j (result_frame it)
           /\ (~ fits it /\ j = 0%nat
               /\ r = MBEDTLS_ERR_SERIALIZE_UNSUPPORTED_OUTPUT
               \/ fits it /\ r = MBEDTLS_ERR_SERIALIZE_SEND)).
Proof.
  induction outputs as [|[it|] outputs IH]; intros ret s r s' Hsend Hbig;
    cbn [send_results produced map concat].
  - intros [= <- <-]. left. rewrite app_nil_r. now repeat split.
  - destruct (mbedtls_serialize_send_result s it (item_size it))
      as [r1 s1] eqn:S1.
    pose proof (send_result_keeps s it (item_size it)) as Hk.
    rewrite S1 in Hk. cbn [snd] in Hk. destruct Hk as (_ & Hstatus & _).
    destruct (send_result_cases _ _ _ _ Hsend S1)
      as [(Hno & -> & Hsent) | [(Hfit & -> & Hsent)
                               | (Hfit & -> & j & Hsent)]].
    + apply Z.eqb_neq in Hbig. rewrite Hbig. intros [= <- <-].
      right. split; [reflexivity|]. exists 0%nat, it, 0%nat.
      split; [reflexivity|]. split; [constructor|].
      cbn [take map concat sent set_status].
      split; [now rewrite take_0, !app_nil_r | now left].
    + change (0 =? 0) with true. cbv iota. intros Hrest.
      destruct (IH _ _ _ _ Hsend Hbig Hrest)
        as [(Hst & Hs' & Hr & Hall)
           | (Hst & k & it' & j & Hk & Hbefore & Hs' & Hwhy)].
      * left. split; [congruence|]. split; [|split].
        -- now rewrite Hs', Hsent, <- app_assoc.
        -- rewrite Hr. now destruct (produced outputs).
        -- now constructor.
      * right. split; [assumption|]. exists (S k), it', j.
        split; [exact Hk|]. split; [now constructor|].
        split; [|assumption].
        cbn [take map concat]. now rewrite Hs', Hsent, <- !app_assoc.
    + apply Z.eqb_neq in Hsend. rewrite Hsend. intros [= <- <-].
      right. split; [reflexivity|]. exists 0%nat, it, j.
      split; [reflexivity|]. split; [constructor|].
      cbn [take map concat sent set_status app].
      split; [assumption | now right].
  - intros [= <- <-]. left. rewrite app_nil_r. now repeat split.
Qed.

Lemma send_result_accepting (s : state) (it : item) :
  accepting (write_fd s) = true -> fits it ->
  exists d,
    mbedtls_serialize_send_result s it (item_size it)
    = (0, set_write_fd d (sent s ++ result_frame it) s)
    /\ accepting d = true.
Proof.
  unfold fits. intros Hacc Hfit. unfold mbedtls_serialize_send_result.
  destruct (Z.ltb_spec MBEDTLS_SERIALIZE_MAX_STRING_LENGTH (item_size it));
    [lia|].
  destruct (mbedtls_serialize_write_accepting (write_fd s) (sent s)
              (result_header (item_size it)) Hacc) as (d1 & -> & Hacc1).
  change (0 =? 0) with true. cbv iota. cbn [write_fd sent set_write_fd].
  unfold item_size at 2. rewrite Nat2Z.id, firstn_all.
  destruct (mbedtls_serialize_write_accepting d1
              (sent s ++ result_header (item_size it)) it Hacc1)
    as (d2 & -> & Hacc2).
  exists d2. split; [|assumption].
  unfold result_frame. now rewrite app_assoc.
Qed.

Lemma send_results_accepting outputs : forall ret (s : state),
  accepting (write_fd s) = true -> Forall fits (produced outputs) ->
  status (send_results outputs ret s).2 = status s.
Proof.
  induction outputs as [|[it|] outputs IH]; intros ret s Hacc Hfit;
    cbn [send_results produced] in *; [reflexivity| |reflexivity].
  destruct (send_result_accepting s it Hacc) as (d & -> & Hacc');
    [now inversion Hfit|].
  change (0 =? 0) with true. cbv iota.
  rewrite IH; [reflexivity | exact Hacc' | now inversion Hfit].
Qed.

(** The send loop on the status item and the outputs. *)
Lemma send_reply_cases st outs ret (s : state) r s' :
  4 <= MBEDTLS_SERIALIZE_MAX_STRING_LENGTH ->
  MBEDTLS_ERR_SERIALIZE_SEND <> 0 ->
  MBEDTLS_ERR_SERIALIZE_UNSUPPORTED_OUTPUT <> 0 ->
  send_reply st outs ret s = (r, s') ->
  (accepting (write_fd s) = true ->
   Forall fits (produced (take 16 outs)) -> status s' = status s)
  /\ ((status s' = status s /\ r = 0
       /\ sent s'
          = sent s
            ++ concat (map result_frame
                         (uint32_bytes st :: produced (take 16 outs)))
       /\ Forall fits (produced (take 16 outs)))
      \/ (status s' = MBEDTLS_SERIALIZE_STATUS_DEAD
          /\ exists k it j,
               (uint32_bytes st :: produced (take 16 outs)) !! k = Some it
               /\ Forall fits
                    (take k (uint32_bytes st :: produced (take 16 outs)))
               /\ sent s'
                  = sent s
                    ++ concat (map result_frame
                         (take k (uint32_bytes st
                                    :: produced (take 16 outs))))
                    ++ take j (result_frame it)
               /\ (~ fits it /\ j = 0%nat
                   /\ r = MBEDTLS_ERR_SERIALIZE_UNSUPPORTED_OUTPUT
                   \/ fits it /\ r = MBEDTLS_ERR_SERIALIZE_SEND))).
Proof.
  intros Hmax Hsend Hbig. unfold send_reply.
  change (take 17 (Some (uint32_bytes st) :: outs))
    with (Some (uint32_bytes st) :: take 16 outs).
  intros Hr. split.
  - intros Hacc Hfit.
    pose proof (send_results_accepting
                  (Some (uint32_bytes st) :: take 16 outs) ret s Hacc) as Hs.
    rewrite Hr in Hs. apply Hs. cbn [produced].
    constructor; [exact Hmax | assumption].
  - destruct (send_results_cases _ _ _ _ _ Hsend Hbig Hr)
      as [(Hst & Hs' & Hret & Hall) | Hcut].
    + left. cbn [produced] in *. repeat split; try assumption.
      now inversion Hall.
    + right. exact Hcut.
Qed.

Lemma result_frame_not_nil (it : item) : result_frame it <> [].
Proof. unfold result_frame, result_header. discriminate. Qed.

Lemma app_grows (l k : list byte) : k <> [] -> l ++ k <> l.
Proof.
  intros Hk Heq. apply Hk. apply (app_inv_head l). now rewrite app_nil_r.
Qed.

(** C7, as the code has it. An execute message is answered by the send
    loop, with the status item of the dispatcher, or [ALLOC_FAILED]
    without dispatch in the state [OUT_OF_MEMORY], and the outputs the
    dispatcher left, none when its status is not 0. When a reply is
    produced, no output exceeds the limit and the channel accepts every
    write, what is written is the frame of the status item followed by
    one frame for each output, in the order of the slots. A send that is
    refused, the item exceeding the limit, or that fails in a [write],
    ends the reply at that frame: the frames before it are whole, of a
    refused item nothing is written, of one whose [write] failed a part
    of its frame, and the status is [DEAD]; a reply that is not cut
    this way is whole, and every item of it is within the limit. *)
Theorem pull_execute_reply_frames
    fuel header (s : state) dev' h1 h2 h3 st outs :
  MBEDTLS_SERIALIZE_TYPE_EXECUTE <> MBEDTLS_SERIALIZE_TYPE_PUSH ->
  4 <= MBEDTLS_SERIALIZE_MAX_STRING_LENGTH ->
  MBEDTLS_ERR_SERIALIZE_SEND <> 0 ->
  MBEDTLS_ERR_SERIALIZE_UNSUPPORTED_OUTPUT <> 0 ->
  status s <> MBEDTLS_SERIALIZE_STATUS_DEAD ->
  mbedtls_serialize_read fuel (read_fd s) header 4
  = Ret (0, dev', [MBEDTLS_SERIALIZE_TYPE_EXECUTE; h1; h2; h3]) ->
  (status s = MBEDTLS_SERIALIZE_STATUS_OUT_OF_MEMORY
   /\ st = to_uint32 MBEDTLS_ERR_SERIALIZE_ALLOC_FAILED
   /\ outs = replicate 16 None
   \/ status s <> MBEDTLS_SERIALIZE_STATUS_OUT_OF_MEMORY
      /\ exists s1,
           mbedtls_serialize_perform (set_read_fd dev' s)
             (header_value h1 h2 h3) (replicate 16 None)
           = Ret (st, outs, s1)) ->
  exists ret s',
    mbedtls_serialize_pull fuel header s = Ret (ret, s')
    /\ (st <> 0 -> produced (take 16 outs) = [])
    /\ (accepting (write_fd s) = true ->
        Forall fits (produced (take 16 outs)) ->
        status s' <> MBEDTLS_SERIALIZE_STATUS_DEAD
        /\ (sent s' <> sent s ->
            ret = 0
            /\ sent s'
               = sent s
                 ++ concat (map result_frame
                      (uint32_bytes st :: produced (take 16 outs)))))
    /\ (status s' = MBEDTLS_SERIALIZE_STATUS_DEAD ->
        exists k it j,
          (uint32_bytes st :: produced (take 16 outs)) !! k = Some it
          /\ Forall fits
               (take k (uint32_bytes st :: produced (take 16 outs)))
          /\ sent s'
             = sent s
               ++ concat (map result_frame
                    (take k (uint32_bytes st :: produced (take 16 outs))))
               ++ take j (result_frame it)
          /\ (~ fits it /\ j = 0%nat
              /\ ret = MBEDTLS_ERR_SERIALIZE_UNSUPPORTED_OUTPUT
              \/ fits it /\ ret = MBEDTLS_ERR_SERIALIZE_SEND))
    /\ (status s' <> MBEDTLS_SERIALIZE_STATUS_DEAD ->
        sent s' <> sent s ->
        ret = 0
        /\ sent s'
           = sent s
             ++ concat (map result_frame
                  (uint32_bytes st :: produced (take 16 outs)))
        /\ Forall fits (produced (take 16 outs)))
    /\ (status s' <> MBEDTLS_SERIALIZE_STATUS_DEAD ->
        sent s' = sent s ->
        status s <> MBEDTLS_SERIALIZE_STATUS_OUT_OF_MEMORY
        /\ st = status_value MBEDTLS_SERIALIZE_STATUS_EXITED).
Proof.
  intros Hne Hmax Hsend Hbig Hst Hread Hpath.
  rewrite (pull_execute_step fuel header s dev' h1 h2 h3)
    by assumption.
  assert (Hframes : forall l : list byte,
            l ++ concat (map result_frame
                           (uint32_bytes st :: produced (take 16 outs)))
            <> l).
  { intros l. apply app_grows. cbn [map concat].
    pose proof (result_frame_not_nil (uint32_bytes st)).
    destruct (result_frame (uint32_bytes st)); [congruence|discriminate]. }
  (* what the send loop leaves, whichever way it was reached *)
  assert (Hloop : forall (s1 : state) r s',
            write_fd s1 = write_fd s -> sent s1 = sent s ->
            status s1 <> MBEDTLS_SERIALIZE_STATUS_DEAD ->
            send_reply st outs 0 s1 = (r, s') ->
            (accepting (write_fd s) = true ->
             Forall fits (produced (take 16 outs)) ->
             status s' <> MBEDTLS_SERIALIZE_STATUS_DEAD
             /\ (sent s' <> sent s ->
                 r = 0
                 /\ sent s'
                    = sent s
                      ++ concat (map result_frame
                           (uint32_bytes st :: produced (take 16 outs)))))
            /\ (status s' = MBEDTLS_SERIALIZE_STATUS_DEAD ->
                exists k it j,
                  (uint32_bytes st :: produced (take 16 outs)) !! k = Some it
                  /\ Forall fits
                       (take k (uint32_bytes st
                                  :: produced (take 16 outs)))
                  /\ sent s'
                     = sent s
                       ++ concat (map result_frame
                            (take k (uint32_bytes st
                                       :: produced (take 16 outs))))
                       ++ take j (result_frame it)
                  /\ (~ fits it /\ j = 0%nat
                      /\ r = MBEDTLS_ERR_SERIALIZE_UNSUPPORTED_OUTPUT
                      \/ fits it /\ r = MBEDTLS_ERR_SERIALIZE_SEND))
            /\ (status s' <> MBEDTLS_SERIALIZE_STATUS_DEAD ->
                sent s' <> sent s ->
                r = 0
                /\ sent s'
                   = sent s
                     ++ concat (map result_frame
                          (uint32_bytes st :: produced (take 16 outs)))
                /\ Forall fits (produced (take 16 outs)))
            /\ (status s' <> MBEDTLS_SERIALIZE_STATUS_DEAD ->
                sent s' <> sent s)).
  { intros s1 r s' Hwr Hsent Halive1 Hr.
    destruct (send_reply_cases _ _ _ _ _ _ Hmax Hsend Hbig Hr)
      as (Hnom & Hcases).
    rewrite Hwr in Hnom. rewrite Hsent in Hcases.
    assert (Hwhole : status s' <> MBEDTLS_SERIALIZE_STATUS_DEAD ->
              r = 0
              /\ sent s'
                 = sent s
                   ++ concat (map result_frame
                        (uint32_bytes st :: produced (take 16 outs)))
              /\ Forall fits (produced (take 16 outs))).
    { intros Halive.
      destruct Hcases as [(_ & -> & Hs' & Hall) | (Hdead & _)];
        [|congruence].
      now repeat split. }
    split.
    { intros Hacc Hfit.
      assert (Halive : status s' <> MBEDTLS_SERIALIZE_STATUS_DEAD)
        by (rewrite (Hnom Hacc Hfit); assumption).
      split; [exact Halive|]. intros _.
      destruct (Hwhole Halive) as (Hr0 & Hs' & _). now split. }
    split.
    { intros Hdead.
      destruct Hcases as [(Hsame & _) | (_ & Hcut)]; [congruence|].
      exact Hcut. }
    split; [intros Halive _; exact (Hwhole Halive)|].
    intros Halive Hquiet. destruct (Hwhole Halive) as (_ & Hs' & _).
    rewrite Hquiet in Hs'. symmetry in Hs'. now apply Hframes in Hs'. }
  destruct Hpath as [(Hoom & Hst0 & Houts) | (Hdisp & s1 & Hperf)].
  - rewrite (pull_execute_out_of_memory _ _ (set_read_fd dev' s) Hoom).
    rewrite <- Hst0.
    replace (replicate 16 None) with outs by exact Houts.
    destruct (send_reply st outs 0 (set_read_fd dev' s)) as [r s'] eqn:Hr.
    destruct (Hloop (set_read_fd dev' s) r s' eq_refl eq_refl Hst Hr)
      as (Hnom & Hcut & Hwhole & Hgrew).
    exists r, s'. split; [reflexivity|].
    split; [intros _; now rewrite Houts|].
    split; [exact Hnom|]. split; [exact Hcut|]. split; [exact Hwhole|].
    intros Halive Hquiet. exfalso. exact (Hgrew Halive Hquiet).
  - rewrite (pull_execute_dispatch _ _ _ st outs s1)
      by (assumption || (cbn [status set_read_fd]; congruence)).
    pose proof (perform_keeps_channel _ _ _ _ _ _ Hperf) as Hch.
    unfold channel in Hch. cbn [read_fd write_fd sent set_read_fd] in Hch.
    injection Hch as Hrd Hwr Hsent.
    assert (Halive1 : status s1 <> MBEDTLS_SERIALIZE_STATUS_DEAD).
    { destruct (perform_status _ _ _ _ _ _ Hperf) as [E|E]; rewrite E;
        [exact Hst | discriminate]. }
    destruct (Z.eqb_spec st (status_value MBEDTLS_SERIALIZE_STATUS_EXITED))
      as [Hexit|Hexit].
    + exists (to_int st), s1. split; [reflexivity|].
      split; [apply (perform_discards _ _ _ _ _ _ Hperf)|].
      split; [intros _ _; split; [exact Halive1|]; intros Hgrew;
              now rewrite Hsent in Hgrew|].
      split; [intros Hdead; congruence|].
      split; [intros _ Hgrew; now rewrite Hsent in Hgrew|].
      intros _ _. now split.
    + destruct (send_reply st outs 0 s1) as [r s'] eqn:Hr.
      destruct (Hloop _ _ _ Hwr Hsent Halive1 Hr)
        as (Hnom & Hcut & Hwhole & Hgrew).
      exists r, s'. split; [reflexivity|].
      split; [apply (perform_discards _ _ _ _ _ _ Hperf)|].
      split; [exact Hnom|]. split; [exact Hcut|]. split; [exact Hwhole|].
      intros Halive Hquiet. exfalso. exact (Hgrew Halive Hquiet).
Qed.

End Wire.

(** * The model at work

    The statements above, on the sample configuration and platforms. *)

#[local] Existing Instance sample_h.

Lemma sample_labels_distinct : NoDup (@case_labels sample_h).
Proof. apply (bool_decide_unpack _). vm_compute. exact I. Defined.

Section OnTheBarePlatform.
#[local] Existing Instance bare_host.

Example run_push_execute_echo :
  exists s2,
    (let* (_, s1) :=
       mbedtls_serialize_pull 16 [0; 0; 0; 0]
         (sample_state [] MBEDTLS_SERIALIZE_STATUS_OK
            [Bytes ([123; 123; 0x70; 0; 0; 5; 123; 123] ++ hello
                    ++ [123; 123; 0x65; 0x00; 0x01; 0x11])] [] []) in
     mbedtls_serialize_pull 16 [0; 0; 0; 0] s1) = Ret (0, s2)
    /\ sent s2 = [0x72; 0; 0; 4; 0; 0; 0; 0; 0x72; 0; 0; 5] ++ hello
    /\ stack s2 = [].
Proof. vm_compute. eexists. split; [|split]; reflexivity. Qed.

Lemma pull_out_of_memory_never_back_to_ok_witness :
  exists ret s',
    mbedtls_serialize_pull 8 [0; 0; 0; 0] starved_state = Ret (ret, s')
    /\ status s' <> MBEDTLS_SERIALIZE_STATUS_OK.
Proof.
  destruct (pull_out_of_memory_never_back_to_ok 8 [0; 0; 0; 0]
              starved_state [] 0 1 0x11)
    as (ret & s' & Hpull & Hstatus & _).
  - vm_compute. discriminate.
  - reflexivity.
  - vm_compute. reflexivity.
  - exists ret, s'. split; [exact Hpull | exact Hstatus].
Defined.

Lemma pull_EXIT_is_answered_witness :
  exists s',
    mbedtls_serialize_pull 8 [0; 0; 0; 0] leaving_state = Ret (0, s')
    /\ exitcode s' = 42
    /\ status s' = MBEDTLS_SERIALIZE_STATUS_EXITED
    /\ sent s' = [0x72; 0; 0; 4; 0; 0; 0; 0].
Proof.
  destruct (pull_EXIT_is_answered 8 [0; 0; 0; 0] leaving_state [] 0 0 0x10
              [0; 0; 0; 0x2a] [] 42)
    as (s' & Hpull & Hcode & Hstatus & Hsent).
  - vm_compute. discriminate.
  - vm_compute. discriminate.
  - vm_compute. discriminate.
  - reflexivity.
  - vm_compute. reflexivity.
  - reflexivity.
  - reflexivity.
  - reflexivity.
  - reflexivity.
  - exists s'.
    split; [exact Hpull
           | split; [exact Hcode | split; [exact Hstatus | exact Hsent]]].
Defined.

Lemma perform_FCLOSE_empty_stack_dereferences_null_witness :
  mbedtls_serialize_perform
    (sample_state [] MBEDTLS_SERIALIZE_STATUS_OK [] [] [])
    0x000d10 (replicate 16 None)
  = Fault NullDeref.
Proof.
  exact (perform_FCLOSE_empty_stack_dereferences_null
           (sample_state [] MBEDTLS_SERIALIZE_STATUS_OK [] [] [])
           (replicate 16 None) sample_labels_distinct eq_refl).
Defined.

Lemma pull_execute_stack_after_witness :
  exists ret s',
    mbedtls_serialize_pull 8 [0; 0; 0; 0] starved_state = Ret (ret, s')
    /\ stack s' = [[1]; [2]].
Proof.
  eexists _, _. split.
  - vm_compute. reflexivity.
  - refine (pull_execute_stack_after 8 [0; 0; 0; 0] starved_state [] 0 1 0x11
              _ _ _ _ _ _).
    + vm_compute. discriminate.
    + discriminate.
    + vm_compute. reflexivity.
    + vm_compute. reflexivity.
Defined.



Lemma pull_execute_reply_frames_witness :
  exists ret s',
    mbedtls_serialize_pull 8 [0; 0; 0; 0]
      (sample_state [hello] MBEDTLS_SERIALIZE_STATUS_OK
         (execute_message 0 1 0x11) [Accept 3; Accept 2] [])
    = Ret (ret, s')
    /\ ret = 0
    /\ sent s' = [] ++ concat (map result_frame [uint32_bytes 0; hello]).
Proof.
  destruct (pull_execute_reply_frames 8 [0; 0; 0; 0]
              (sample_state [hello] MBEDTLS_SERIALIZE_STATUS_OK
                 (execute_message 0 1 0x11) [Accept 3; Accept 2] [])
              [] 0 1 0x11 0 (Some hello :: replicate 15 None))
    as (ret & s' & Hpull & _ & Hnominal & _).
  - vm_compute. discriminate.
  - vm_compute. discriminate.
  - vm_compute. discriminate.
  - vm_compute. discriminate.
  - discriminate.
  - vm_compute. reflexivity.
  - right. split; [discriminate|]. eexists. vm_compute. reflexivity.
  - destruct Hnominal as (_ & Hreply).
    + reflexivity.
    + repeat constructor; vm_compute; discriminate.
    + exists ret, s'. split; [exact Hpull|]. apply Hreply.
      vm_compute in Hpull. injection Hpull as _ <-. discriminate.
Defined.

Lemma perform_ECHO_copies_argument_witness :
  mbedtls_serialize_perform
    (sample_state [hello] MBEDTLS_SERIALIZE_STATUS_OK [] [] [])
    0x000111 (replicate 16 None)
  = Ret (0, Some hello :: replicate 15 None,
         sample_state [] MBEDTLS_SERIALIZE_STATUS_OK [] [] []).
Proof.
  refine (perform_ECHO_copies_argument
            (sample_state [hello] MBEDTLS_SERIALIZE_STATUS_OK [] [] [])
            hello [] ([] : list bool) _ _ eq_refl _ _ eq_refl).
  - vm_compute. discriminate.
  - vm_compute. discriminate.
  - vm_compute. discriminate.
  - vm_compute. reflexivity.
Defined.

Lemma read_loop_returns_only_on_progress_witness :
  (exists r, forall fuel, (2 <= fuel)%nat ->
     read_loop fuel [Bytes [1; 2]; Bytes [3; 4]] [0; 0; 0; 0] 0 4 = Ret r)
  /\ (forall fuel, read_loop fuel [Bytes [1; 2]] [0; 0; 0; 0] 0 4 = OutOfFuel)
  /\ (forall fuel,
        mbedtls_serialize_pull fuel [0; 0; 0; 0]
          (sample_state [] MBEDTLS_SERIALIZE_STATUS_OK
             [Bytes [123; 123; 0x70; 0]] [] [])
        = OutOfFuel).
Proof.
  destruct read_loop_returns_only_on_progress
    as (Hret & _ & Hhang & _ & _ & _ & Hheader & _).
  split; [|split].
  - apply (Hret [Bytes [1; 2]; Bytes [3; 4]] [0; 0; 0; 0] 0%nat 4);
      [lia | reflexivity].
  - intros fuel. apply Hhang; [lia | reflexivity].
  - intros fuel.
    apply (Hheader fuel
             (sample_state [] MBEDTLS_SERIALIZE_STATUS_OK
                [Bytes [123; 123; 0x70; 0]] [] [])
             0 0 0 0 [] [0x70; 0]).
    + discriminate.
    + reflexivity.
    + reflexivity.
    + reflexivity.
    + cbn [length]. lia.
Defined.

(** The claim of C10 at a device whose first [read] returns 0 and whose
    second delivers four bytes: not every [read] returns a positive
    count or an error, and the loop returns. *)
Lemma zero_read_is_retried :
  read [Bytes []; Bytes [1; 2; 3; 4]] 4 = (0, [], [Bytes [1; 2; 3; 4]])
  /\ feeds [Bytes []; Bytes [1; 2; 3; 4]] 4 = false
  /\ read_loop 2 [Bytes []; Bytes [1; 2; 3; 4]] [0; 0; 0; 0] 0 4
     = Ret (0, [], [1; 2; 3; 4]).
Proof. vm_compute. repeat split. Qed.

End OnTheBarePlatform.

Section OnTheDeliveringPlatform.
#[local] Existing Instance flood_host.

Lemma flood_output_size : item_size flood_output = 0x1000000.
Proof.
  unfold flood_output, set_size, item_size, overwrite.
  rewrite length_take, !length_app, length_take, length_drop,
    !length_replicate.
  lia.
Qed.

Lemma flood_perform :
  mbedtls_serialize_perform (set_read_fd [] flood_state) 0x000631
    (replicate 16 None)
  = Ret (0, Some flood_output :: replicate 15 None,
         set_stack []
           (@set_platform flood_host [] (set_read_fd [] flood_state))).
Proof.
  refine (perform_RECV_delivers (set_read_fd [] flood_state)
            [0; 3] [1; 0; 0; 0] [255; 255; 255; 255] []
            3 0x1000000 (replicate (Z.to_nat 0x1000000) 0) 0x1000000
            ([] : list bool) ([] : list bool)
            sample_labels_distinct _ eq_refl eq_refl eq_refl eq_refl _
            eq_refl eq_refl _).
  - vm_compute. discriminate.
  - lia.
  - lia.
Qed.

Lemma flood_pull :
  exists s',
    mbedtls_serialize_pull 8 [0; 0; 0; 0] flood_state
    = Ret (MBEDTLS_ERR_SERIALIZE_UNSUPPORTED_OUTPUT, s')
    /\ sent s' = [0x72; 0; 0; 4; 0; 0; 0; 0]
    /\ status s' = MBEDTLS_SERIALIZE_STATUS_DEAD.
Proof.
  destruct (pull_execute_refuses_oversize 8 [0; 0; 0; 0] flood_state []
              0 0x06 0x31 0 (Some flood_output :: replicate 15 None)
              (set_stack []
           (@set_platform flood_host [] (set_read_fd [] flood_state)))
              [] flood_output [])
    as (s' & Hpull & _ & Hsent & Hstatus).
  - vm_compute. discriminate.
  - vm_compute. discriminate.
  - vm_compute. discriminate.
  - reflexivity.
  - vm_compute. reflexivity.
  - exact flood_perform.
  - reflexivity.
  - reflexivity.
  - constructor.
  - unfold fits. rewrite flood_output_size. vm_compute. tauto.
  - exists s'. split; [exact Hpull | split; [exact Hsent | exact Hstatus]].
Qed.

(** The claim of C7 at a receive of [0x1000000] bytes: the dispatcher
    succeeds and leaves one output, and the reply is the status frame
    alone. *)
Lemma oversize_output_cuts_reply :
  exists outs s1 ret s',
    mbedtls_serialize_perform (set_read_fd [] flood_state) 0x000631
      (replicate 16 None) = Ret (0, outs, s1)
    /\ length (produced (take 16 outs)) = 1%nat
    /\ mbedtls_serialize_pull 8 [0; 0; 0; 0] flood_state = Ret (ret, s')
    /\ sent s' = [0x72; 0; 0; 4; 0; 0; 0; 0].
Proof.
  destruct flood_pull as (s' & Hpull & Hsent & _).
  do 4 eexists. split; [exact flood_perform|].
  split; [reflexivity|]. split; [exact Hpull | exact Hsent].
Qed.

(** The claim of C8 at the same message: the channel is [DEAD] after it,
    and the status item that was sent says success. *)
Lemma oversize_output_kills_channel :
  exists s',
    mbedtls_serialize_pull 8 [0; 0; 0; 0] flood_state
    = Ret (MBEDTLS_ERR_SERIALIZE_UNSUPPORTED_OUTPUT, s')
    /\ sent s' = [0x72; 0; 0; 4] ++ uint32_bytes 0
    /\ status s' = MBEDTLS_SERIALIZE_STATUS_DEAD.
Proof. exact flood_pull. Qed.

Lemma pull_execute_oversize_output_witness :
  exists s',
    mbedtls_serialize_pull 8 [0; 0; 0; 0] flood_state
    = Ret (MBEDTLS_ERR_SERIALIZE_UNSUPPORTED_OUTPUT, s')
    /\ status s' = MBEDTLS_SERIALIZE_STATUS_DEAD.
Proof.
  destruct (pull_execute_oversize_output 8 [0; 0; 0; 0] flood_state []
              0 0x06 0x31 0 (Some flood_output :: replicate 15 None)
              (set_stack []
           (@set_platform flood_host [] (set_read_fd [] flood_state)))
              [] flood_output [])
    as (s' & Hpull & _ & _ & Hstatus).
  - vm_compute. discriminate.
  - vm_compute. discriminate.
  - vm_compute. discriminate.
  - reflexivity.
  - vm_compute. reflexivity.
  - exact flood_perform.
  - reflexivity.
  - reflexivity.
  - constructor.
  - unfold fits. rewrite flood_output_size. vm_compute. tauto.
  - exists s'. split; [exact Hpull | exact Hstatus].
Defined.

End OnTheDeliveringPlatform.

Section FurtherOnTheBarePlatform.
#[local] Existing Instance bare_host.

Lemma item_uint32_set_item_uint32_witness :
  item_uint32 (set_item_uint32 [0; 0; 0; 0; 9] 0x01020304) = Ret 0x01020304
  /\ drop 4 (set_item_uint32 [0; 0; 0; 0; 9] 0x01020304)
     = drop 4 [0; 0; 0; 0; 9]
  /\ length (set_item_uint32 [0; 0; 0; 0; 9] 0x01020304)
     = length [0; 0; 0; 0; 9].
Proof.
  apply (item_uint32_set_item_uint32 [0; 0; 0; 0; 9] 0x01020304).
  - cbn [length]. lia.
  - lia.
Defined.

Lemma item_uint16_set_item_uint16_witness :
  item_uint16 (set_item_uint16 [0; 0; 9] 0x0102) = Ret 0x0102
  /\ length (set_item_uint16 [0; 0; 9] 0x0102) = length [0; 0; 9].
Proof.
  apply (item_uint16_set_item_uint16 [0; 0; 9] 0x0102).
  - cbn [length]. lia.
  - lia.
Defined.

Lemma result_header_value_witness :
  exists h1 h2 h3,
    result_header 0x1000005 = [0x72; h1; h2; h3]
    /\ header_value h1 h2 h3 = 5.
Proof.
  destruct (result_header_value 0x1000005) as (h1 & h2 & h3 & Hh & Hv).
  - lia.
  - exists h1, h2, h3. split; [exact Hh | exact Hv].
Defined.

Lemma mbedtls_serialize_write_prefix_witness :
  mbedtls_serialize_write [Accept 2; WError; Accept 9] [] hello
  = (-0x4b, [Accept 9], [0x48; 0x65])
  /\ exists k, [0x48; 0x65] = [] ++ take k hello.
Proof.
  split; [reflexivity|].
  exact (proj1 (mbedtls_serialize_write_prefix [Accept 2; WError; Accept 9]
                  [] hello (-0x4b) [Accept 9] [0x48; 0x65] eq_refl)).
Defined.

Lemma alloc_file_context_first_free_witness :
  (exists j e, (j < 100)%nat /\ open_table !! j = Some e /\ inUse e = 0
               /\ all_in_use open_table j
               /\ alloc_file_context open_table
                  = Ret (Z.of_nat j + 1,
                         <[j := {| file := file e; inUse := 1 |}]> open_table))
  \/ (all_in_use open_table 100
      /\ alloc_file_context open_table = Ret (-1, open_table)).
Proof. exact (alloc_file_context_first_free open_table eq_refl). Defined.

Lemma handle_store_then_lookup_witness :
  get_file_from_id open_table 2 = Ret 0
  /\ exists fs2,
       store_file (<[1%nat := {| file := 0; inUse := 1 |}]> open_table) 2 9
       = Ret fs2
       /\ get_file_from_id fs2 2 = Ret 9
       /\ get_file_from_id fs2 1 = Ret 7.
Proof.
  destruct (handle_store_then_lookup open_table 2
              (<[1%nat := {| file := 0; inUse := 1 |}]> open_table) 9)
    as (_ & Hbefore & fs2 & Hstore & Hafter & Hothers).
  - reflexivity.
  - lia.
  - reflexivity.
  - lia.
  - split; [exact Hbefore|]. exists fs2.
    split; [exact Hstore | split; [exact Hafter|]].
    rewrite (Hothers 1) by lia. reflexivity.
Defined.

Lemma free_file_context_clears_witness :
  exists fs',
    free_file_context open_table 1 = Ret (0, fs')
    /\ get_file_from_id fs' 1 = Ret 0
    /\ free_file_context fs' 1 = Ret (-1, fs').
Proof.
  destruct (free_file_context_clears open_table 1)
    as (e & r & fs' & He & Hfree & _ & _ & Hget & _ & Hagain).
  - reflexivity.
  - lia.
  - exists fs'. split; [|split; [exact Hget | exact Hagain]].
    rewrite Hfree. vm_compute in Hfree. injection Hfree as <- _.
    reflexivity.
Defined.

Lemma perform_FCLOSE_twice_witness :
  exists s1,
    mbedtls_serialize_perform closing_state 0x000d10 (replicate 16 None)
    = Ret (0, replicate 16 None, s1)
    /\ get_file_from_id (files s1) 1 = Ret 0
    /\ mbedtls_serialize_perform (set_stack [[0; 0; 0; 1]] s1) 0x000d10
         (replicate 16 None)
       = Ret (to_uint32 (to_int (-0x47)), replicate 16 None, s1).
Proof.
  destruct (perform_FCLOSE_twice closing_state 1
              {| file := 7; inUse := 1 |} [])
    as (s1 & Hfirst & _ & Hget & Hsecond).
  - exact sample_labels_distinct.
  - vm_compute. discriminate.
  - reflexivity.
  - lia.
  - reflexivity.
  - vm_compute. discriminate.
  - vm_compute. discriminate.
  - reflexivity.
  - exists s1. split; [exact Hfirst | split; [exact Hget|]].
    exact (Hsecond []).
Defined.

Lemma perform_checks_arity_witness :
  mbedtls_serialize_perform
    (sample_state [[0x61; 0]; [0x38; 0]] MBEDTLS_SERIALIZE_STATUS_OK [] [] [])
    0x000331 (replicate 16 None)
  = Ret (to_uint32 (to_int (-0x45)), replicate 16 None,
         sample_state [] MBEDTLS_SERIALIZE_STATUS_OK [] [] []).
Proof.
  refine (perform_checks_arity
            (sample_state [[0x61; 0]; [0x38; 0]] MBEDTLS_SERIALIZE_STATUS_OK
               [] [] [])
            0x000331 3 sample_labels_distinct _ _).
  - apply (bool_decide_unpack _). vm_compute. exact I.
  - cbn [stack sample_state length]. lia.
Defined.

Lemma perform_unknown_function_witness :
  mbedtls_serialize_perform
    (sample_state [hello] MBEDTLS_SERIALIZE_STATUS_OK [] [] [])
    0x999999 (replicate 16 None)
  = Ret (to_uint32 (to_int (-0x45)), replicate 16 None,
         sample_state [] MBEDTLS_SERIALIZE_STATUS_OK [] [] []).
Proof.
  refine (perform_unknown_function
            (sample_state [hello] MBEDTLS_SERIALIZE_STATUS_OK [] [] [])
            0x999999 _).
  apply (bool_decide_unpack _). vm_compute. exact I.
Defined.

Lemma perform_ECHO_out_of_memory_witness :
  mbedtls_serialize_perform
    (sample_state [hello] MBEDTLS_SERIALIZE_STATUS_OK [] [] [false])
    0x000111 (replicate 16 None)
  = Ret (to_uint32 (to_int (-0x49)), replicate 16 None,
         sample_state [] MBEDTLS_SERIALIZE_STATUS_OK [] [] []).
Proof.
  refine (perform_ECHO_out_of_memory
            (sample_state [hello] MBEDTLS_SERIALIZE_STATUS_OK [] [] [false])
            hello [] ([] : list bool) sample_labels_distinct _ eq_refl _
            eq_refl).
  - vm_compute. discriminate.
  - vm_compute. reflexivity.
Defined.

Lemma perform_SOCKET_unterminated_witness :
  mbedtls_serialize_perform
    (sample_state [[0x61]; [0x38; 0]; [0; 0]] MBEDTLS_SERIALIZE_STATUS_OK
       [] [] [])
    0x000331 (replicate 16 None)
  = Ret (to_uint32 (to_int (-0x45)), replicate 16 None,
         sample_state [] MBEDTLS_SERIALIZE_STATUS_OK [] [] []).
Proof.
  refine (perform_SOCKET_unterminated
            (sample_state [[0x61]; [0x38; 0]; [0; 0]]
               MBEDTLS_SERIALIZE_STATUS_OK [] [] [])
            [0x61] [0x38; 0] [0; 0] [] sample_labels_distinct _ eq_refl _ _).
  - vm_compute. discriminate.
  - vm_compute. discriminate.
  - left. exists 0x61. split; [reflexivity | discriminate].
Defined.

Lemma perform_only_EXIT_changes_status_witness :
  exists st outs s1,
    mbedtls_serialize_perform echo_state 0x000111 (replicate 16 None)
    = Ret (st, outs, s1)
    /\ stack s1 = []
    /\ status s1 = MBEDTLS_SERIALIZE_STATUS_OK.
Proof.
  eexists _, _, _. split; [vm_compute; reflexivity|].
  edestruct (perform_only_EXIT_changes_status echo_state 0x000111
               (replicate 16 None))
    as (Hstack & Hstatus & _).
  - vm_compute. reflexivity.
  - split; [exact Hstack|]. apply Hstatus. vm_compute. discriminate.
Defined.

Lemma pull_PUSH_adds_item_witness :
  exists s',
    mbedtls_serialize_pull 16 [0; 0; 0; 0]
      (sample_state [[1]] MBEDTLS_SERIALIZE_STATUS_OK
         (push_message 0 0 5 hello) [] [])
    = Ret (0, s')
    /\ stack s' = [hello; [1]].
Proof.
  destruct (pull_PUSH_adds_item 16
              (sample_state [[1]] MBEDTLS_SERIALIZE_STATUS_OK
                 (push_message 0 0 5 hello) [] [])
              0 0 0 0 [] 0 0 5 [] hello [] ([] : list bool))
    as (s' & Hpull & Hstack & _).
  - discriminate.
  - reflexivity.
  - reflexivity.
  - constructor.
  - constructor.
  - reflexivity.
  - discriminate.
  - vm_compute. reflexivity.
  - reflexivity.
  - vm_compute. lia.
  - exists s'. split; [exact Hpull | exact Hstack].
Defined.


Lemma pull_PUSH_out_of_memory_witness :
  exists s',
    mbedtls_serialize_pull 16 [0; 0; 0; 0]
      (sample_state [[1]] MBEDTLS_SERIALIZE_STATUS_OK
         (push_message 0 0 2 [0x41; 0x42]) [] [false])
    = Ret (-0x49, s')
    /\ status s' = MBEDTLS_SERIALIZE_STATUS_OUT_OF_MEMORY
    /\ stack s' = [[1]].
Proof.
  destruct (pull_PUSH_out_of_memory 16
              (sample_state [[1]] MBEDTLS_SERIALIZE_STATUS_OK
                 (push_message 0 0 2 [0x41; 0x42]) [] [false])
              0 0 0 0 [] 0 0 2 [] [0x41; 0x42] [] ([] : list bool))
    as (s' & Hpull & Hstatus & Hstack & _).
  - discriminate.
  - reflexivity.
  - reflexivity.
  - constructor.
  - constructor.
  - reflexivity.
  - cbn [length]. lia.
  - reflexivity.
  - vm_compute. lia.
  - exists s'. split; [exact Hpull | split; [exact Hstatus | exact Hstack]].
Defined.

Lemma pull_unknown_type_kills_witness :
  exists s',
    mbedtls_serialize_pull 16 [0; 0; 0; 0]
      (sample_state [[1]] MBEDTLS_SERIALIZE_STATUS_OK
         [Bytes [123; 123; 0x21; 0; 0; 0]] [] [])
    = Ret (-0x45, s')
    /\ status s' = MBEDTLS_SERIALIZE_STATUS_DEAD
    /\ stack s' = [[1]].
Proof.
  destruct (pull_unknown_type_kills 16
              (sample_state [[1]] MBEDTLS_SERIALIZE_STATUS_OK
                 [Bytes [123; 123; 0x21; 0; 0; 0]] [] [])
              0 0 0 0 [] 0x21 0 0 0 [])
    as (s' & Hpull & Hstatus & Hstack & _).
  - discriminate.
  - reflexivity.
  - reflexivity.
  - constructor.
  - vm_compute. discriminate.
  - vm_compute. discriminate.
  - vm_compute. lia.
  - exists s'. split; [exact Hpull | split; [exact Hstatus | exact Hstack]].
Defined.

Lemma mbedtls_serialize_frontend_stops_witness :
  exists s',
    mbedtls_serialize_frontend 16 4 [0; 0; 0; 0] leaving_state
    = Ret (3, s')
    /\ status s' = MBEDTLS_SERIALIZE_STATUS_EXITED
    /\ mbedtls_serialize_frontend 16 4 [0; 0; 0; 0] s' = Ret (3, s').
Proof.
  eexists. split; [vm_compute; reflexivity|].
  split; [reflexivity|].
  refine (proj2 (mbedtls_serialize_frontend_stops 16 4 [0; 0; 0; 0] _) _).
  right. reflexivity.
Defined.

Lemma send_args_layout_witness :
  sent (send_args
          (sample_state [] MBEDTLS_SERIALIZE_STATUS_OK [] [Accept 3] [])
          3 [0x2d; 0x76; 0])
  = [] ++ start_sequence ++ uint32_bytes 3 ++ [0x2d; 0x76; 0].
Proof.
  refine (proj1 (send_args_layout
                   (sample_state [] MBEDTLS_SERIALIZE_STATUS_OK []
                      [Accept 3] [])
                   3 [0x2d; 0x76; 0] eq_refl eq_refl _)).
  lia.
Defined.

Lemma pull_read_error_kills_witness :
  exists s',
    mbedtls_serialize_pull 16 [0; 0; 0; 0]
      (sample_state [[1]] MBEDTLS_SERIALIZE_STATUS_OK
         [Bytes [0x0a; 0x0b]; RError] [] [])
    = Ret (-0x4d, s')
    /\ status s' = MBEDTLS_SERIALIZE_STATUS_DEAD
    /\ stack s' = [[1]].
Proof.
  destruct (pull_read_error_kills 16
              (sample_state [[1]] MBEDTLS_SERIALIZE_STATUS_OK
                 [Bytes [0x0a; 0x0b]; RError] [] [])
              0 0 0 0 [Bytes [0x0a; 0x0b]] [0x0a; 0x0b] [])
    as (s' & Hpull & Hstatus & Hstack & _).
  - vm_compute. discriminate.
  - discriminate.
  - reflexivity.
  - reflexivity.
  - reflexivity.
  - repeat constructor; discriminate.
  - cbn [length]. lia.
  - exists s'. split; [exact Hpull | split; [exact Hstatus | exact Hstack]].
Defined.

Lemma pull_write_error_kills_witness :
  exists s',
    mbedtls_serialize_pull 8 [0; 0; 0; 0]
      (sample_state [hello] MBEDTLS_SERIALIZE_STATUS_OK
         (execute_message 0 1 0x11) [WError] [])
    = Ret (-0x4b, s')
    /\ status s' = MBEDTLS_SERIALIZE_STATUS_DEAD
    /\ sent s' = [].
Proof.
  edestruct (pull_write_error_kills 8 [0; 0; 0; 0]
               (sample_state [hello] MBEDTLS_SERIALIZE_STATUS_OK
                  (execute_message 0 1 0x11) [WError] [])
               [] 0 1 0x11)
    as (s' & Hpull & Hstatus & Hsent & _).
  - vm_compute. discriminate.
  - vm_compute. discriminate.
  - vm_compute. discriminate.
  - reflexivity.
  - vm_compute. reflexivity.
  - vm_compute. reflexivity.
  - vm_compute. discriminate.
  - reflexivity.
  - exists s'. split; [exact Hpull | split; [exact Hstatus | exact Hsent]].
Defined.

Lemma pack_args_joins_witness :
  pack_args [[0x2d; 0x76]; [0x61]] (Some (replicate 5 0xff))
  = Ret (5, Some [0x2d; 0x76; 0; 0x61; 0]).
Proof.
  refine (pack_args_joins [[0x2d; 0x76]; [0x61]] (replicate 5 0xff) _ _).
  - vm_compute. reflexivity.
  - reflexivity.
Defined.

Lemma pack_args_then_send_args_witness :
  exists sub_args_len sub_args,
    pack_args [[0x2d; 0x76]; [0x61]] (Some (replicate 5 0xff))
    = Ret (sub_args_len, Some sub_args)
    /\ sent (send_args
               (sample_state [] MBEDTLS_SERIALIZE_STATUS_OK [] [Accept 3] [])
               sub_args_len sub_args)
       = [] ++ start_sequence ++ uint32_bytes sub_args_len
         ++ [0x2d; 0x76; 0; 0x61; 0].
Proof.
  destruct (pack_args_then_send_args
              (sample_state [] MBEDTLS_SERIALIZE_STATUS_OK [] [Accept 3] [])
              [[0x2d; 0x76]; [0x61]] (replicate 5 0xff))
    as (n & b & Hpack & Hsent & _).
  - reflexivity.
  - vm_compute. reflexivity.
  - reflexivity.
  - exists n, b. split; [exact Hpack | exact Hsent].
Defined.

End FurtherOnTheBarePlatform.
